(** * hera_cal: LST binning and redundant-calibration bookkeeping

    Shallow embedding of the parts of [hera_cal] that the specification
    speaks about:

    - [hera_cal/lstbin_simple.py]: [lst_average], [adjust_lst_bin_edges],
      [get_lst_bins], [simple_lst_bin], [reduce_lst_bins] and the parts of
      the file-level driver that work on values in memory;
    - the redundancy grouper and the equation builder of
      [hera_cal/redcal.py], which are exercised by
      [hera_cal/tests/test_redcal.py].

    Conventions.  A Python exception is a value of [exn]; a call either
    returns ([Ok]) or raises ([Raise]).  A numpy array is its shape together
    with its cells.

    Floating-point numbers come in two ways.  Where the code only branches
    on comparisons and moves cells around ([lst_average],
    [reduce_lst_bins]), the arithmetic sits behind an interface
    ([FloatOps]) and the theorems hold for every implementation of it that
    satisfies a few facts about zero.  Where the code computes with LSTs
    and bin edges ([adjust_lst_bin_edges], [get_lst_bins],
    [simple_lst_bin]), these are arrays of finite doubles: a double is held
    as the rational number it is, comparisons are exact, and every sum,
    difference and quotient is rounded ([Rounding]); [Binary64] is the
    rounding of the doubles.  A [while] loop is followed for a given number
    of rounds, and a call that is still in its loop then has no result
    ([None]). *)

From Stdlib Require Import List Bool Arith Lia ZArith QArith Qround Qabs Lqa.
From Stdlib Require Import String Ascii DecimalString DecimalNat.
From Stdlib Require Import Permutation FinFun Sorted.
Import ListNotations.

Set Implicit Arguments.

(** ** Exceptions and results *)

Inductive exn : Type :=
| AssertionError
| ValueError (msg : string)
| IndexError.

Inductive result (A : Type) : Type :=
| Ok (a : A)
| Raise (e : exn).

Arguments Ok {A} a.
Arguments Raise {A} e.

Definition is_value_error {A : Type} (r : result A) : bool :=
  match r with
  | Raise (ValueError _) => true
  | _ => false
  end.

Definition returns {A : Type} (r : result A) : bool :=
  match r with
  | Ok _ => true
  | Raise _ => false
  end.

(** [x < y] on rationals, as a boolean. *)
Definition Qlt_bool (x y : Q) : bool := negb (Qle_bool y x).

(** ** [lst_average] *)

Module LstAverage.

(** The float and complex-float operations [lst_average] uses.  [R] is the
    type of [float] cells, [C] the type of [complex] cells. *)
Class FloatOps (R C : Type) : Type := {
  r_zero : R;                         (* 0.0 *)
  c_one : C;                          (* 1.0 + 0j *)
  r_eq0 : R -> bool;                  (* x == 0 *)
  r_gt0 : R -> bool;                  (* x > 0 *)
  r_le0 : R -> bool;                  (* x <= 0 *)
  c_isnan : C -> bool;                (* np.isnan *)
  c_isinf : C -> bool;                (* np.isinf *)
  c_mul_nan : C -> C;                 (* x * np.nan *)
  c_mul_r : C -> R -> C;              (* complex * float *)
  c_div_r : C -> R -> C;              (* complex / float *)
  c_real : C -> R;                    (* x.real *)
  c_imag : C -> R;                    (* x.imag *)
  c_of_parts : R -> R -> C;           (* a + 1j*b *)
  r_add : R -> R -> R;                (* float + float *)
  c_nansum : list C -> C;             (* np.nansum over axis 0 *)
  r_nanstd : list R -> R;             (* np.nanstd over axis 0 *)
  frac_gt : nat -> nat -> R -> bool   (* count / n > thresh *)
}.

(** [np.sum] over axis 0 adds the rows up one after the other. *)
Definition r_sum {R C : Type} {F : FloatOps R C} (l : list R) : R :=
  fold_left r_add l r_zero.

(** What the theorems need of the arithmetic: zero plus zero is zero, zero
    is not positive, zero is at most zero, and one is not NaN. *)
Class FloatLaws (R C : Type) (F : FloatOps R C) : Prop := {
  r_add_zero : r_add r_zero r_zero = r_zero;
  r_gt0_zero : r_gt0 r_zero = false;
  r_le0_zero : r_le0 r_zero = true;
  c_one_not_nan : c_isnan c_one = false
}.

(** An array of shape [(ntimes, nbl, nfreq, npol)].  Every step of
    [lst_average] treats the three trailing axes alike, so they are
    flattened into one position index: [item a t j] is the cell of night
    [t] at position [j]. *)
Record ndarray (X : Type) : Type := {
  ntimes : nat;
  npos : nat;
  item : nat -> nat -> X
}.

Definition shape {X : Type} (a : ndarray X) : nat * nat :=
  (ntimes a, npos a).

Definition shape_eqb (s1 s2 : nat * nat) : bool :=
  (fst s1 =? fst s2) && (snd s1 =? snd s2).

(** The cells of position [j] along axis 0. *)
Definition column {X : Type} (n : nat) (f : nat -> nat -> X) (j : nat) : list X :=
  map (fun t => f t j) (seq 0 n).

Section Average.

Context {R C : Type} {F : FloatOps R C}.

(** [sigma_clip] is imported from [hera_cal.lstbin]; it returns a boolean
    array of the shape of its first argument. *)
Variable sigma_clip : ndarray C -> R -> nat -> ndarray bool.

Section Body.

Variables (data : ndarray C) (nsamples : ndarray R) (flags : ndarray bool).
Variables (flag_thresh sigma_clip_thresh : R) (sigma_clip_min_N : nat).

Let n := ntimes data.

(** [flags[np.isnan(data) | np.isinf(data) | (nsamples == 0)] = True] *)
Definition flags1 (t j : nat) : bool :=
  if c_isnan (item data t j) || c_isinf (item data t j) || r_eq0 (item nsamples t j)
  then true else item flags t j.

(** [flag_frac = np.sum(flags, axis=0) / flags.shape[0]] compared with
    [flag_thresh] *)
Definition flag_frac_exceeds (j : nat) : bool :=
  frac_gt (count_occ bool_dec (column n flags1 j) true) n flag_thresh.

(** [flags |= flag_frac > flag_thresh] *)
Definition flags2 (t j : nat) : bool :=
  flags1 t j || flag_frac_exceeds j.

(** [data[flags] *= np.nan] *)
Definition data1 (t j : nat) : C :=
  if flags2 t j then c_mul_nan (item data t j) else item data t j.

(** [if sigma_clip_thresh > 0: flags |= sigma_clip(data, ...)] *)
Definition flags3 (t j : nat) : bool :=
  if r_gt0 sigma_clip_thresh
  then flags2 t j ||
       item (sigma_clip (Build_ndarray n (npos data) data1)
                        sigma_clip_thresh sigma_clip_min_N) t j
  else flags2 t j.

(** ... [data[flags] *= np.nan] inside the same branch *)
Definition data2 (t j : nat) : C :=
  if r_gt0 sigma_clip_thresh
  then (if flags3 t j then c_mul_nan (data1 t j) else data1 t j)
  else data1 t j.

(** [std = np.nanstd(data.real, axis=0) + 1j*np.nanstd(data.imag, axis=0)] *)
Definition std0 (j : nat) : C :=
  c_of_parts (r_nanstd (map c_real (column n data2 j)))
             (r_nanstd (map c_imag (column n data2 j))).

(** [nsamples[flags] = 0] *)
Definition nsamples1 (t j : nat) : R :=
  if flags3 t j then r_zero else item nsamples t j.

(** [norm = np.sum(nsamples, axis=0)] *)
Definition norm0 (j : nat) : R :=
  r_sum (column n nsamples1 j).

(** [data = np.nansum(data * nsamples, axis=0)] *)
Definition wsum (j : nat) : C :=
  c_nansum (column n (fun t j => c_mul_r (data2 t j) (nsamples1 t j)) j).

(** [data[norm>0] /= norm[norm>0]] *)
Definition mean0 (j : nat) : C :=
  if r_gt0 (norm0 j) then c_div_r (wsum j) (norm0 j) else wsum j.

(** [data[norm<=0] = 1] *)
Definition mean1 (j : nat) : C :=
  if r_le0 (norm0 j) then c_one else mean0 j.

(** [f_min = np.all(flags, axis=0)] *)
Definition f_min (j : nat) : bool :=
  forallb (fun b => b) (column n flags3 j).

(** [std[f_min] = 1.0] *)
Definition std1 (j : nat) : C :=
  if f_min j then c_one else std0 j.

(** [norm[f_min] = 0] *)
Definition norm1 (j : nat) : R :=
  if f_min j then r_zero else norm0 j.

(** The four returned arrays, each of shape [(nbl, nfreq, npol)], as the
    lists of their cells: [(data, f_min, std, norm)].  The arguments
    [median] and [mutable] do not influence the returned values ([median]
    is never read, [mutable] only decides whether the caller's arrays are
    copied first) and are left out. *)
Definition lst_average : result (list C * list bool * list C * list R) :=
  if shape_eqb (shape data) (shape nsamples) && shape_eqb (shape nsamples) (shape flags)
  then Ok (map mean1 (seq 0 (npos data)),
           map f_min (seq 0 (npos data)),
           map std1 (seq 0 (npos data)),
           map norm1 (seq 0 (npos data)))
  else Raise AssertionError.

End Body.

End Average.

End LstAverage.

(** ** A reference arithmetic for [FloatOps]

    Exact rationals extended with NaN ([None]): arithmetic is exact on
    finite values and NaN is absorbing.  It is used to run [lst_average] on
    concrete arrays; rounding and infinities are not represented. *)

Module RefFloat.

Definition rfloat : Type := option Q.
Definition cfloat : Type := (rfloat * rfloat)%type.

Definition lift2 (f : Q -> Q -> Q) (x y : rfloat) : rfloat :=
  match x, y with
  | Some a, Some b => Some (Qred (f a b))
  | _, _ => None
  end.

Definition radd : rfloat -> rfloat -> rfloat := lift2 Qplus.
Definition rsub : rfloat -> rfloat -> rfloat := lift2 Qminus.
Definition rmul : rfloat -> rfloat -> rfloat := lift2 Qmult.

Definition rdiv (x y : rfloat) : rfloat :=
  match x, y with
  | Some a, Some b => if Qeq_bool b 0 then None else Some (Qred (a / b))
  | _, _ => None
  end.

Definition risnan (x : rfloat) : bool :=
  match x with Some _ => false | None => true end.

Definition cisnan (z : cfloat) : bool := risnan (fst z) || risnan (snd z).

Definition rtest (p : Q -> bool) (x : rfloat) : bool :=
  match x with Some a => p a | None => false end.

Definition cadd (z w : cfloat) : cfloat := (radd (fst z) (fst w), radd (snd z) (snd w)).

(** [np.nansum]: NaN cells count as zero. *)
Definition cnansum (l : list cfloat) : cfloat :=
  fold_left cadd (filter (fun z => negb (cisnan z)) l) (Some 0, Some 0).

(** Square root rounded down to a multiple of [1e-6]. *)
Definition qsqrt (q : Q) : Q :=
  Qred (Z.sqrt (Qfloor (q * 1000000000000)) # 1000000).

(** [np.nanstd]: population standard deviation of the cells that are not
    NaN; NaN when there is none. *)
Definition rnanstd (l : list rfloat) : rfloat :=
  let xs := flat_map (fun x => match x with Some a => [a] | None => [] end) l in
  match xs with
  | [] => None
  | _ :: _ =>
      let k := Z.of_nat (List.length xs) # 1 in
      let mean := fold_left Qplus xs 0 / k in
      let var := fold_left Qplus (map (fun a => (a - mean) * (a - mean)) xs) 0 / k in
      Some (qsqrt var)
  end.

#[export] Instance ref_ops : LstAverage.FloatOps rfloat cfloat := {|
  LstAverage.r_zero := Some 0;
  LstAverage.c_one := (Some 1, Some 0);
  LstAverage.r_eq0 := rtest (fun a => Qeq_bool a 0);
  LstAverage.r_gt0 := rtest (fun a => Qlt_bool 0 a);
  LstAverage.r_le0 := rtest (fun a => Qle_bool a 0);
  LstAverage.c_isnan := cisnan;
  LstAverage.c_isinf := fun _ => false;
  LstAverage.c_mul_nan := fun _ => (None, None);
  LstAverage.c_mul_r := fun z r =>
    (rsub (rmul (fst z) r) (rmul (snd z) (Some 0)),
     radd (rmul (fst z) (Some 0)) (rmul (snd z) r));
  LstAverage.c_div_r := fun z r => (rdiv (fst z) r, rdiv (snd z) r);
  LstAverage.c_real := fst;
  LstAverage.c_imag := snd;
  LstAverage.c_of_parts := fun a b => (a, b);
  LstAverage.r_add := radd;
  LstAverage.c_nansum := cnansum;
  LstAverage.r_nanstd := rnanstd;
  LstAverage.frac_gt := fun count n thresh =>
    match n with
    | O => false
    | S _ => rtest (fun q => Qlt_bool q (Z.of_nat count # Pos.of_nat n)) thresh
    end
|}.

(** Three nights, two positions.  Position 0 is flagged on every night;
    position 1 has samples 1, 2 and 1 of the values 2, 4 and 6. *)
Definition ex_data : LstAverage.ndarray cfloat :=
  LstAverage.Build_ndarray 3 2
    (fun t j => match j, t with
                | 1%nat, 0%nat => (Some 2, Some 0)
                | 1%nat, 1%nat => (Some 4, Some 0)
                | 1%nat, _ => (Some 6, Some 0)
                | _, _ => (Some 5, Some 5)
                end).

Definition ex_nsamples : LstAverage.ndarray rfloat :=
  LstAverage.Build_ndarray 3 2
    (fun t j => match j, t with
                | 1%nat, 1%nat => Some 2
                | _, _ => Some 1
                end).

Definition ex_flags : LstAverage.ndarray bool :=
  LstAverage.Build_ndarray 3 2 (fun t j => match j with O => true | _ => false end).

(** A [sigma_clip] that clips nothing. *)
Definition no_clip (d : LstAverage.ndarray cfloat) (sigma : rfloat) (min_N : nat)
  : LstAverage.ndarray bool :=
  LstAverage.Build_ndarray (LstAverage.ntimes d) (LstAverage.npos d) (fun _ _ => false).

End RefFloat.

(** ** [simple_lst_bin] and its helpers *)

Module SimpleLstBin.

(** [2*np.pi] as the double it evaluates to, 0x401921FB54442D18. *)
Definition two_pi : Q := 884279719003555 # 140737488355328.

(** LSTs and bin edges are doubles.  A finite double is a rational number,
    so they are held as rationals and compared exactly, as doubles are;
    what an addition, a subtraction or a division of doubles returns is the
    exact value rounded to a double, by [rnd].  Infinities and NaN are not
    represented. *)
Class Rounding : Type := { rnd : Q -> Q }.

(** Up to [2^52] in magnitude the doubles are at most one apart. *)
Definition max_exact : Q := 4503599627370496.

(** What the theorems need of the rounding: a value that is not negative
    is not rounded to a negative one, and up to [max_exact] rounding moves
    a value by a half at most. *)
Class RoundingLaws (A : Rounding) : Prop := {
  rnd_nonneg : forall x, 0 <= x -> 0 <= rnd x;
  rnd_near : forall x, - max_exact <= x -> x <= max_exact ->
                       x - (1 # 2) <= rnd x /\ rnd x <= x + (1 # 2)
}.

(** A numpy array: its shape tuple and its cells in row-major order. *)
Record ndarray (X : Type) : Type := {
  shape : list nat;
  cells : list X
}.

Definition size (shp : list nat) : nat := fold_right Nat.mul 1%nat shp.

Definition shape_eqb (s1 s2 : list nat) : bool :=
  if list_eq_dec Nat.eq_dec s1 s2 then true else false.

(** [np.zeros(shape)], [np.ones(shape)]: every cell is [x]. *)
Definition full {X : Type} (shp : list nat) (x : X) : ndarray X :=
  {| shape := shp; cells := repeat x (size shp) |}.

(** [a.shape[-1]] *)
Definition last_axis {X : Type} (a : ndarray X) : result nat :=
  match rev (shape a) with
  | [] => Raise IndexError
  | k :: _ => Ok k
  end.

(** [a[mask]] for a boolean [mask] over axis 0: the rows whose mask is true,
    in order. *)
Fixpoint select_cells {X : Type} (stride : nat) (mask : list bool) (buf : list X)
  : list X :=
  match mask with
  | [] => []
  | b :: mask' =>
      (if b then firstn stride buf else []) ++
      select_cells stride mask' (skipn stride buf)
  end.

Definition select_rows {X : Type} (mask : list bool) (a : ndarray X) : ndarray X :=
  {| shape := count_occ bool_dec mask true :: tl (shape a);
     cells := select_cells (size (tl (shape a))) mask (cells a) |}.

(** The same for a one-dimensional array held as a list. *)
Fixpoint select {X : Type} (mask : list bool) (l : list X) : list X :=
  match mask, l with
  | b :: mask', x :: l' => if b then x :: select mask' l' else select mask' l'
  | _, _ => []
  end.

(** *** [adjust_lst_bin_edges] *)

Section Adjust.

Context {A : Rounding}.

(** [while lst_bin_edges[0] < 0: lst_bin_edges += 2*np.pi], with [fuel]
    rounds at most; [None] when the loop is still running then. *)
Fixpoint shift_up (fuel : nat) (edges : list Q) : option (list Q) :=
  if Qlt_bool (hd 0 edges) 0
  then match fuel with
       | O => None
       | S fuel' => shift_up fuel' (map (fun e => rnd (e + two_pi)) edges)
       end
  else Some edges.

(** [while lst_bin_edges[0] >= 2*np.pi: lst_bin_edges -= 2*np.pi], with
    [fuel] rounds at most. *)
Fixpoint shift_down (fuel : nat) (edges : list Q) : option (list Q) :=
  if Qle_bool two_pi (hd 0 edges)
  then match fuel with
       | O => None
       | S fuel' => shift_down fuel' (map (fun e => rnd (e - two_pi)) edges)
       end
  else Some edges.

(** The array after the in-place adjustment, when both loops come to an
    end within [fuel] rounds each; reading [lst_bin_edges[0]] of an empty
    array raises. *)
Definition adjust_lst_bin_edges (fuel : nat) (edges : list Q)
  : option (result (list Q)) :=
  match edges with
  | [] => Some (Raise IndexError)
  | _ :: _ =>
      match shift_up fuel edges with
      | None => None
      | Some up =>
          match shift_down fuel up with
          | None => None
          | Some down => Some (Ok down)
          end
      end
  end.

End Adjust.

(** *** [get_lst_bins] *)

(** C's [fmod(x, y)] for [y > 0]: what is left of [x] after the whole
    multiples of [y], counted towards zero, are taken away.  It is exact. *)
Definition fmod (x y : Q) : Q :=
  let q := x / y in
  x - inject_Z (if Qlt_bool q 0 then Qceiling q else Qfloor q) * y.

(** [np.digitize(x, edges, right=True)] for increasing [edges]: the number
    of edges strictly below [x]. *)
Definition digitize_right (x : Q) (edges : list Q) : nat :=
  List.length (filter (fun e => Qlt_bool e x) edges).

(** The same for decreasing [edges]: the number of edges that are not
    below [x]. *)
Definition digitize_right_decreasing (x : Q) (edges : list Q) : nat :=
  List.length (filter (fun e => Qle_bool x e) edges).

Fixpoint non_decreasing (edges : list Q) : bool :=
  match edges with
  | a :: (b :: _) as rest => Qle_bool a b && non_decreasing rest
  | _ => true
  end.

Fixpoint non_increasing (edges : list Q) : bool :=
  match edges with
  | a :: (b :: _) as rest => Qle_bool b a && non_increasing rest
  | _ => true
  end.

(** [np.digitize(xs, edges, right=True)]: numpy first looks which way the
    edges run, and refuses edges that run neither way. *)
Definition digitize (xs edges : list Q) : result (list nat) :=
  if non_decreasing edges
  then Ok (map (fun x => digitize_right x edges) xs)
  else if non_increasing edges
  then Ok (map (fun x => digitize_right_decreasing x edges) xs)
  else Raise (ValueError "bins must be monotonically increasing or decreasing").

Section Bins.

Context {A : Rounding}.

(** numpy's [x % y] for [y > 0]: [fmod], and [y] added to a remainder that
    is negative. *)
Definition np_mod (x y : Q) : Q :=
  let m := fmod x y in
  if Qlt_bool m 0 then rnd (m + y) else m.

(** [lsts %= 2*np.pi; lsts[lsts < edges[0]] += 2*np.pi] *)
Definition wrap (e0 x : Q) : Q :=
  let m := np_mod x two_pi in
  if Qlt_bool m e0 then rnd (m + two_pi) else m.

Definition get_lst_bins (lsts edges : list Q) : result (list Z * list Q * list bool) :=
  match edges with
  | [] => Raise IndexError
  | e0 :: _ =>
      let lsts2 := map (wrap e0) lsts in
      match digitize lsts2 edges with
      | Raise e => Raise e
      | Ok places =>
          let bins := map (fun c => (Z.of_nat c - 1)%Z) places in
          let mask :=
            map (fun b => (0 <=? b)%Z && (b <? Z.of_nat (List.length edges) - 1)%Z)
                bins in
          Ok (bins, lsts2, mask)
      end
  end.

(** [(edges[1:] + edges[:-1]) / 2] *)
Fixpoint bin_centres (edges : list Q) : list Q :=
  match edges with
  | a :: (b :: _) as rest => rnd (rnd (b + a) / 2) :: bin_centres rest
  | _ => []
  end.

End Bins.

(** [np.all(np.diff(edges) > 0)].  The difference of two doubles is
    rounded to a positive double exactly when it is positive (it is never
    rounded to zero), so the exact difference is compared. *)
Fixpoint diff_all_positive (edges : list Q) : bool :=
  match edges with
  | a :: (b :: _) as rest => Qlt_bool 0 (b - a) && diff_all_positive rest
  | _ => true
  end.

(** *** The function itself *)

(** What the caller can observe besides the returned value: the
    [lst_bin_edges] array, which is adjusted in place, and which of the two
    working stages have been entered. *)
Inductive stage : Type := Binning | Rephasing.

Record world : Type := {
  lst_bin_edges : list Q;
  entered : list stage
}.

(** A computation on the world returns, raises, or ([None]) is still in a
    loop when the fuel is spent. *)
Definition M (A : Type) : Type := world -> option (world * result A).

Definition ret {A : Type} (a : A) : M A := fun w => Some (w, Ok a).

Definition bind {A B : Type} (m : M A) (k : A -> M B) : M B :=
  fun w => match m w with
           | Some (w', Ok a) => k a w'
           | Some (w', Raise e) => Some (w', Raise e)
           | None => None
           end.

Definition raise {A : Type} (e : exn) : M A := fun w => Some (w, Raise e).

Definition lift {A : Type} (r : result A) : M A := fun w => Some (w, r).

(** A call that may not come back. *)
Definition run {A : Type} (r : option (result A)) : M A :=
  fun w => match r with
           | Some r' => Some (w, r')
           | None => None
           end.

Definition read_edges : M (list Q) := fun w => Some (w, Ok (lst_bin_edges w)).

Definition write_edges (edges : list Q) : M unit :=
  fun w => Some ({| lst_bin_edges := edges; entered := entered w |}, Ok tt).

Definition enter (s : stage) : M unit :=
  fun w => Some ({| lst_bin_edges := lst_bin_edges w; entered := entered w ++ [s] |},
                 Ok tt).

(** [if c: raise e] *)
Definition raise_if (c : bool) (e : exn) : M unit :=
  if c then raise e else ret tt.

Notation "x <- m ;; k" := (bind m (fun x => k))
  (at level 61, m at next level, right associativity).
Notation "m ;;; k" := (bind m (fun _ => k))
  (at level 61, right associativity).

Definition vec3 : Type := (Q * Q * Q)%type.

Definition vsub (u v : vec3) : vec3 :=
  match u, v with
  | (ux, uy, uz), (vx, vy, vz) => (ux - vx, uy - vy, uz - vz)
  end.

(** [[antpos[k[0]] - antpos[k[1]] for k in baselines]] *)
Fixpoint baseline_vectors (antpos : list vec3) (baselines : list (nat * nat))
  : result (list vec3) :=
  match baselines with
  | [] => Ok []
  | (i, j) :: rest =>
      match nth_error antpos i, nth_error antpos j with
      | Some pi, Some pj =>
          match baseline_vectors antpos rest with
          | Ok vs => Ok (vsub pi pj :: vs)
          | Raise e => Raise e
          end
      | _, _ => Raise IndexError
      end
  end.

Section Bin.

Context {A : Rounding}.

(** [C] is the type of visibility cells, [N] of sample-count cells, [one]
    the sample count [1.0]. *)
Variables (C N : Type) (one : N).

(** [utils.lst_rephase_vectorized(data, bls, freqs, lst_shift, lat)], which
    lives in [hera_cal/utils.py]; it returns the rephased data. *)
Variable lst_rephase_vectorized :
  ndarray C -> list vec3 -> list Q -> list Q -> Q -> ndarray C.

Definition binned : Type :=
  (list Q * list (ndarray C) * list (ndarray bool) * list (ndarray N))%type.

(** The loop over the LST bins at the end of [simple_lst_bin]. *)
Definition split_bins (nbins : nat) (empty_shape : list nat) (grid_indices : list Z)
  (data : ndarray C) (flags : ndarray bool) (nsamples : ndarray N)
  : list (ndarray C) * list (ndarray bool) * list (ndarray N) :=
  let pick (X : Type) (a : ndarray X) (lstbin : nat) : ndarray X :=
    let mask := map (fun g => (g =? Z.of_nat lstbin)%Z) grid_indices in
    if existsb (fun b => b) mask
    then select_rows mask a
    else {| shape := empty_shape; cells := [] |} in
  (map (pick C data) (seq 0 nbins),
   map (pick bool flags) (seq 0 nbins),
   map (pick N nsamples) (seq 0 nbins)).

(** The messages are the fixed text of the source's; the interpolated
    shapes are left out.  [fuel] is the number of rounds each loop of
    [adjust_lst_bin_edges] is followed for. *)
Definition simple_lst_bin (fuel : nat)
  (data : ndarray C) (data_lsts : list Q) (baselines : list (nat * nat))
  (freq_array : list Q)
  (flags : option (ndarray bool)) (nsamples : option (ndarray N))
  (rephase : bool) (antpos : option (list vec3)) (lat : Q) : M binned :=
  npols <- lift (last_axis data) ;;
  let required_shape :=
    [List.length data_lsts; List.length baselines; List.length freq_array; npols] in
  raise_if (4 <? npols) (ValueError "data has more than 4 pols!") ;;;
  raise_if (negb (shape_eqb (shape data) required_shape))
           (ValueError "data should have shape") ;;;
  let flags := match flags with
               | None => full (shape data) false
               | Some f => f
               end in
  raise_if (negb (shape_eqb (shape flags) (shape data)))
           (ValueError "flags should have shape") ;;;
  let nsamples := match nsamples with
                  | None => full (shape data) one
                  | Some n => n
                  end in
  raise_if (negb (shape_eqb (shape nsamples) (shape data)))
           (ValueError "nsamples should have shape") ;;;
  edges <- read_edges ;;
  raise_if (List.length edges <? 2)
           (ValueError "lst_bin_edges must have at least 2 elements") ;;;
  adjusted <- run (adjust_lst_bin_edges fuel edges) ;;
  write_edges adjusted ;;;
  raise_if (negb (diff_all_positive adjusted))
           (ValueError "lst_bin_edges must be monotonically increasing.") ;;;
  enter Binning ;;;
  found <- lift (get_lst_bins data_lsts adjusted) ;;
  let '(grid_indices, lsts, lst_mask) := found in
  let lst_bin_centres := bin_centres adjusted in
  let data := select_rows lst_mask data in
  let flags := select_rows lst_mask flags in
  let nsamples := select_rows lst_mask nsamples in
  let lsts := select lst_mask lsts in
  let grid_indices := select lst_mask grid_indices in
  data <- (if rephase
           then
             enter Rephasing ;;;
             match antpos with
             | None => raise (ValueError "freq_array and antpos is needed for rephase")
             | Some pos =>
                 bls <- lift (baseline_vectors pos baselines) ;;
                 let lst_shift :=
                   map (fun gl => rnd (nth (Z.to_nat (fst gl)) lst_bin_centres 0 - snd gl))
                       (combine grid_indices lsts) in
                 ret (lst_rephase_vectorized data bls freq_array lst_shift lat)
             end
           else ret data) ;;
  let empty_shape := [0%nat; List.length baselines; List.length freq_array; npols] in
  let '(d, f, n) := split_bins (List.length lst_bin_centres) empty_shape
                               grid_indices data flags nsamples in
  ret (lst_bin_centres, d, f, n).

End Bin.

End SimpleLstBin.

(** ** The rounding of binary64

    Round to nearest, ties to even, with the subnormal numbers; values
    beyond the largest double do not occur in what follows and are not
    turned into infinities. *)

Module Binary64.

Import SimpleLstBin.

(** [2^e] *)
Definition pow2 (e : Z) : Q :=
  match e with
  | Z0 => 1
  | Zpos p => Zpos (2 ^ p) # 1
  | Zneg p => 1 # (2 ^ p)
  end.

(** The integer nearest to [n / d], the even one of two that are equally
    near; [n] is not negative. *)
Definition nearest_even (n : Z) (d : positive) : Z :=
  let q := (n / Zpos d)%Z in
  let r := (n mod Zpos d)%Z in
  match (2 * r ?= Zpos d)%Z with
  | Lt => q
  | Gt => (q + 1)%Z
  | Eq => if Z.even q then q else (q + 1)%Z
  end.

(** The exponent [l] with [2^l <= n / d < 2^(l+1)]. *)
Definition floor_log2 (n d : positive) : Z :=
  let l := (Z.log2 (Zpos n) - Z.log2 (Zpos d))%Z in
  if Qle_bool (pow2 l) (Zpos n # d) then l else (l - 1)%Z.

(** A positive value rounded to 53 significant bits, or to a multiple of
    [2^-1074] where that is coarser. *)
Definition round_pos (n d : positive) : Q :=
  let e := Z.max (floor_log2 n d - 52) (-1074) in
  let s := (Zpos n # d) / pow2 e in
  Qred (inject_Z (nearest_even (Qnum s) (Qden s)) * pow2 e).

Definition round64 (q : Q) : Q :=
  match Qnum q with
  | Z0 => 0
  | Zpos n => round_pos n (Qden q)
  | Zneg n => - round_pos n (Qden q)
  end.

Definition binary64 : Rounding := {| rnd := round64 |}.

End Binary64.


(** ** Redundant calibration: grouping and equations

    [hera_cal/redcal.py] is exercised by [tests/test_redcal.py]; the
    definitions of this module are written from sections 3, 4.1 and 4.2 of
    the specification and agree with the test suite on the examples it
    fixes. *)

Module Redcal.

Definition vec3 : Type := (Q * Q * Q)%type.
Definition antpair : Type := (nat * nat)%type.

Definition vsub (u v : vec3) : vec3 :=
  match u, v with
  | (ux, uy, uz), (vx, vy, vz) => (ux - vx, uy - vy, uz - vz)
  end.

Definition vneg (u : vec3) : vec3 :=
  match u with (ux, uy, uz) => (- ux, - uy, - uz) end.

Definition norm2 (u : vec3) : Q :=
  match u with (ux, uy, uz) => ux * ux + uy * uy + uz * uz end.

(** Modelled from the spec: the tie-break of the orientation fold of
    [get_pos_reds] (section 4.1): the first nonzero coordinate is positive;
    the zero vector counts as canonical. *)
Definition canonical (u : vec3) : bool :=
  match u with
  | (ux, uy, uz) =>
      if Qeq_bool ux 0
      then if Qeq_bool uy 0 then Qle_bool 0 uz else Qlt_bool 0 uy
      else Qlt_bool 0 ux
  end.

(** Modelled from the spec: the orientation step of [get_pos_reds] (section
    4.1: a baseline and its negation are folded into one direction by a
    fixed tie-break; section 3: the separation vector of (i, j) is
    antpos[j] - antpos[i]). *)
Definition orient (a b : nat * vec3) : antpair * vec3 :=
  let d := vsub (snd b) (snd a) in
  if canonical d then ((fst a, fst b), d) else ((fst b, fst a), vneg d).

(** The oriented pair of antenna numbers of two entries of the mapping. *)
Definition oriented (ab : (nat * vec3) * (nat * vec3)) : antpair :=
  fst (orient (fst ab) (snd ab)).

Definition antpair_dec (p q : nat * nat) : {p = q} + {p <> q}.
Proof. decide equality; apply Nat.eq_dec. Defined.

Arguments antpair_dec : simpl never.

(** Every antenna with every later antenna of the mapping. *)
Fixpoint later_pairs {X : Type} (l : list X) : list (X * X) :=
  match l with
  | [] => []
  | a :: rest => map (fun b => (a, b)) rest ++ later_pairs rest
  end.

(** Modelled from the spec: the redundancy test of [get_pos_reds] (section
    4.1): two separation vectors match when the length of their difference
    is below the tolerance. *)
Definition within (tol : Q) (u v : vec3) : bool :=
  Qlt_bool (norm2 (vsub u v)) (tol * tol).

(** Modelled from the spec: the grouping step of [get_pos_reds]: a pair
    joins the first group whose separation vector it matches within the
    tolerance, and opens a new group otherwise. *)
Fixpoint place (tol : Q) (p : antpair) (d : vec3) (groups : list (vec3 * list antpair))
  : list (vec3 * list antpair) :=
  match groups with
  | [] => [(d, [p])]
  | (r, members) :: rest =>
      if within tol d r
      then (r, members ++ [p]) :: rest
      else (r, members) :: place tol p d rest
  end.

(** Modelled from the spec: the order of the groups returned by
    [get_pos_reds] (section 4.1): shorter baselines first, ties broken by the
    coordinates of the separation vector. *)
Definition group_leb (g h : vec3 * list antpair) : bool :=
  match fst g, fst h with
  | (gx, gy, gz), (hx, hy, hz) =>
      if Qeq_bool (norm2 (fst g)) (norm2 (fst h))
      then if Qeq_bool gx hx
           then if Qeq_bool gy hy then Qle_bool gz hz else Qle_bool gy hy
           else Qle_bool gx hx
      else Qle_bool (norm2 (fst g)) (norm2 (fst h))
  end.

Fixpoint insert_sorted {X : Type} (leb : X -> X -> bool) (x : X) (l : list X) : list X :=
  match l with
  | [] => [x]
  | y :: rest => if leb x y then x :: y :: rest else y :: insert_sorted leb x rest
  end.

Definition sort_by {X : Type} (leb : X -> X -> bool) (l : list X) : list X :=
  fold_right (insert_sorted leb) [] l.

(** Modelled from the spec: [get_pos_reds(antpos, bl_error_tol)] of
    [redcal.py] (section 4.1).  The mapping of antenna positions is a list
    of (antenna, position) in insertion order.  With [include_autos] the
    zero-length pairs (i, i) form a group of their own, which comes first. *)
Definition get_pos_reds (antpos : list (nat * vec3)) (bl_error_tol : Q)
  (include_autos : bool) : list (list antpair) :=
  let groups :=
    fold_left (fun gs ab => let '(p, d) := orient (fst ab) (snd ab) in
                            place bl_error_tol p d gs)
              (later_pairs antpos) [] in
  let autos := map (fun a => (fst a, fst a)) antpos in
  (if include_autos then match autos with [] => [] | _ :: _ => [autos] end else [])
  ++ map snd (sort_by group_leb groups).

(** *** Polarizations *)

Inductive feed : Type := X | Y.

Definition pol : Type := (feed * feed)%type.

Definition feed_eqb (f g : feed) : bool :=
  match f, g with
  | X, X | Y, Y => true
  | _, _ => false
  end.

Definition baseline : Type := (nat * nat * pol)%type.

(** Modelled from the spec: [split_pol] of [hera_cal/utils.py], as the
    tests use it: ['x'] and ['y'] in a polarization string, ['Jxx'] and
    ['Jyy'] as the feed tag of a gain. *)
Definition feed_char (f : feed) : string :=
  match f with X => "x"%string | Y => "y"%string end.

Definition pol_string (p : pol) : string :=
  (feed_char (fst p) ++ feed_char (snd p))%string.

Definition jones_string (f : feed) : string :=
  match f with X => "Jxx"%string | Y => "Jyy"%string end.

(** Modelled from the spec: [conj_pol] of [hera_cal/utils.py]: the
    polarization of the conjugate baseline. *)
Definition conj_pol (p : pol) : pol := (snd p, fst p).

(** Modelled from the spec: antenna exclusion in [add_pol_reds] (section
    4.1): a baseline is dropped for a polarization when one of its two
    (antenna, feed) tags is excluded. *)
Definition excluded (ex_ants : list (nat * feed)) (bl : antpair) (p : pol) : bool :=
  existsb (fun e => (fst e =? fst bl)%nat && feed_eqb (snd e) (fst p)) ex_ants ||
  existsb (fun e => (fst e =? snd bl)%nat && feed_eqb (snd e) (snd p)) ex_ants.

(** The baselines of a position group that survive the exclusion, with
    their polarization. *)
Definition tag (ex_ants : list (nat * feed)) (p : pol) (bls : list antpair)
  : list baseline :=
  map (fun bl => (fst bl, snd bl, p))
      (filter (fun bl => negb (excluded ex_ants bl p)) bls).

(** Modelled from the spec: [add_pol_reds(reds, pols, pol_mode, ex_ants)]
    of [redcal.py] (section 4.1).  Every polarization expands every
    position group into one group; in mode [4pol_minV] the first cross-feed
    polarization expands it into the merged group of both orderings and the
    second one adds nothing.  A group emptied by [ex_ants] stays in the
    list. *)
Fixpoint add_pol_reds_from (did_cross : bool) (reds : list (list antpair))
  (pols : list pol) (minV : bool) (ex_ants : list (nat * feed))
  : list (list baseline) :=
  match pols with
  | [] => []
  | p :: rest =>
      if negb minV || feed_eqb (fst p) (snd p)
      then map (tag ex_ants p) reds
           ++ add_pol_reds_from did_cross reds rest minV ex_ants
      else if did_cross
      then add_pol_reds_from did_cross reds rest minV ex_ants
      else map (fun bls => tag ex_ants p bls ++ tag ex_ants (conj_pol p) bls) reds
           ++ add_pol_reds_from true reds rest minV ex_ants
  end.

Definition add_pol_reds (reds : list (list antpair)) (pols : list pol)
  (pol_mode : string) (ex_ants : list (nat * feed)) : list (list baseline) :=
  add_pol_reds_from false reds pols (String.eqb pol_mode "4pol_minV") ex_ants.

(** *** Equation keys *)

(** [%d] of a non-negative integer. *)
Definition dec (n : nat) : string := NilEmpty.string_of_uint (Nat.to_uint n).

(** Modelled from the spec: the text of the unknowns in the keys of
    [build_eqs] (section 4.2 and [test_build_eq]).  The unique-baseline
    unknown of group [k], whose first baseline has polarization [p0]: *)
Definition ubl_name (k : nat) (p0 : pol) : string :=
  ("u_" ++ dec k ++ "_" ++ pol_string p0)%string.

(** ... and the gain factors of the equation of baseline (i, j, p). *)
Definition gain_factors (bl : baseline) : string :=
  match bl with
  | (i, j, p) =>
      ("g_" ++ dec i ++ "_" ++ jones_string (fst p) ++ " * g_" ++
       dec j ++ "_" ++ jones_string (snd p) ++ "_ * ")%string
  end.

Definition eq_key (k : nat) (p0 : pol) (bl : baseline) : string :=
  (gain_factors bl ++ ubl_name k p0)%string.

(** The text of a key from its first antenna number on, from its second
    antenna number on, and from the group index on. *)
Definition key_tail3 (k : nat) (p0 : pol) : string :=
  (dec k ++ String "_" (pol_string p0))%string.

Definition key_tail2 (j : nat) (g : feed) (k : nat) (p0 : pol) : string :=
  (dec j ++ String "_" (jones_string g ++ ("_ * u_" ++ key_tail3 k p0)))%string.

Definition key_tail1 (i : nat) (f : feed) (j : nat) (g : feed) (k : nat) (p0 : pol)
  : string :=
  (dec i ++ String "_" (jones_string f ++ (" * g_" ++ key_tail2 j g k p0)))%string.

(** Whether a text contains the separator of the key's fields. *)
Fixpoint has_underscore (s : string) : bool :=
  match s with
  | EmptyString => false
  | String c s' => Ascii.eqb c "_" || has_underscore s'
  end.

Definition baseline_eqb (b c : baseline) : bool :=
  match b, c with
  | (i, j, p), (i', j', p') =>
      (i =? i')%nat && (j =? j')%nat &&
      feed_eqb (fst p) (fst p') && feed_eqb (snd p) (snd p')
  end.

(** Modelled from the spec: the equations [build_eqs] emits for group [k]
    (section 4.2): one per baseline of the group that is in the data; the
    first baseline of the group names the unknown (section 3). *)
Definition group_eqs (bls_in_data : list baseline) (k : nat) (blgrp : list baseline)
  : list (string * baseline) :=
  match blgrp with
  | [] => []
  | (_, _, p0) :: _ =>
      map (fun bl => (eq_key k p0 bl, bl))
          (filter (fun bl => existsb (baseline_eqb bl) bls_in_data) blgrp)
  end.

Fixpoint build_eqs_from (k : nat) (bls_in_data : list baseline)
  (reds : list (list baseline)) : list (string * baseline) :=
  match reds with
  | [] => []
  | blgrp :: rest =>
      group_eqs bls_in_data k blgrp ++ build_eqs_from (S k) bls_in_data rest
  end.

(** Modelled from the spec: [RedundantCalibrator.build_eqs(bls_in_data)] of
    [redcal.py] (section 4.2): one equation per baseline of the data, keyed
    by the text of its model g_i * conj(g_j) * u_k, where k is the index of
    the baseline's group.  The dictionary is the list of its items in
    insertion order. *)
Definition build_eqs (reds : list (list baseline)) (bls_in_data : list baseline)
  : list (string * baseline) :=
  build_eqs_from 0 bls_in_data reds.

End Redcal.


(** ** Views on the results of the binning helpers *)

Module LstBinViews.

Import SimpleLstBin.

Section Views.

Context {A : Rounding}.

(** The three arrays [get_lst_bins] returns; empty when it raises. *)
Definition bins_of (lsts edges : list Q) : list Z :=
  match get_lst_bins lsts edges with
  | Ok (bins, _, _) => bins
  | Raise _ => []
  end.

Definition wrapped_of (lsts edges : list Q) : list Q :=
  match get_lst_bins lsts edges with
  | Ok (_, lsts', _) => lsts'
  | Raise _ => []
  end.

Definition mask_of (lsts edges : list Q) : list bool :=
  match get_lst_bins lsts edges with
  | Ok (_, _, mask) => mask
  | Raise _ => []
  end.

End Views.

(** Whether a bin index is one of the [nbins] bins. *)
Definition in_grid (nbins : Z) (b : Z) : bool := (0 <=? b)%Z && (b <? nbins)%Z.

(** The number of integrations whose bin index is [i]. *)
Definition rows_in_bin (bins : list Z) (i : nat) : nat :=
  count_occ bool_dec (map (fun b => (b =? Z.of_nat i)%Z) bins) true.

(** The cell count a shape asks for matches the cells held. *)
Definition well_formed {X : Type} (a : ndarray X) : Prop :=
  List.length (cells a) = size (shape a).

End LstBinViews.

(** ** The file-level driver of the LST binner

    The parts of [lst_bin_files_for_baselines], [apply_calfile_rules] and
    [lst_bin_files] that work on values in memory.  What they read from
    files comes in as an argument. *)

Module LstBinFiles.

Import SimpleLstBin.

(** A call returns or raises an exception of type [E]. *)
Inductive outcome (E A : Type) : Type :=
| Returned (a : A)
| Raised (e : E).

Arguments Returned {E A} a.
Arguments Raised {E A} e.

(** *** [lst_bin_files_for_baselines]: the times of each bin *)

(** The last lines of [lst_bin_files_for_baselines]:
    [bins = get_lst_bins(lsts, lst_bin_edges)[0]] and, for every bin [i],
    [times[bins == i]].  A boolean index of another length than [times]
    raises IndexError. *)
Definition times_in_bins {A : Rounding} {T : Type} (lsts edges : list Q)
  (times : list T) (nbins : nat) : result (list (list T)) :=
  match get_lst_bins lsts edges with
  | Raise e => Raise e
  | Ok (bins, _, _) =>
      match nbins with
      | O => Ok []
      | S _ =>
          if (List.length bins =? List.length times)%nat
          then Ok (map (fun i => select (map (fun b => (b =? Z.of_nat i)%Z) bins) times)
                       (seq 0 nbins))
          else Raise IndexError
      end
  end.

(** *** [lst_bin_files_for_baselines]: the frequency cut *)

Section Frequencies.

(** [F] is the type of a frequency, [leb] its [<=]. *)
Variables (F : Type) (leb : F -> F -> bool).

(** One cut of the pair (freqs, freq_chans) by a mask over the
    frequencies. *)
Definition cut (keep : F -> bool) (fc : list F * list nat) : list F * list nat :=
  let mask := map keep (fst fc) in
  (select mask (fst fc), select mask (snd fc)).

(** The block that sets [freqs] and [freq_chans] from [freq_min] and
    [freq_max]; [freq_chans] is [None] when neither bound is given. *)
Definition select_frequencies (freqs : list F) (freq_min freq_max : option F)
  : list F * option (list nat) :=
  match freq_min, freq_max with
  | None, None => (freqs, None)
  | _, _ =>
      let fc0 := (freqs, seq 0 (List.length freqs)) in
      let fc1 := match freq_min with
                 | Some lo => cut (fun f => leb lo f) fc0
                 | None => fc0
                 end in
      let fc2 := match freq_max with
                 | Some hi => cut (fun f => leb f hi) fc1
                 | None => fc1
                 end in
      (fst fc2, Some (snd fc2))
  end.

(** A channel number points at its frequency in the input. *)
Definition channel_of (freqs : list F) (f : F) (c : nat) : Prop :=
  nth_error freqs c = Some f.

(** Whether a frequency passes the bounds that are given. *)
Definition in_band (freq_min freq_max : option F) (f : F) : bool :=
  match freq_min with Some lo => leb lo f | None => true end &&
  match freq_max with Some hi => leb f hi | None => true end.

End Frequencies.

(** *** [lst_bin_files]: the baseline chunks *)

(** The bound of a slice as Python clamps it for a sequence of length
    [len]: a negative bound counts from the end. *)
Definition slice_bound (len : nat) (i : Z) : nat :=
  if (i <? 0)%Z
  then Z.to_nat (Z.max (i + Z.of_nat len) 0)
  else Nat.min (Z.to_nat i) len.

(** [l[start:stop]] *)
Definition py_slice {X : Type} (l : list X) (start stop : Z) : list X :=
  let s := slice_bound (List.length l) start in
  let e := slice_bound (List.length l) stop in
  firstn (e - s) (skipn s l).

(** [range(n)] *)
Definition py_range (n : Z) : list Z := map Z.of_nat (seq 0 (Z.to_nat n)).

Inductive chunk_error : Type := ZeroDivisionError.

(** The lines of [lst_bin_files] that split [all_baselines] into chunks of
    [Nbls_to_load] baselines; [//] is floor division. *)
Definition bl_chunks {X : Type} (all_baselines : list X) (Nbls_to_load : option Z)
  : outcome chunk_error (list (list X)) :=
  let len := Z.of_nat (List.length all_baselines) in
  let N := match Nbls_to_load with
           | None => (len + 1)%Z
           | Some n => n
           end in
  if (N =? 0)%Z then Raised ZeroDivisionError
  else
    let n_bl_chunks := (len / N + 1)%Z in
    Returned
      (filter (fun blg => (0 <? List.length blg)%nat)
              (map (fun i => py_slice all_baselines (i * N) ((i + 1) * N))
                   (py_range n_bl_chunks))).

(** *** [apply_calfile_rules] *)

(** [s.replace(old, new)] for a non-empty [old]: the occurrences of [old]
    are replaced from the left, without overlap.  [skip] counts the
    characters of a match still to be passed over. *)
Fixpoint replace_from (old new : string) (skip : nat) (s : string) : string :=
  match s with
  | EmptyString => EmptyString
  | String c s' =>
      match skip with
      | S k => replace_from old new k s'
      | O =>
          if String.prefix old s
          then (new ++ replace_from old new (String.length old - 1) s')%string
          else String c (replace_from old new 0 s')
      end
  end.

(** ... and for the empty [old], which matches before every character and
    at the end. *)
Fixpoint replace_empty (new : string) (s : string) : string :=
  match s with
  | EmptyString => new
  | String c s' => (new ++ String c (replace_empty new s'))%string
  end.

Definition py_replace (old new s : string) : string :=
  match old with
  | EmptyString => replace_empty new s
  | String _ _ => replace_from old new 0 s
  end.

(** [for rule in calfile_rules: cf = cf.replace(rule[0], rule[1])] *)
Definition apply_rules (calfile_rules : list (string * string)) (df : string) : string :=
  fold_left (fun cf rule => py_replace (fst rule) (snd rule) cf) calfile_rules df.

Inductive calfile_error : Type := IOError (cf : string).

Section Calfiles.

(** [os.path.exists] on the file system as it is during the call. *)
Variable path_exists : string -> bool.

Variables (calfile_rules : list (string * string)) (ignore_missing : bool).

(** The loop over the data files of one night; [this] and [missing] are the
    two lists it appends to. *)
Fixpoint calfile_night_loop (dflist this missing : list string)
  : outcome calfile_error (list string * list string) :=
  match dflist with
  | [] => Returned (this, missing)
  | df :: rest =>
      let cf := apply_rules calfile_rules df in
      if path_exists cf then calfile_night_loop rest (this ++ [cf]) missing
      else if ignore_missing then calfile_night_loop rest this (missing ++ [df])
      else Raised (IOError cf)
  end.

(** [df not in missing] *)
Definition not_in (missing : list string) (df : string) : bool :=
  negb (existsb (String.eqb df) missing).

(** The loop over the nights.  [done] holds the nights already replaced in
    [data_files], [input_cals] the calibration files collected so far.  The
    first component of the result is the caller's [data_files] list after
    the call, which is updated in place night by night. *)
Fixpoint calfile_nights_loop (done todo : list (list string)) (input_cals : list (list string))
  : list (list string) *
    outcome calfile_error (list (list string) * list (list string)) :=
  match todo with
  | [] => (done, Returned (done, input_cals))
  | dflist :: rest =>
      match calfile_night_loop dflist [] [] with
      | Returned (this, missing) =>
          calfile_nights_loop (done ++ [filter (not_in missing) dflist]) rest
                      (input_cals ++ [this])
      | Raised e => (done ++ dflist :: rest, Raised e)
      end
  end.

Definition apply_calfile_rules (data_files : list (list string))
  : list (list string) *
    outcome calfile_error (list (list string) * list (list string)) :=
  calfile_nights_loop [] data_files [].

(** The pruning of empty nights that follows the call in [lst_bin_files]:
    [[df for df in data_files if df]]. *)
Definition prune_empty (nights : list (list string)) : list (list string) :=
  filter (fun night => match night with [] => false | _ :: _ => true end) nights.

End Calfiles.

(** *** [create_lstbin_output_file]: the frequencies of the output file *)

(** The [channels] argument: [None], a list of integers, or an array of
    integers (with at least one element; whether an empty array is true
    depends on the version of numpy). *)
Inductive channels_arg : Type :=
| NoChannels
| ChannelList (l : list Z)
| ChannelArray (first : Z) (others : list Z).

Definition channel_indices (c : channels_arg) : list Z :=
  match c with
  | NoChannels => []
  | ChannelList l => l
  | ChannelArray first others => first :: others
  end.

(** [if channels:] *)
Definition channels_given (c : channels_arg) : result bool :=
  match c with
  | NoChannels => Ok false
  | ChannelList [] => Ok false
  | ChannelList (_ :: _) => Ok true
  | ChannelArray first [] => Ok (negb (first =? 0)%Z)
  | ChannelArray _ (_ :: _) =>
      Raise (ValueError
        "The truth value of an array with more than one element is ambiguous.")
  end.

Section OutputFrequencies.

(** [F] is the type of a frequency, [leb] its [<=] and [truthy f] the
    value of [bool(f)]: whether the float is not zero. *)
Variables (F : Type) (leb : F -> F -> bool) (truthy : F -> bool).

(** [freqs[i]] inside [freqs[channels]]: a negative index counts from the
    end, an index out of bounds raises. *)
Definition take_channel (freqs : list F) (i : Z) : result F :=
  let len := Z.of_nat (List.length freqs) in
  if ((i <? - len) || (len <=? i))%Z then Raise IndexError
  else match nth_error freqs (Z.to_nat (if (i <? 0)%Z then i + len else i)) with
       | Some f => Ok f
       | None => Raise IndexError
       end.

Fixpoint take_channels (freqs : list F) (indices : list Z) : result (list F) :=
  match indices with
  | [] => Ok []
  | i :: rest =>
      match take_channel freqs i with
      | Raise e => Raise e
      | Ok f =>
          match take_channels freqs rest with
          | Raise e => Raise e
          | Ok fs => Ok (f :: fs)
          end
      end
  end.

(** [if freq_min:] and [if freq_max:]: a bound counts when it is given and
    not zero. *)
Definition bound_given (bound : option F) : option F :=
  match bound with
  | Some f => if truthy f then Some f else None
  | None => None
  end.

(** The block that sets [freqs], the frequency array of the file that is
    created. *)
Definition create_lstbin_output_file_freqs (freqs : list F) (freq_min freq_max : option F)
  (channels : channels_arg) : result (list F) :=
  let freqs1 := match bound_given freq_min with
                | Some lo => select (map (fun f => leb lo f) freqs) freqs
                | None => freqs
                end in
  let freqs2 := match bound_given freq_max with
                | Some hi => select (map (fun f => leb f hi) freqs1) freqs1
                | None => freqs1
                end in
  match channels_given channels with
  | Raise e => Raise e
  | Ok true => take_channels freqs2 (channel_indices channels)
  | Ok false => Ok freqs2
  end.

End OutputFrequencies.

(** *** [get_all_unflagged_baselines] *)

(** What the function reads from one file. *)
Record file_meta : Type := {
  antpairs : list (nat * nat);
  pols : list string;
  x_orientation : string
}.

Definition mem_ant (a : nat) (ants : list nat) : bool := existsb (Nat.eqb a) ants.

Definition bl_eqb (p q : nat * nat) : bool :=
  (fst p =? fst q)%nat && (snd p =? snd q)%nat.

Definition mem_bl (p : nat * nat) (bls : list (nat * nat)) : bool :=
  existsb (bl_eqb p) bls.

(** [s.update(items)] on a set held as the list of its elements. *)
Definition set_update (s items : list string) : list string :=
  fold_left (fun acc x => if existsb (String.eqb x) acc then acc else acc ++ [x]) items s.

(** The number of elements of [set(keys)]. *)
Fixpoint distinct (keys : list (nat * nat)) : list (nat * nat) :=
  match keys with
  | [] => []
  | k :: rest => if mem_bl k rest then distinct rest else k :: distinct rest
  end.

Section Unflagged.

(** [Y] is the type of a flag file name; [read_a_priori_ant_flags] (from
    [hera_qm]) gives the antennas it flags; [get_ubl_key] is the method of
    the redundant groups in force (class [RedundantGroups]). *)
Variable Y : Type.
Variable read_a_priori_ant_flags : Y -> list nat.
Variable get_ubl_key : nat * nat -> nat * nat.

Variables (include_autos : bool) (ignore_ants : list nat).

(** The body of [for a1, a2 in antpairs]: the set of baselines, held as the
    list of its elements in the order they were added. *)
Definition add_antpair (redundantly_averaged : bool) (flagged : list nat)
  (all_baselines : list (nat * nat)) (ap : nat * nat) : list (nat * nat) :=
  let '(a1, a2) := if redundantly_averaged then get_ubl_key ap else ap in
  if negb (mem_bl (a1, a2) all_baselines) &&
     negb (mem_bl (a2, a1) all_baselines) &&
     negb (mem_ant a1 ignore_ants) &&
     negb (mem_ant a2 ignore_ants) &&
     (include_autos || negb (a1 =? a2)%nat) &&
     negb (mem_ant a1 flagged) &&
     negb (mem_ant a2 flagged)
  then all_baselines ++ [(a1, a2)]
  else all_baselines.

(** The body of [for meta in fl_list]. *)
Fixpoint baseline_files_loop (x_orient : string) (redundantly_averaged : bool)
  (flagged : list nat) (fl_list : list file_meta)
  (acc : list (nat * nat) * list string) : result (list (nat * nat) * list string) :=
  match fl_list with
  | [] => Ok acc
  | meta :: rest =>
      let all_pols := set_update (snd acc) (pols meta) in
      if String.eqb (x_orientation meta) x_orient
      then baseline_files_loop x_orient redundantly_averaged flagged rest
             (fold_left (add_antpair redundantly_averaged flagged) (antpairs meta) (fst acc),
              all_pols)
      else Raise (ValueError "Not all files have the same xorientation!")
  end.

(** The antennas flagged for a night: those of the night's flag file when
    flag files are given, none otherwise. *)
Definition a_priori_antenna_flags (ex_ant_yaml_files : list Y) (night : nat)
  : result (list nat) :=
  match ex_ant_yaml_files with
  | [] => Ok []
  | _ :: _ =>
      match nth_error ex_ant_yaml_files night with
      | Some y => Ok (read_a_priori_ant_flags y)
      | None => Raise IndexError
      end
  end.

(** The files of a night that are read. *)
Definition files_read (only_last_file_per_night : bool) (fl_list : list file_meta)
  : result (list file_meta) :=
  if only_last_file_per_night
  then match fl_list with
       | [] => Raise IndexError
       | first :: _ => Ok [first; last fl_list first]
       end
  else Ok fl_list.

(** The body of [for night, fl_list in enumerate(data_files)]. *)
Fixpoint baseline_nights_loop (x_orient : string) (redundantly_averaged : bool)
  (ex_ant_yaml_files : list Y) (only_last_file_per_night : bool)
  (night : nat) (data_files : list (list file_meta))
  (acc : list (nat * nat) * list string) : result (list (nat * nat) * list string) :=
  match data_files with
  | [] => Ok acc
  | fl_list :: rest =>
      match a_priori_antenna_flags ex_ant_yaml_files night with
      | Raise e => Raise e
      | Ok flagged =>
          match files_read only_last_file_per_night fl_list with
          | Raise e => Raise e
          | Ok fl_list' =>
              match baseline_files_loop x_orient redundantly_averaged flagged fl_list' acc with
              | Raise e => Raise e
              | Ok acc' =>
                  baseline_nights_loop x_orient redundantly_averaged ex_ant_yaml_files
                              only_last_file_per_night (S night) rest acc'
              end
          end
      end
  end.

(** The [for ... else] that infers [redundantly_averaged] from the middle
    file of every night. *)
Fixpoint infer_redundantly_averaged (data_files : list (list file_meta)) : result bool :=
  match data_files with
  | [] => Ok true
  | fl_list :: rest =>
      match nth_error fl_list (List.length fl_list / 2) with
      | None => Raise IndexError
      | Some meta =>
          if (List.length (distinct (map get_ubl_key (antpairs meta))) =?
              List.length (antpairs meta))%nat
          then infer_redundantly_averaged rest
          else Ok false
      end
  end.

(** [redundantly_averaged] as given, or as inferred when it is [None]. *)
Definition redundantly_averaged_of (redundantly_averaged : option bool)
  (data_files : list (list file_meta)) : result bool :=
  match redundantly_averaged with
  | Some b => Ok b
  | None => infer_redundantly_averaged data_files
  end.

(** The function; the arguments that only say how to open the files are
    left out.  The two returned sets are the lists of their elements. *)
Definition get_all_unflagged_baselines (data_files : list (list file_meta))
  (ex_ant_yaml_files : list Y) (only_last_file_per_night : bool)
  (redundantly_averaged : option bool) : result (list (nat * nat) * list string) :=
  match data_files with
  | (meta0 :: _) :: _ =>
      match redundantly_averaged_of redundantly_averaged data_files with
      | Raise e => Raise e
      | Ok ra =>
          if ra && match ignore_ants with [] => false | _ :: _ => true end
          then Raise (ValueError
                 "Cannot ignore antennas if the files are redundantly averaged.")
          else if ra && match ex_ant_yaml_files with [] => false | _ :: _ => true end
          then Raise (ValueError
                 "Cannot exclude antennas if the files are redundantly averaged.")
          else baseline_nights_loop (x_orientation meta0) ra ex_ant_yaml_files
                           only_last_file_per_night 0 data_files ([], [])
      end
  | _ => Raise IndexError
  end.

End Unflagged.

(** The tests of [add_antpair] that do not look at the baselines already
    found: neither antenna is ignored or flagged, and an auto-correlation
    passes only with [include_autos]. *)
Definition admissible (include_autos : bool) (ignore_ants flagged : list nat)
  (p : nat * nat) : Prop :=
  ~ In (fst p) ignore_ants /\ ~ In (snd p) ignore_ants /\
  (include_autos = false -> fst p <> snd p) /\
  ~ In (fst p) flagged /\ ~ In (snd p) flagged.

(** A baseline is found when it is in the set as it is or conjugated. *)
Definition found (all_baselines : list (nat * nat)) (p : nat * nat) : Prop :=
  In p all_baselines \/ In (snd p, fst p) all_baselines.

(** Two nights of one file each, to run the function on. *)
Definition ex_night1 : file_meta :=
  {| antpairs := [(0, 1); (1, 0); (1, 1); (1, 2)]%nat;
     pols := ["ee"%string; "nn"%string];
     x_orientation := "east"%string |}.

Definition ex_night2 : file_meta :=
  {| antpairs := [(0, 1); (0, 3)]%nat;
     pols := ["nn"%string; "en"%string];
     x_orientation := "east"%string |}.

Definition ex_data_files : list (list file_meta) := [[ex_night1]; [ex_night2]].

(** A night whose file has another x_orientation. *)
Definition ex_north : file_meta :=
  {| antpairs := [(0, 1)]%nat; pols := ["ee"%string];
     x_orientation := "north"%string |}.

End LstBinFiles.

(** ** [reduce_lst_bins]

    The caller of [lst_average]: one call per LST bin, the results put side
    by side along a new axis. *)

Module ReduceLstBins.

Import LstAverage.

(** A four-dimensional array: its shape and its cells. *)
Record array4 (X : Type) : Type := {
  shape4 : nat * nat * nat * nat;
  cell : nat -> nat -> nat -> nat -> X
}.

Definition shape4_eqb (s1 s2 : nat * nat * nat * nat) : bool :=
  let '(a1, b1, c1, d1) := s1 in
  let '(a2, b2, c2, d2) := s2 in
  ((a1 =? a2) && (b1 =? b2) && (c1 =? c2) && (d1 =? d2))%nat.

(** [a.size] *)
Definition size4 {X : Type} (a : array4 X) : nat :=
  let '(n0, n1, n2, n3) := shape4 a in (n0 * n1 * n2 * n3)%nat.

(** [np.zeros(shape)], [np.ones(shape)] *)
Definition full4 {X : Type} (s : nat * nat * nat * nat) (x : X) : array4 X :=
  {| shape4 := s; cell := fun _ _ _ _ => x |}.

(** An array of shape [(ntimes, nbl, nfreq, npol)] as [lst_average] sees it,
    the three trailing axes flattened in row-major order. *)
Definition flatten {X : Type} (a : array4 X) : ndarray X :=
  let '(nt, nbl, nfreq, npol) := shape4 a in
  {| ntimes := nt;
     npos := (nbl * nfreq * npol)%nat;
     item := fun t j => cell a t (j / (nfreq * npol))%nat ((j / npol) mod nfreq)%nat
                             (j mod npol)%nat |}.

(** The cell [(b, f, p)] of a returned list of cells of shape
    [(nbl, nfreq, npol)]. *)
Definition unflatten {X : Type} (nfreq npol : nat) (cells : list X) (default : X)
  (b f p : nat) : X :=
  nth ((b * nfreq + f) * npol + p)%nat cells default.

(** Whether a value of shape [vs] can be assigned to a slot of shape [ts]:
    each axis of the value has the length of the slot's or length one. *)
Definition broadcasts (vs ts : nat * nat * nat) : bool :=
  let '(v1, v2, v3) := vs in
  let '(t1, t2, t3) := ts in
  (((v1 =? t1) || (v1 =? 1)) && ((v2 =? t2) || (v2 =? 1)) &&
   ((v3 =? t3) || (v3 =? 1)))%nat.

(** The index read on an axis of length [v] of the value. *)
Definition stretch (v i : nat) : nat := if (v =? 1)%nat then 0%nat else i.

(** [out[:, lstbin] = x] for a scalar [x]. *)
Definition set_bin_scalar {X : Type} (out : array4 X) (lstbin : nat) (x : X) : array4 X :=
  {| shape4 := shape4 out;
     cell := fun b i f p => if (i =? lstbin)%nat then x else cell out b i f p |}.

(** [out[:, lstbin] = value] for a value of shape [vs]. *)
Definition set_bin {X : Type} (out : array4 X) (lstbin : nat) (vs : nat * nat * nat)
  (value : nat -> nat -> nat -> X) : result (array4 X) :=
  let '(nbl, _, nfreq, npol) := shape4 out in
  if broadcasts vs (nbl, nfreq, npol)
  then let '(v1, v2, v3) := vs in
       Ok {| shape4 := shape4 out;
             cell := fun b i f p =>
                       if (i =? lstbin)%nat
                       then value (stretch v1 b) (stretch v2 f) (stretch v3 p)
                       else cell out b i f p |}
  else Raise (ValueError "could not broadcast input array").

(** [for d, f, n in zip(data, flags, nsamples): assert d.shape == f.shape == n.shape] *)
Fixpoint same_shapes {A B D : Type} (data : list (array4 A)) (flags : list (array4 B))
  (nsamples : list (array4 D)) : bool :=
  match data, flags, nsamples with
  | d :: data', f :: flags', n :: nsamples' =>
      shape4_eqb (shape4 d) (shape4 f) && shape4_eqb (shape4 f) (shape4 n) &&
      same_shapes data' flags' nsamples'
  | _, _, _ => true
  end.

Section Reduce.

Context {R C : Type} {F : FloatOps R C}.

(** [c_zero] is the complex zero of [np.zeros(..., dtype=complex)], and
    [flag_thresh] the default 0.7 of [lst_average], which
    [reduce_lst_bins] does not pass. *)
Variable c_zero : C.
Variable flag_thresh : R.
Variable sigma_clip : ndarray C -> R -> nat -> ndarray bool.

(** The four output arrays. *)
Record reduced : Type := {
  out_data : array4 C;
  out_flags : array4 bool;
  out_std : array4 C;
  out_nsamples : array4 R
}.

(** The four output cells at an index. *)
Definition cells (out : reduced) (b i f p : nat) : C * bool * C * R :=
  (cell (out_data out) b i f p, cell (out_flags out) b i f p,
   cell (out_std out) b i f p, cell (out_nsamples out) b i f p).

Variables (sigma_clip_thresh : R) (sigma_clip_min_N : nat).

(** The body of the loop over the bins. *)
Definition reduce_bin (lstbin : nat) (d : array4 C) (n : array4 R) (f : array4 bool)
  (out : reduced) : result reduced :=
  if (size4 d =? 0)%nat
  then Ok {| out_data := set_bin_scalar (out_data out) lstbin c_one;
             out_flags := set_bin_scalar (out_flags out) lstbin true;
             out_std := set_bin_scalar (out_std out) lstbin c_one;
             out_nsamples := set_bin_scalar (out_nsamples out) lstbin r_zero |}
  else
    match lst_average sigma_clip (flatten d) (flatten n) (flatten f) flag_thresh
                      sigma_clip_thresh sigma_clip_min_N with
    | Raise e => Raise e
    | Ok (mean, f_min, std, norm) =>
        let '(_, vb, vf, vp) := shape4 d in
        match set_bin (out_data out) lstbin (vb, vf, vp) (unflatten vf vp mean c_one) with
        | Raise e => Raise e
        | Ok od =>
        match set_bin (out_flags out) lstbin (vb, vf, vp) (unflatten vf vp f_min false) with
        | Raise e => Raise e
        | Ok ofl =>
        match set_bin (out_std out) lstbin (vb, vf, vp) (unflatten vf vp std c_one) with
        | Raise e => Raise e
        | Ok os =>
        match set_bin (out_nsamples out) lstbin (vb, vf, vp)
                      (unflatten vf vp norm r_zero) with
        | Raise e => Raise e
        | Ok on =>
            Ok {| out_data := od; out_flags := ofl; out_std := os; out_nsamples := on |}
        end end end end
    end.

(** [for lstbin, (d, n, f) in enumerate(zip(data, nsamples, flags))] *)
Fixpoint bins_loop (lstbin : nat) (data : list (array4 C)) (nsamples : list (array4 R))
  (flags : list (array4 bool)) (out : reduced) : result reduced :=
  match data, nsamples, flags with
  | d :: data', n :: nsamples', f :: flags' =>
      match reduce_bin lstbin d n f out with
      | Raise e => Raise e
      | Ok out' => bins_loop (S lstbin) data' nsamples' flags' out'
      end
  | _, _, _ => Ok out
  end.

(** The function.  The output arrays the caller may pass are updated in
    place and returned; [mutable] only lets [lst_average] work in the
    caller's input arrays and is left out. *)
Definition reduce_lst_bins (data : list (array4 C)) (flags : list (array4 bool))
  (nsamples : list (array4 R))
  (out_data0 : option (array4 C)) (out_flags0 : option (array4 bool))
  (out_std0 : option (array4 C)) (out_nsamples0 : option (array4 R))
  : result reduced :=
  match data with
  | [] => Raise IndexError
  | d0 :: _ =>
      let nlst_bins := List.length data in
      let '(_, nbl, nfreq, npol) := shape4 d0 in
      if negb (same_shapes data flags nsamples) then Raise AssertionError
      else
        let od := match out_data0 with
                  | Some a => a
                  | None => full4 (nbl, nlst_bins, nfreq, npol) c_zero
                  end in
        let ofl := match out_flags0 with Some a => a | None => full4 (shape4 od) false end in
        let os := match out_std0 with Some a => a | None => full4 (shape4 od) c_one end in
        let on := match out_nsamples0 with
                  | Some a => a
                  | None => full4 (shape4 od) r_zero
                  end in
        if negb (shape4_eqb (shape4 od) (shape4 ofl) &&
                 shape4_eqb (shape4 ofl) (shape4 os) &&
                 shape4_eqb (shape4 os) (shape4 on))
        then Raise AssertionError
        else if negb (shape4_eqb (shape4 od) (nbl, nlst_bins, nfreq, npol))
        then Raise AssertionError
        else bins_loop 0 data nsamples flags
               {| out_data := od; out_flags := ofl; out_std := os; out_nsamples := on |}
  end.

End Reduce.

(** One bin of three nights, one baseline, two channels and one
    polarization, holding the cells of the example of [RefFloat], and an
    empty bin of the same trailing shape. *)
Definition ex_bin {X : Type} (a : ndarray X) : array4 X :=
  {| shape4 := (3, 1, 2, 1)%nat; cell := fun t _ f _ => item a t f |}.

Definition ex_empty {X : Type} (x : X) : array4 X := full4 (0, 1, 2, 1)%nat x.

(** The example of [RefFloat] with other cells at position 0, flagged
    nowhere. *)
Definition ex_data_other : ndarray RefFloat.cfloat :=
  Build_ndarray 3 2
    (fun t j => match j with
                | 1%nat => item RefFloat.ex_data t 1
                | _ => (Some 9, Some 9)
                end).

Definition ex_flags_none : ndarray bool := Build_ndarray 3 2 (fun _ _ => false).

Definition ex_bins_data : list (array4 RefFloat.cfloat) :=
  [ex_bin RefFloat.ex_data; ex_empty (Some 0, Some 0)].

Definition ex_bins_flags : list (array4 bool) :=
  [ex_bin RefFloat.ex_flags; ex_empty false].

Definition ex_bins_nsamples : list (array4 RefFloat.rfloat) :=
  [ex_bin RefFloat.ex_nsamples; ex_empty (Some 0)].

(** The function in the reference arithmetic, without sigma clipping and
    without output arrays. *)
Definition ex_reduce (data : list (array4 RefFloat.cfloat)) (flags : list (array4 bool))
  (nsamples : list (array4 RefFloat.rfloat)) : result (@reduced RefFloat.rfloat RefFloat.cfloat) :=
  reduce_lst_bins (F := RefFloat.ref_ops) (Some 0, Some 0) (Some (7 # 10))
    RefFloat.no_clip (Some 0) 4 data flags nsamples None None None None.

End ReduceLstBins.


(** * Properties *)

(** ** [lst_average]: fully flagged positions and zero weights *)

Module LstAverageFacts.

Import LstAverage.
Local Open Scope nat_scope.

Lemma map_seq_const (X : Type) (f : nat -> X) (c : X) (n s : nat) :
  (forall t, s <= t < s + n -> f t = c) -> map f (seq s n) = repeat c n.
Proof.
  revert s; induction n as [|n IH]; intros s Hf; simpl.
  - reflexivity.
  - rewrite (Hf s) by lia. f_equal. apply IH. intros t Ht. apply Hf. lia.
Qed.

Lemma forallb_column (n : nat) (f : nat -> nat -> bool) (j : nat) :
  forallb (fun b => b) (column n f j) = true <-> forall t, t < n -> f t j = true.
Proof.
  unfold column. rewrite forallb_forall. split.
  - intros H t Ht. apply H. apply in_map_iff. exists t. split; [reflexivity|].
    apply in_seq. lia.
  - intros H b Hb. apply in_map_iff in Hb. destruct Hb as [t [<- Ht]].
    apply H. apply in_seq in Ht. lia.
Qed.

Lemma nth_map_seq (X : Type) (f : nat -> X) (n j : nat) (d : X) :
  j < n -> nth j (map f (seq 0 n)) d = f j.
Proof.
  intros Hj. rewrite (nth_indep _ d (f 0)) by (rewrite length_map, length_seq; exact Hj).
  rewrite (map_nth f (seq 0 n) 0 j). rewrite seq_nth by exact Hj. reflexivity.
Qed.

Section Facts.

Context {R C : Type} {F : FloatOps R C} {L : FloatLaws F}.

Variable sigma_clip : ndarray C -> R -> nat -> ndarray bool.
Variables (data : ndarray C) (nsamples : ndarray R) (flags : ndarray bool).
Variables (flag_thresh sigma_clip_thresh : R) (sigma_clip_min_N : nat).

Local Abbreviation flags3' :=
  (flags3 sigma_clip data nsamples flags flag_thresh sigma_clip_thresh sigma_clip_min_N).
Local Abbreviation norm0' :=
  (norm0 sigma_clip data nsamples flags flag_thresh sigma_clip_thresh sigma_clip_min_N).
Local Abbreviation wsum' :=
  (wsum sigma_clip data nsamples flags flag_thresh sigma_clip_thresh sigma_clip_min_N).
Local Abbreviation mean1' :=
  (mean1 sigma_clip data nsamples flags flag_thresh sigma_clip_thresh sigma_clip_min_N).
Local Abbreviation f_min' :=
  (f_min sigma_clip data nsamples flags flag_thresh sigma_clip_thresh sigma_clip_min_N).
Local Abbreviation std1' :=
  (std1 sigma_clip data nsamples flags flag_thresh sigma_clip_thresh sigma_clip_min_N).
Local Abbreviation norm1' :=
  (norm1 sigma_clip data nsamples flags flag_thresh sigma_clip_thresh sigma_clip_min_N).

Lemma r_sum_zeros (n : nat) : r_sum (repeat r_zero n) = r_zero.
Proof.
  unfold r_sum. induction n as [|n IH]; simpl.
  - reflexivity.
  - rewrite r_add_zero. exact IH.
Qed.

(** A cell that enters flagged stays flagged through every stage. *)
Lemma flags3_of_input (t j : nat) :
  item flags t j = true -> flags3' t j = true.
Proof.
  intros Hf. unfold flags3, flags2, flags1. rewrite Hf.
  destruct (c_isnan _ || c_isinf _ || r_eq0 _); destruct (r_gt0 sigma_clip_thresh);
    reflexivity.
Qed.

Lemma f_min_spec (j : nat) :
  f_min' j = true <-> forall t, t < ntimes data -> flags3' t j = true.
Proof. unfold f_min. apply forallb_column. Qed.

(** Where every night is flagged the summed sample count is zero. *)
Lemma norm0_fully_flagged (j : nat) :
  f_min' j = true -> norm0' j = r_zero.
Proof.
  intros Hf. unfold norm0, column.
  rewrite map_seq_const with (c := r_zero).
  - apply r_sum_zeros.
  - intros t Ht. unfold nsamples1. rewrite (proj1 (f_min_spec j) Hf t) by lia.
    reflexivity.
Qed.

Lemma mean1_zero_norm (j : nat) :
  norm0' j = r_zero -> mean1' j = c_one.
Proof. intros Hn. unfold mean1. rewrite Hn, r_le0_zero. reflexivity. Qed.

Lemma mean1_cases (j : nat) :
  r_gt0 (norm0' j) = false -> mean1' j = c_one \/ mean1' j = wsum' j.
Proof.
  intros Hg. unfold mean1, mean0. rewrite Hg.
  destruct (r_le0 (norm0' j)); [left | right]; reflexivity.
Qed.

(** C9.  [lst_average] returns whenever its three arrays have one shape,
    and at every position [j] of what it returns: where the summed sample
    count is not positive no division took place (the mean is 1 or the
    undivided sum), where it is zero the mean is 1 and hence not NaN;
    where the returned flag is set the mean is 1, the standard deviation 1
    and the sample count 0; and the returned flag is set wherever the
    input was flagged on every night. *)
Theorem lst_average_fully_flagged :
  (shape data = shape nsamples -> shape nsamples = shape flags ->
   returns (lst_average sigma_clip data nsamples flags flag_thresh
                        sigma_clip_thresh sigma_clip_min_N) = true) /\
  forall d f s n,
    lst_average sigma_clip data nsamples flags flag_thresh
                sigma_clip_thresh sigma_clip_min_N = Ok (d, f, s, n) ->
    forall j, j < npos data ->
      (r_gt0 (norm0' j) = false ->
       nth j d c_one = c_one \/ nth j d c_one = wsum' j) /\
      (norm0' j = r_zero ->
       nth j d c_one = c_one /\ c_isnan (nth j d c_one) = false) /\
      (nth j f false = true ->
       nth j d c_one = c_one /\ nth j s c_one = c_one /\ nth j n r_zero = r_zero) /\
      ((forall t, t < ntimes data -> item flags t j = true) ->
       nth j f false = true).
Proof.
  split.
  - intros H1 H2. unfold lst_average. rewrite H1, H2.
    unfold shape_eqb. rewrite !Nat.eqb_refl. reflexivity.
  - intros d f s n Hret j Hj. unfold lst_average in Hret.
    destruct (shape_eqb _ _ && shape_eqb _ _); [|discriminate].
    injection Hret as <- <- <- <-.
    rewrite !nth_map_seq by exact Hj.
    repeat split.
    + apply mean1_cases.
    + apply mean1_zero_norm. assumption.
    + rewrite mean1_zero_norm by assumption. apply c_one_not_nan.
    + apply mean1_zero_norm, norm0_fully_flagged. assumption.
    + unfold std1. rewrite H. reflexivity.
    + unfold norm1. rewrite H. reflexivity.
    + intros Hin. apply f_min_spec. intros t Ht. apply flags3_of_input, Hin, Ht.
Qed.

End Facts.

(** The example of [RefFloat]: position 0 is flagged throughout, position 1
    averages to (2*1 + 4*2 + 6*1) / 4 = 4. *)
Example lst_average_example :
  lst_average (F := RefFloat.ref_ops) RefFloat.no_clip RefFloat.ex_data
    RefFloat.ex_nsamples RefFloat.ex_flags (Some (7 # 10)%Q) (Some 0%Q) 4
  = Ok ([(Some 1, Some 0); (Some 4, Some 0)]%Q,
        [true; false],
        [(Some 1, Some 0); (Some (1632993 # 1000000), Some 0)]%Q,
        [Some 0; Some 4]%Q).
Proof. vm_compute. reflexivity. Qed.

(** The reference arithmetic satisfies the laws; on the example of
    [RefFloat], position 0 comes back flagged with mean 1, deviation 1 and
    no samples. *)
Lemma lst_average_fully_flagged_witness :
  let d := [(Some 1, Some 0); (Some 4, Some 0)]%Q in
  let s := [(Some 1, Some 0); (Some (1632993 # 1000000), Some 0)]%Q in
  let n := [Some 0; Some 4]%Q in
  let one := @c_one _ _ RefFloat.ref_ops in
  let zero := @r_zero _ _ RefFloat.ref_ops in
  nth 0 d one = one /\ nth 0 s one = one /\ nth 0 n zero = zero.
Proof.
  intros d s n one zero.
  pose (laws := Build_FloatLaws RefFloat.ref_ops eq_refl eq_refl eq_refl eq_refl).
  destruct (@lst_average_fully_flagged _ _ RefFloat.ref_ops laws RefFloat.no_clip
              RefFloat.ex_data RefFloat.ex_nsamples RefFloat.ex_flags
              (Some (7 # 10)%Q) (Some 0%Q) 4) as [_ H].
  specialize (H d [true; false] s n).
  assert (Hrun : lst_average (F := RefFloat.ref_ops) RefFloat.no_clip RefFloat.ex_data
                   RefFloat.ex_nsamples RefFloat.ex_flags (Some (7 # 10)%Q) (Some 0%Q) 4
                 = Ok (d, [true; false], s, n)) by (vm_compute; reflexivity).
  specialize (H Hrun 0).
  assert (Hj : 0 < npos RefFloat.ex_data) by (simpl; lia).
  destruct (H Hj) as (_ & _ & H3 & _).
  apply H3. reflexivity.
Defined.

End LstAverageFacts.

(** ** The rounding of binary64 *)

Module Binary64Facts.

Import SimpleLstBin Binary64.

Lemma pow2_pos (e : Z) : 0 < pow2 e.
Proof. destruct e; reflexivity. Qed.

Lemma pow2_le_1 (e : Z) : (e <= 0)%Z -> pow2 e <= 1.
Proof.
  destruct e as [|p|p]; intros He.
  - apply Qle_refl.
  - lia.
  - unfold Qle. simpl. lia.
Qed.

(** The nearest integer is not negative and at most a half away. *)
Lemma nearest_even_near (n : Z) (d : positive) :
  (0 <= n)%Z ->
  (0 <= nearest_even n d)%Z /\
  (2 * (nearest_even n d * Zpos d - n) <= Zpos d)%Z /\
  (2 * (n - nearest_even n d * Zpos d) <= Zpos d)%Z.
Proof.
  intros Hn. unfold nearest_even.
  pose proof (Z.div_mod n (Zpos d) ltac:(lia)) as Hdm.
  pose proof (Z.mod_pos_bound n (Zpos d) ltac:(lia)) as Hr.
  assert (Hq : (0 <= n / Zpos d)%Z) by (apply Z.div_pos; lia).
  set (q := (n / Zpos d)%Z) in *. set (r := (n mod Zpos d)%Z) in *.
  clearbody q r.
  destruct (Z.compare_spec (2 * r) (Zpos d)) as [E|E|E];
    [destruct (Z.even q)| |]; nia.
Qed.

Lemma nearest_even_near_Q (s : Q) :
  0 <= s ->
  0 <= inject_Z (nearest_even (Qnum s) (Qden s)) /\
  s - (1 # 2) <= inject_Z (nearest_even (Qnum s) (Qden s)) /\
  inject_Z (nearest_even (Qnum s) (Qden s)) <= s + (1 # 2).
Proof.
  destruct s as [n d]. intros Hs. cbn [Qnum Qden].
  assert (Hn : (0 <= n)%Z) by (unfold Qle in Hs; simpl in Hs; lia).
  destruct (nearest_even_near d Hn) as (H0 & H1 & H2).
  set (m := nearest_even n d) in *.
  split; [|split]; unfold Qle; simpl; lia.
Qed.

Lemma floor_log2_le (n d : positive) :
  Zpos n # d <= max_exact -> (floor_log2 n d <= 52)%Z.
Proof.
  intros H. unfold floor_log2.
  assert (Hl : (Z.log2 (Zpos n) <= 52 + Z.log2 (Zpos d))%Z).
  { rewrite <- Z.log2_mul_pow2 by lia. apply Z.log2_le_mono.
    unfold Qle, max_exact in H. simpl in H. change (2 ^ 52)%Z with 4503599627370496%Z.
    lia. }
  destruct (Qle_bool _ _); lia.
Qed.

Lemma round_pos_nonneg (n d : positive) : 0 <= round_pos n d.
Proof.
  unfold round_pos. rewrite Qred_correct.
  set (e := Z.max (floor_log2 n d - 52) (-1074)).
  assert (Hs : 0 <= (Zpos n # d) / pow2 e).
  { apply Qle_shift_div_l; [apply pow2_pos|]. rewrite Qmult_0_l. discriminate. }
  destruct (nearest_even_near_Q Hs) as (H0 & _).
  apply Qmult_le_0_compat; [exact H0 | apply Qlt_le_weak, pow2_pos].
Qed.

Lemma round_pos_near (n d : positive) :
  Zpos n # d <= max_exact ->
  (Zpos n # d) - (1 # 2) <= round_pos n d /\ round_pos n d <= (Zpos n # d) + (1 # 2).
Proof.
  intros Hmax. unfold round_pos. rewrite Qred_correct.
  set (e := Z.max (floor_log2 n d - 52) (-1074)).
  assert (He : (e <= 0)%Z) by (pose proof (floor_log2_le Hmax); unfold e; lia).
  pose proof (pow2_pos e) as Hp. pose proof (pow2_le_1 He) as Hp1.
  set (a := Zpos n # d) in *. set (s := a / pow2 e).
  assert (Hs : 0 <= s).
  { apply Qle_shift_div_l; [exact Hp|]. rewrite Qmult_0_l. discriminate. }
  assert (Ha : a == s * pow2 e) by (unfold s; field; lra).
  destruct (nearest_even_near_Q Hs) as (H0 & H1 & H2).
  set (m := inject_Z (nearest_even (Qnum s) (Qden s))) in *.
  assert (K1 : (s - (1 # 2)) * pow2 e <= m * pow2 e)
    by (apply Qmult_le_compat_r; lra).
  assert (K2 : m * pow2 e <= (s + (1 # 2)) * pow2 e)
    by (apply Qmult_le_compat_r; lra).
  split; rewrite Ha; lra.
Qed.

(** Binary64 rounding has what the theorems need. *)
Lemma binary64_laws : RoundingLaws binary64.
Proof.
  constructor; cbn [rnd binary64]; intros [n d]; unfold round64; cbn [Qnum Qden].
  - intros H. destruct n as [|n|n].
    + apply Qle_refl.
    + apply round_pos_nonneg.
    + unfold Qle in H. simpl in H. lia.
  - intros Hlo Hhi. destruct n as [|n|n].
    + split; unfold Qle; simpl; lia.
    + apply round_pos_near. exact Hhi.
    + assert (Hn : Zpos n # d <= max_exact).
      { unfold Qle, max_exact in *. simpl in *. lia. }
      destruct (round_pos_near Hn) as [H1 H2].
      assert (E : Zneg n # d == - (Zpos n # d)) by reflexivity.
      rewrite E. split; lra.
Defined.

(** Some doubles: 0.1, 1/3, the double 1e17 less [2*pi], which is 1e17
    again, and -1 plus [2*pi]. *)
Example round64_examples :
  round64 (1 # 10) = 3602879701896397 # 36028797018963968 /\
  round64 (1 # 3) = 6004799503160661 # 18014398509481984 /\
  round64 (100000000000000000 - two_pi) = 100000000000000000 /\
  round64 (-1 + two_pi) = 743542230648227 # 140737488355328 /\
  round64 two_pi = two_pi.
Proof. vm_compute. repeat split; reflexivity. Qed.

End Binary64Facts.

(** ** [simple_lst_bin]: validation comes first *)

Module SimpleLstBinFacts.

Import SimpleLstBin Binary64.

Lemma Qlt_bool_iff (x y : Q) : Qlt_bool x y = true <-> x < y.
Proof.
  unfold Qlt_bool. rewrite negb_true_iff. split.
  - intros H. apply Qnot_le_lt. intros Hle. apply Qle_bool_iff in Hle. congruence.
  - intros H. destruct (Qle_bool y x) eqn:E; [|reflexivity].
    apply Qle_bool_iff in E. lra.
Qed.

Lemma Qlt_bool_false (x y : Q) : Qlt_bool x y = false <-> y <= x.
Proof.
  unfold Qlt_bool. rewrite negb_false_iff. apply Qle_bool_iff.
Qed.

Lemma two_pi_pos : 0 < two_pi.
Proof. reflexivity. Qed.

Lemma shape_eqb_false (s1 s2 : list nat) :
  negb (shape_eqb s1 s2) = false -> s1 = s2.
Proof.
  unfold shape_eqb. destruct (list_eq_dec Nat.eq_dec s1 s2); [auto | discriminate].
Qed.

Lemma bind_raise_if (B : Type) (c : bool) (e : exn) (k : unit -> M B) (w : world) :
  bind (raise_if c e) k w = if c then Some (w, Raise e) else k tt w.
Proof. unfold bind, raise_if, raise, ret. destruct c; reflexivity. Qed.

Section Loops.

Context {A : Rounding}.

(** A loop that has come to an end within the fuel does so with more fuel,
    and with the same array. *)
Lemma shift_up_more_fuel (fuel : nat) :
  forall fuel' edges up,
    (fuel <= fuel')%nat -> shift_up fuel edges = Some up ->
    shift_up fuel' edges = Some up.
Proof.
  induction fuel as [|fuel IH]; intros fuel' edges up Hle H.
  - destruct fuel'; simpl in *; destruct (Qlt_bool (hd 0 edges) 0); congruence.
  - destruct fuel' as [|fuel']; [lia|]. simpl in *.
    destruct (Qlt_bool (hd 0 edges) 0); [apply IH; [lia | exact H] | exact H].
Qed.

Lemma shift_down_more_fuel (fuel : nat) :
  forall fuel' edges down,
    (fuel <= fuel')%nat -> shift_down fuel edges = Some down ->
    shift_down fuel' edges = Some down.
Proof.
  induction fuel as [|fuel IH]; intros fuel' edges down Hle H.
  - destruct fuel'; simpl in *; destruct (Qle_bool two_pi (hd 0 edges)); congruence.
  - destruct fuel' as [|fuel']; [lia|]. simpl in *.
    destruct (Qle_bool two_pi (hd 0 edges)); [apply IH; [lia | exact H] | exact H].
Qed.

Lemma adjust_lst_bin_edges_more_fuel (fuel fuel' : nat) (edges : list Q)
  (r : result (list Q)) :
  (fuel <= fuel')%nat -> adjust_lst_bin_edges fuel edges = Some r ->
  adjust_lst_bin_edges fuel' edges = Some r.
Proof.
  intros Hle. unfold adjust_lst_bin_edges. destruct edges as [|e0 rest]; [auto|].
  destruct (shift_up fuel (e0 :: rest)) as [up|] eqn:Eu; [|discriminate].
  destruct (shift_down fuel up) as [down|] eqn:Ed; [|discriminate].
  rewrite (shift_up_more_fuel _ Hle Eu), (shift_down_more_fuel _ Hle Ed). auto.
Qed.

(** The first loop ends with a first edge that is not negative. *)
Lemma shift_up_returned (fuel : nat) :
  forall edges up,
    shift_up fuel edges = Some up ->
    List.length up = List.length edges /\ 0 <= hd 0 up.
Proof.
  induction fuel as [|fuel IH]; intros edges up H; simpl in H;
    destruct (Qlt_bool (hd 0 edges) 0) eqn:E; try discriminate.
  - injection H as <-. split; [reflexivity | now apply Qlt_bool_false].
  - apply IH in H. rewrite length_map in H. exact H.
  - injection H as <-. split; [reflexivity | now apply Qlt_bool_false].
Qed.

Lemma shift_down_length (fuel : nat) :
  forall edges down,
    shift_down fuel edges = Some down -> List.length down = List.length edges.
Proof.
  induction fuel as [|fuel IH]; intros edges down H; simpl in H;
    destruct (Qle_bool two_pi (hd 0 edges)); try discriminate.
  - now injection H as <-.
  - apply IH in H. now rewrite length_map in H.
  - now injection H as <-.
Qed.

(** The adjustment keeps the number of edges. *)
Lemma adjust_lst_bin_edges_length (fuel : nat) (edges adjusted : list Q) :
  adjust_lst_bin_edges fuel edges = Some (Ok adjusted) ->
  List.length adjusted = List.length edges.
Proof.
  unfold adjust_lst_bin_edges. destruct edges as [|e0 rest]; [discriminate|].
  destruct (shift_up fuel (e0 :: rest)) as [up|] eqn:Eu; [|discriminate].
  destruct (shift_down fuel up) as [down|] eqn:Ed; [|discriminate].
  intros H. injection H as <-.
  apply shift_up_returned in Eu. apply shift_down_length in Ed.
  destruct Eu as [Eu _]. congruence.
Qed.

Context {L : RoundingLaws A}.

(** The second loop keeps the first edge from becoming negative and ends
    with it below [2*pi]. *)
Lemma shift_down_returned (fuel : nat) :
  forall edges down,
    0 <= hd 0 edges -> shift_down fuel edges = Some down ->
    List.length down = List.length edges /\ 0 <= hd 0 down /\ hd 0 down < two_pi.
Proof.
  assert (Hstop : forall edges, 0 <= hd 0 edges -> Qle_bool two_pi (hd 0 edges) = false ->
                    List.length edges = List.length edges /\
                    0 <= hd 0 edges /\ hd 0 edges < two_pi).
  { intros edges Hpos E. repeat split; [exact Hpos|].
    apply Qnot_le_lt. intros Hle. apply Qle_bool_iff in Hle. congruence. }
  induction fuel as [|fuel IH]; intros edges down Hpos H; simpl in H;
    destruct (Qle_bool two_pi (hd 0 edges)) eqn:E; try discriminate.
  - injection H as <-. now apply Hstop.
  - apply IH in H; [now rewrite length_map in H|].
    destruct edges as [|e0 rest]; [discriminate E|]. cbn [map hd] in *.
    apply rnd_nonneg. apply Qle_bool_iff in E. lra.
  - injection H as <-. now apply Hstop.
Qed.

(** Whenever [adjust_lst_bin_edges] returns, the array has kept its length
    and its first edge lies in [0, 2*pi). *)
Lemma adjust_lst_bin_edges_returned (fuel : nat) (edges adjusted : list Q) :
  adjust_lst_bin_edges fuel edges = Some (Ok adjusted) ->
  edges <> [] /\ List.length adjusted = List.length edges /\
  0 <= hd 0 adjusted /\ hd 0 adjusted < two_pi.
Proof.
  unfold adjust_lst_bin_edges. destruct edges as [|e0 rest]; [discriminate|].
  destruct (shift_up fuel (e0 :: rest)) as [up|] eqn:Eu; [|discriminate].
  destruct (shift_down fuel up) as [down|] eqn:Ed; [|discriminate].
  intros H. injection H as <-.
  apply shift_up_returned in Eu. destruct Eu as [Hlen Hpos].
  apply shift_down_returned in Ed; [|exact Hpos]. destruct Ed as (Hlen' & Hlo & Hhi).
  split; [discriminate|]. split; [congruence|]. split; assumption.
Qed.

(** The first loop ends when the fuel covers the way up to zero, at five
    a round: up to [max_exact] a round adds [2*pi] less a half at least. *)
Lemma shift_up_exits (fuel : nat) :
  forall e0 rest,
    - max_exact <= e0 -> 0 <= e0 + 5 * inject_Z (Z.of_nat fuel) ->
    exists up,
      shift_up fuel (e0 :: rest) = Some up /\ (up = e0 :: rest \/ hd 0 up < 7).
Proof.
  induction fuel as [|fuel IH]; intros e0 rest Hlo Hcover; cbn [shift_up hd];
    destruct (Qlt_bool e0 0) eqn:E.
  - apply Qlt_bool_iff in E. change (inject_Z (Z.of_nat 0)) with 0 in Hcover. lra.
  - exists (e0 :: rest). auto.
  - apply Qlt_bool_iff in E. cbn [map].
    destruct (@rnd_near A L (e0 + two_pi)) as [Hn1 Hn2];
      [unfold two_pi, max_exact in *; lra | unfold two_pi, max_exact in *; lra |].
    rewrite Nat2Z.inj_succ, <- Z.add_1_r, inject_Z_plus in Hcover.
    change (inject_Z 1) with 1 in Hcover.
    destruct (IH (rnd (e0 + two_pi)) (map (fun e => rnd (e + two_pi)) rest))
      as (up & Hup & Hhd).
    + unfold two_pi, max_exact in *. lra.
    + unfold two_pi in *. lra.
    + exists up. split; [exact Hup|]. right.
      destruct Hhd as [->|Hhd]; [cbn [hd]; unfold two_pi in *; lra | exact Hhd].
  - exists (e0 :: rest). auto.
Qed.

(** The second loop ends when the fuel covers the way down to [2*pi]. *)
Lemma shift_down_exits (fuel : nat) :
  forall e0 rest,
    0 <= e0 -> e0 <= max_exact -> e0 < two_pi + 5 * inject_Z (Z.of_nat fuel) ->
    exists down, shift_down fuel (e0 :: rest) = Some down.
Proof.
  induction fuel as [|fuel IH]; intros e0 rest Hlo Hhi Hcover; cbn [shift_down hd];
    destruct (Qle_bool two_pi e0) eqn:E.
  - apply Qle_bool_iff in E. change (inject_Z (Z.of_nat 0)) with 0 in Hcover. lra.
  - now eexists.
  - apply Qle_bool_iff in E. cbn [map].
    destruct (@rnd_near A L (e0 - two_pi)) as [Hn1 Hn2];
      [unfold two_pi, max_exact in *; lra | unfold two_pi, max_exact in *; lra |].
    assert (Hpos : 0 <= rnd (e0 - two_pi)) by (apply rnd_nonneg; lra).
    rewrite Nat2Z.inj_succ, <- Z.add_1_r, inject_Z_plus in Hcover.
    change (inject_Z 1) with 1 in Hcover.
    apply IH; [exact Hpos | unfold two_pi, max_exact in *; lra | unfold two_pi in *; lra].
  - now eexists.
Qed.

(** [adjust_lst_bin_edges] comes to an end when the first edge is at most
    [max_exact] in magnitude and the fuel is two more than that magnitude. *)
Lemma adjust_lst_bin_edges_exits (fuel : nat) (edges : list Q) :
  edges <> [] ->
  - max_exact <= hd 0 edges -> hd 0 edges <= max_exact ->
  2 - inject_Z (Z.of_nat fuel) <= hd 0 edges ->
  hd 0 edges <= inject_Z (Z.of_nat fuel) - 2 ->
  exists adjusted,
    adjust_lst_bin_edges fuel edges = Some (Ok adjusted) /\
    List.length adjusted = List.length edges /\
    0 <= hd 0 adjusted /\ hd 0 adjusted < two_pi.
Proof.
  destruct edges as [|e0 rest]; [congruence|]. cbn [hd]. intros _ Hlo Hhi Hf1 Hf2.
  assert (Hadj : exists adjusted,
             adjust_lst_bin_edges fuel (e0 :: rest) = Some (Ok adjusted)).
  { unfold adjust_lst_bin_edges.
    destruct (@shift_up_exits fuel e0 rest Hlo) as (up & Hup & Hhd); [lra|].
    rewrite Hup.
    pose proof (@shift_up_returned fuel _ _ Hup) as [Hlen Hpos].
    destruct up as [|e1 rest1]; [discriminate Hlen|]. cbn [hd] in *.
    destruct (@shift_down_exits fuel e1 rest1 Hpos) as (down & Hdown).
    - destruct Hhd as [Hsame|Hhd]; [injection Hsame as -> _; exact Hhi|].
      unfold max_exact. lra.
    - destruct Hhd as [Hsame|Hhd]; [injection Hsame as -> _|];
        unfold two_pi; lra.
    - rewrite Hdown. now eexists. }
  destruct Hadj as (adjusted & Hadj). exists adjusted. split; [exact Hadj|].
  apply adjust_lst_bin_edges_returned in Hadj. tauto.
Qed.

End Loops.

Section Validation.

Context {A : Rounding}.

Variables (C N : Type) (one : N).
Variable lst_rephase_vectorized :
  ndarray C -> list vec3 -> list Q -> list Q -> Q -> ndarray C.

(** C10.  For data with a last axis of length [npols]: when there are more
    than 4 polarizations, or the data shape is not (len(data_lsts),
    len(baselines), len(freq_array), npols), or the given flags or
    nsamples have another shape than the data, or there are fewer than 2
    bin edges, or the adjustment of the edges comes to an end and the
    adjusted edges are not strictly increasing, the call raises ValueError
    and has entered neither the binning nor the rephasing stage.  In the
    last case the call is followed for as many rounds of the adjustment
    loops as the adjustment took, or more, and the caller's array of edges
    then holds the adjusted edges; in the other cases it is as it was. *)
Theorem simple_lst_bin_validates (fuel fuel' : nat)
  (data : ndarray C) (data_lsts : list Q) (baselines : list (nat * nat))
  (freq_array : list Q) (flags : option (ndarray bool)) (nsamples : option (ndarray N))
  (rephase : bool) (antpos : option (list vec3)) (lat : Q) (w : world) (npols : nat) :
  last_axis data = Ok npols ->
  (fuel <= fuel')%nat ->
  (4 < npols)%nat \/
  shape data <> [List.length data_lsts; List.length baselines;
                 List.length freq_array; npols] \/
  (exists f, flags = Some f /\ shape f <> shape data) \/
  (exists n, nsamples = Some n /\ shape n <> shape data) \/
  (List.length (lst_bin_edges w) < 2)%nat \/
  (exists adjusted, adjust_lst_bin_edges fuel (lst_bin_edges w) = Some (Ok adjusted) /\
                    diff_all_positive adjusted = false) ->
  exists w' msg,
    simple_lst_bin one lst_rephase_vectorized fuel' data data_lsts baselines
                   freq_array flags nsamples rephase antpos lat w
    = Some (w', Raise (ValueError msg)) /\
    entered w' = entered w /\
    (lst_bin_edges w' = lst_bin_edges w \/
     adjust_lst_bin_edges fuel (lst_bin_edges w) = Some (Ok (lst_bin_edges w'))).
Proof.
  intros Hlast Hfuel Hbad. unfold simple_lst_bin.
  unfold bind at 1. unfold lift at 1. rewrite Hlast.
  rewrite bind_raise_if.
  destruct (4 <? npols)%nat eqn:E1; [eauto 6|].
  rewrite bind_raise_if.
  destruct (negb (shape_eqb (shape data) _)) eqn:E2; [eauto 6|].
  rewrite bind_raise_if.
  destruct (negb (shape_eqb (shape match flags with
                                   | Some f => f
                                   | None => full (shape data) false
                                   end) (shape data))) eqn:E3; [eauto 6|].
  rewrite bind_raise_if.
  destruct (negb (shape_eqb (shape match nsamples with
                                   | Some n => n
                                   | None => full (shape data) one
                                   end) (shape data))) eqn:E4; [eauto 6|].
  unfold bind at 1. unfold read_edges at 1.
  rewrite bind_raise_if.
  destruct (List.length (lst_bin_edges w) <? 2)%nat eqn:E5; [eauto 6|].
  apply Nat.ltb_ge in E1. apply shape_eqb_false in E2, E3, E4.
  apply Nat.ltb_ge in E5.
  destruct Hbad as [H|[H|[H|[H|[H|H]]]]].
  - lia.
  - contradiction.
  - destruct H as (f & -> & Hf). contradiction.
  - destruct H as (n & -> & Hn). contradiction.
  - lia.
  - destruct H as (adj & Hadj & Hdiff).
    unfold bind at 1. unfold run at 1.
    rewrite (adjust_lst_bin_edges_more_fuel _ Hfuel Hadj).
    unfold bind at 1. unfold write_edges at 1.
    rewrite bind_raise_if, Hdiff. cbn [negb].
    eexists _, _. split; [reflexivity|]. split; [reflexivity|]. right. exact Hadj.
Qed.

End Validation.

(** A zero-dimensional [data] has no last axis: reading [data.shape[-1]]
    raises IndexError before any check is made. *)
Lemma simple_lst_bin_scalar_data {A : Rounding} (C N : Type) (one : N)
  (rephase_fn : ndarray C -> list vec3 -> list Q -> list Q -> Q -> ndarray C)
  (fuel : nat)
  (data : ndarray C) (data_lsts : list Q) (baselines : list (nat * nat))
  (freq_array : list Q) (flags : option (ndarray bool)) (nsamples : option (ndarray N))
  (rephase : bool) (antpos : option (list vec3)) (lat : Q) (w : world) :
  shape data = [] ->
  simple_lst_bin one rephase_fn fuel data data_lsts baselines freq_array flags nsamples
                 rephase antpos lat w = Some (w, Raise IndexError).
Proof.
  intros H. unfold simple_lst_bin, bind, lift, last_axis. rewrite H. reflexivity.
Qed.

(** Three integrations at LSTs 0.5, 1.5 and 2.5 over the edges 0, 1, 2: the
    third one lies outside, the first two fill one bin each. *)
Example simple_lst_bin_example :
  simple_lst_bin (A := binary64) (C := Z) (N := Z) 1%Z (fun d _ _ _ _ => d) 0
    {| shape := [3; 1; 1; 2]%nat; cells := [1; 2; 3; 4; 5; 6]%Z |}
    [1 # 2; 3 # 2; 5 # 2] [(0, 1)%nat] [100] None None false None 0
    {| lst_bin_edges := [0; 1; 2]; entered := [] |}
  = Some ({| lst_bin_edges := [0; 1; 2]; entered := [Binning] |},
     Ok ([1 # 2; 3 # 2],
         [{| shape := [1; 1; 1; 2]%nat; cells := [1; 2]%Z |};
          {| shape := [1; 1; 1; 2]%nat; cells := [3; 4]%Z |}],
         [{| shape := [1; 1; 1; 2]%nat; cells := [false; false] |};
          {| shape := [1; 1; 1; 2]%nat; cells := [false; false] |}],
         [{| shape := [1; 1; 1; 2]%nat; cells := [1; 1]%Z |};
          {| shape := [1; 1; 1; 2]%nat; cells := [1; 1]%Z |}])).
Proof. vm_compute. reflexivity. Qed.

(** Edges that decrease are rejected after the in-place adjustment. *)
Example simple_lst_bin_decreasing_edges :
  simple_lst_bin (A := binary64) (C := Z) (N := Z) 1%Z (fun d _ _ _ _ => d) 0
    {| shape := [1; 1; 1; 2]%nat; cells := [1; 2]%Z |}
    [1 # 2] [(0, 1)%nat] [100] None None false None 0
    {| lst_bin_edges := [1; 0]; entered := [] |}
  = Some ({| lst_bin_edges := [1; 0]; entered := [] |},
          Raise (ValueError "lst_bin_edges must be monotonically increasing.")).
Proof. vm_compute. reflexivity. Qed.

(** The edges -1 and the next double above -1 increase, but adding [2*pi]
    rounds both to the same double: the call raises, and the caller's
    array holds the two equal edges. *)
Example simple_lst_bin_rounded_edges :
  simple_lst_bin (A := binary64) (C := Z) (N := Z) 1%Z (fun d _ _ _ _ => d) 1
    {| shape := [1; 1; 1; 2]%nat; cells := [1; 2]%Z |}
    [1 # 2] [(0, 1)%nat] [100] None None false None 0
    {| lst_bin_edges := [-1; -9007199254740991 # 9007199254740992]; entered := [] |}
  = Some ({| lst_bin_edges := [743542230648227 # 140737488355328;
                               743542230648227 # 140737488355328];
             entered := [] |},
          Raise (ValueError "lst_bin_edges must be monotonically increasing.")).
Proof. vm_compute. reflexivity. Qed.

(** With a first edge of 1e17 the call is still in the second loop of the
    adjustment after a thousand rounds: subtracting [2*pi] from 1e17 gives
    1e17 again. *)
Example simple_lst_bin_large_edge :
  simple_lst_bin (A := binary64) (C := Z) (N := Z) 1%Z (fun d _ _ _ _ => d) 1000
    {| shape := [1; 1; 1; 2]%nat; cells := [1; 2]%Z |}
    [1 # 2] [(0, 1)%nat] [100] None None false None 0
    {| lst_bin_edges := [100000000000000000; 0]; entered := [] |}
  = None.
Proof. vm_compute. reflexivity. Qed.

(** A call with six polarizations. *)
Lemma simple_lst_bin_validates_witness :
  let data := {| shape := [1; 1; 1; 6]%nat; cells := repeat 0%Z 6 |} in
  let w := {| lst_bin_edges := [0; 1]; entered := [] |} in
  exists w' msg,
    simple_lst_bin (A := binary64) (C := Z) (N := Z) 1%Z (fun d _ _ _ _ => d) 0
      data [1 # 2] [(0, 1)%nat] [100] None None false None 0 w
    = Some (w', Raise (ValueError msg)) /\
    entered w' = [] /\
    (lst_bin_edges w' = [0; 1] \/
     adjust_lst_bin_edges (A := binary64) 0 [0; 1] = Some (Ok (lst_bin_edges w'))).
Proof.
  intros data w.
  apply (@simple_lst_bin_validates binary64 Z Z 1%Z (fun d _ _ _ _ => d) 0%nat 0%nat
           data [1 # 2] [(0, 1)%nat] [100] None None false None 0 w 6%nat).
  - reflexivity.
  - lia.
  - left. lia.
Defined.

End SimpleLstBinFacts.

(** ** [get_pos_reds]: the groups partition the antenna pairs *)

Module GrouperFacts.

Import Redcal.
Local Open Scope nat_scope.

Lemma concat_perm (X : Type) (l l' : list (list X)) :
  Permutation l l' -> Permutation (List.concat l) (List.concat l').
Proof.
  induction 1 as [|x l l' _ IH|x y l|l l' l'' _ IH1 _ IH2]; simpl.
  - constructor.
  - apply Permutation_app_head, IH.
  - rewrite !app_assoc. apply Permutation_app_tail, Permutation_app_comm.
  - eapply perm_trans; eassumption.
Qed.

Lemma place_perm (tol : Q) (p : antpair) (d : vec3) (groups : list (vec3 * list antpair)) :
  Permutation (List.concat (map snd (place tol p d groups)))
              (p :: List.concat (map snd groups)).
Proof.
  induction groups as [|[r members] rest IH]; simpl.
  - constructor. constructor.
  - destruct (within tol d r); simpl.
    + rewrite <- app_assoc. simpl. symmetry. apply Permutation_middle.
    + eapply perm_trans.
      * apply Permutation_app_head, IH.
      * symmetry. apply Permutation_middle.
Qed.

Lemma insert_sorted_perm (X : Type) (leb : X -> X -> bool) (x : X) (l : list X) :
  Permutation (insert_sorted leb x l) (x :: l).
Proof.
  induction l as [|y rest IH]; simpl.
  - constructor. constructor.
  - destruct (leb x y).
    + apply Permutation_refl.
    + eapply perm_trans; [apply perm_skip, IH | apply perm_swap].
Qed.

Lemma sort_by_perm (X : Type) (leb : X -> X -> bool) (l : list X) :
  Permutation (sort_by leb l) l.
Proof.
  induction l as [|x rest IH]; simpl.
  - constructor.
  - eapply perm_trans; [apply insert_sorted_perm | apply perm_skip, IH].
Qed.

Lemma grouping_perm (tol : Q) (pairs : list ((nat * vec3) * (nat * vec3))) :
  forall groups,
    Permutation
      (List.concat (map snd
         (fold_left (fun gs ab => let '(p, d) := orient (fst ab) (snd ab) in
                                  place tol p d gs) pairs groups)))
      (map oriented pairs ++ List.concat (map snd groups)).
Proof.
  induction pairs as [|ab rest IH]; intros groups; simpl.
  - apply Permutation_refl.
  - eapply perm_trans; [apply IH|].
    unfold oriented at 2. destruct (orient (fst ab) (snd ab)) as [p d]. simpl.
    eapply perm_trans; [apply Permutation_app_head, place_perm|].
    symmetry. apply Permutation_middle.
Qed.

(** The flattened groups are the oriented pairs, in some order. *)
Lemma get_pos_reds_perm (antpos : list (nat * vec3)) (tol : Q) :
  Permutation (List.concat (get_pos_reds antpos tol false))
              (map oriented (later_pairs antpos)).
Proof.
  unfold get_pos_reds. simpl.
  eapply perm_trans.
  - apply concat_perm, Permutation_map, sort_by_perm.
  - eapply perm_trans; [apply grouping_perm|]. simpl. rewrite app_nil_r.
    apply Permutation_refl.
Qed.

Lemma oriented_cases (ab : (nat * vec3) * (nat * vec3)) :
  oriented ab = (fst (fst ab), fst (snd ab)) \/
  oriented ab = (fst (snd ab), fst (fst ab)).
Proof.
  unfold oriented, orient. destruct (canonical _); [left | right]; reflexivity.
Qed.

Lemma later_pairs_in (X : Type) (l : list X) (x y : X) :
  In (x, y) (later_pairs l) -> In x l /\ In y l.
Proof.
  induction l as [|a rest IH]; simpl; [tauto|].
  rewrite in_app_iff, in_map_iff. intros [[b [E Hb]]|H].
  - injection E as <- <-. auto.
  - destruct (IH H). auto.
Qed.

Lemma later_pairs_distinct (X : Type) (l : list X) (x y : X) :
  NoDup l -> In (x, y) (later_pairs l) -> x <> y.
Proof.
  induction l as [|a rest IH]; simpl; [tauto|].
  intros Hnd. inversion Hnd as [|? ? Ha Hrest]; subst.
  rewrite in_app_iff, in_map_iff. intros [[b [E Hb]]|H].
  - injection E as <- <-. intros ->. contradiction.
  - apply IH; assumption.
Qed.

Lemma later_pairs_map (X Y : Type) (f : X -> Y) (l : list X) :
  map (fun ab => (f (fst ab), f (snd ab))) (later_pairs l) = later_pairs (map f l).
Proof.
  induction l as [|a rest IH]; simpl; [reflexivity|].
  rewrite map_app, IH, !map_map. reflexivity.
Qed.

Lemma count_pair_with (k : nat) (rest : list nat) (a b : nat) :
  count_occ antpair_dec (map (fun y => (k, y)) rest) (a, b) =
  if Nat.eq_dec k a then count_occ Nat.eq_dec rest b else 0.
Proof.
  induction rest as [|y rest IH]; simpl.
  - destruct (Nat.eq_dec k a); reflexivity.
  - destruct (antpair_dec (k, y) (a, b)) as [E|E].
    + injection E as -> ->. rewrite IH.
      destruct (Nat.eq_dec a a); [|congruence].
      destruct (Nat.eq_dec b b); [reflexivity|congruence].
    + rewrite IH. destruct (Nat.eq_dec k a) as [->|]; [|reflexivity].
      destruct (Nat.eq_dec y b) as [->|]; [congruence|reflexivity].
Qed.

Lemma count_absent (l : list nat) (x y : nat) :
  ~ In x l \/ ~ In y l -> count_occ antpair_dec (later_pairs l) (x, y) = 0.
Proof.
  intros H. apply count_occ_not_In. intros Hin.
  apply later_pairs_in in Hin. tauto.
Qed.

(** Among the pairs of a duplicate-free list, two distinct members meet
    exactly once, in one of the two orders. *)
Lemma later_pairs_once (l : list nat) (a b : nat) :
  NoDup l -> In a l -> In b l -> a <> b ->
  count_occ antpair_dec (later_pairs l) (a, b) +
  count_occ antpair_dec (later_pairs l) (b, a) = 1.
Proof.
  induction l as [|k rest IH]; simpl; [tauto|].
  intros Hnd Ha Hb Hab. inversion Hnd as [|? ? Hk Hrest]; subst.
  rewrite !count_occ_app, !count_pair_with.
  destruct (Nat.eq_dec k a) as [Hka|Hka]; destruct (Nat.eq_dec k b) as [Hkb|Hkb].
  - congruence.
  - subst k. destruct Hb as [Hb|Hb]; [congruence|].
    rewrite (@count_absent rest a b) by tauto.
    rewrite (@count_absent rest b a) by tauto.
    assert (count_occ Nat.eq_dec rest b = 1).
    { apply NoDup_count_occ'; assumption. }
    lia.
  - subst k. destruct Ha as [Ha|Ha]; [congruence|].
    rewrite (@count_absent rest a b) by tauto.
    rewrite (@count_absent rest b a) by tauto.
    assert (count_occ Nat.eq_dec rest a = 1).
    { apply NoDup_count_occ'; assumption. }
    lia.
  - destruct Ha as [Ha|Ha]; [congruence|]. destruct Hb as [Hb|Hb]; [congruence|].
    specialize (IH Hrest Ha Hb Hab). lia.
Qed.

(** Orienting the pairs does not change how often an unordered pair
    occurs. *)
Lemma oriented_count (pairs : list ((nat * vec3) * (nat * vec3))) (a b : nat) :
  a <> b ->
  count_occ antpair_dec (map oriented pairs) (a, b) +
  count_occ antpair_dec (map oriented pairs) (b, a) =
  count_occ antpair_dec (map (fun ab => (fst (fst ab), fst (snd ab))) pairs) (a, b) +
  count_occ antpair_dec (map (fun ab => (fst (fst ab), fst (snd ab))) pairs) (b, a).
Proof.
  intros Hab. induction pairs as [|ab rest IH]; simpl; [reflexivity|].
  destruct (oriented_cases ab) as [E|E]; rewrite E.
  - destruct (antpair_dec (fst (fst ab), fst (snd ab)) (a, b));
    destruct (antpair_dec (fst (fst ab), fst (snd ab)) (b, a)); lia.
  - destruct (antpair_dec (fst (snd ab), fst (fst ab)) (a, b)) as [E1|E1];
    destruct (antpair_dec (fst (snd ab), fst (fst ab)) (b, a)) as [E2|E2];
    destruct (antpair_dec (fst (fst ab), fst (snd ab)) (a, b)) as [E3|E3];
    destruct (antpair_dec (fst (fst ab), fst (snd ab)) (b, a)) as [E4|E4];
    try lia; exfalso;
    repeat match goal with
           | H : (_, _) = (_, _) |- _ => injection H as ? ?
           end; congruence.
Qed.

(** How often the unordered pair of [a] and [b] occurs in a list. *)
Lemma pair_count_app (a b : nat) (l l' : list (nat * nat)) :
  count_occ antpair_dec (l ++ l') (a, b) + count_occ antpair_dec (l ++ l') (b, a) =
  (count_occ antpair_dec l (a, b) + count_occ antpair_dec l (b, a)) +
  (count_occ antpair_dec l' (a, b) + count_occ antpair_dec l' (b, a)).
Proof. rewrite !count_occ_app. lia. Qed.

Lemma pair_count_member (a b : nat) (l : list (nat * nat)) :
  In (a, b) l \/ In (b, a) l ->
  1 <= count_occ antpair_dec l (a, b) + count_occ antpair_dec l (b, a).
Proof.
  intros [H|H]; apply (count_occ_In antpair_dec) in H; lia.
Qed.

Lemma pair_count_group (a b : nat) (groups : list (list (nat * nat))) (g : nat) :
  count_occ antpair_dec (nth g groups []) (a, b) +
  count_occ antpair_dec (nth g groups []) (b, a) <=
  count_occ antpair_dec (List.concat groups) (a, b) +
  count_occ antpair_dec (List.concat groups) (b, a).
Proof.
  revert g. induction groups as [|grp rest IH]; intros [|g]; simpl; try lia.
  - rewrite pair_count_app. lia.
  - rewrite pair_count_app. specialize (IH g). lia.
Qed.

Lemma pair_count_two_groups (a b : nat) (groups : list (list (nat * nat))) :
  forall g1 g2, g1 < g2 ->
    (count_occ antpair_dec (nth g1 groups []) (a, b) +
     count_occ antpair_dec (nth g1 groups []) (b, a)) +
    (count_occ antpair_dec (nth g2 groups []) (a, b) +
     count_occ antpair_dec (nth g2 groups []) (b, a)) <=
    count_occ antpair_dec (List.concat groups) (a, b) +
    count_occ antpair_dec (List.concat groups) (b, a).
Proof.
  induction groups as [|grp rest IH]; intros g1 g2 Hlt.
  - destruct g1, g2; simpl; lia.
  - destruct g2 as [|g2]; [lia|]. cbn [nth List.concat]. rewrite pair_count_app.
    destruct g1 as [|g1].
    + pose proof (pair_count_group a b rest g2). lia.
    + specialize (IH g1 g2). cbn [nth]. lia.
Qed.

(** C4.  For a mapping without repeated antenna numbers, the groups of
    [get_pos_reds] (autos excluded) partition the antenna pairs: any two
    distinct antennas occur together exactly once in the flattened groups,
    in one of the two orientations, so none is omitted; every member is a
    pair of two distinct antennas of the mapping; and two groups that both
    hold a pair, in whichever orientation, are one and the same group. *)
Theorem get_pos_reds_partition (antpos : list (nat * vec3)) (bl_error_tol : Q) :
  NoDup (map fst antpos) ->
  let reds := get_pos_reds antpos bl_error_tol false in
  let flat := List.concat reds in
  (forall a b, In a (map fst antpos) -> In b (map fst antpos) -> a <> b ->
     count_occ antpair_dec flat (a, b) + count_occ antpair_dec flat (b, a) = 1) /\
  (forall a b, In (a, b) flat ->
     In a (map fst antpos) /\ In b (map fst antpos) /\ a <> b) /\
  (forall g1 g2 a b,
     In (a, b) (nth g1 reds []) ->
     In (a, b) (nth g2 reds []) \/ In (b, a) (nth g2 reds []) ->
     g1 = g2).
Proof.
  intros Hnd reds flat. pose proof (get_pos_reds_perm antpos bl_error_tol) as Hperm.
  fold reds in Hperm. fold flat in Hperm.
  assert (Honce : forall a b, In a (map fst antpos) -> In b (map fst antpos) -> a <> b ->
            count_occ antpair_dec flat (a, b) + count_occ antpair_dec flat (b, a) = 1).
  { intros a b Ha Hb Hab.
    rewrite !(proj1 (Permutation_count_occ antpair_dec _ _) Hperm).
    rewrite oriented_count by assumption.
    rewrite (later_pairs_map fst antpos).
    apply later_pairs_once; assumption. }
  assert (Hmember : forall a b, In (a, b) flat ->
            In a (map fst antpos) /\ In b (map fst antpos) /\ a <> b).
  { intros a b Hin.
    apply (Permutation_in _ Hperm) in Hin.
    apply in_map_iff in Hin. destruct Hin as [ab [E Hab]].
    assert (Hnames : In (fst (fst ab), fst (snd ab)) (later_pairs (map fst antpos))).
    { rewrite <- later_pairs_map. apply in_map_iff. exists ab. auto. }
    pose proof (@later_pairs_in _ _ _ _ Hnames) as [H1 H2].
    pose proof (@later_pairs_distinct _ _ _ _ Hnd Hnames) as H3.
    destruct (oriented_cases ab) as [E'|E']; rewrite E' in E; injection E as <- <-; auto. }
  split; [exact Honce|]. split; [exact Hmember|].
  intros g1 g2 a b H1 H2.
  assert (Hflat : In (a, b) flat).
  { unfold flat. apply in_concat. exists (nth g1 reds []). split; [|exact H1].
    destruct (Nat.lt_ge_cases g1 (List.length reds)) as [Hl|Hl].
    - apply nth_In, Hl.
    - rewrite nth_overflow in H1 by exact Hl. contradiction. }
  destruct (Hmember a b Hflat) as (Ha & Hb & Hab).
  specialize (Honce a b Ha Hb Hab).
  pose proof (pair_count_member a b (nth g1 reds []) (or_introl H1)) as C1.
  pose proof (pair_count_member a b (nth g2 reds []) H2) as C2.
  destruct (Nat.lt_trichotomy g1 g2) as [Hlt|[Heq|Hgt]]; [|exact Heq|].
  - pose proof (@pair_count_two_groups a b reds g1 g2 Hlt) as H.
    unfold flat, reds, antpair in *. lia.
  - pose proof (@pair_count_two_groups a b reds g2 g1 Hgt) as H.
    unfold flat, reds, antpair in *. lia.
Qed.

(** [test_get_pos_red]: antennas 0, 1 and 2 at 0 m, 20 m and 10 m. *)
Example get_pos_reds_example :
  get_pos_reds [(0, (0, 0, 0)%Q); (1, (20, 0, 0)%Q); (2, (10, 0, 0)%Q)] 1%Q false
  = [[(0, 2); (2, 1)]; [(0, 1)]].
Proof. vm_compute. reflexivity. Qed.

(** The three antennas of [test_get_pos_red]: at 0 m, 20 m and 10 m. *)
Lemma get_pos_reds_partition_witness :
  let antpos := [(0, (0, 0, 0)%Q); (1, (20, 0, 0)%Q); (2, (10, 0, 0)%Q)] in
  let flat := List.concat (get_pos_reds antpos 1%Q false) in
  count_occ antpair_dec flat (1, 2) + count_occ antpair_dec flat (2, 1) = 1.
Proof.
  intros antpos flat.
  assert (Hnd : NoDup (map fst antpos)).
  { simpl. repeat constructor; simpl; intuition discriminate. }
  apply (proj1 (@get_pos_reds_partition antpos 1%Q Hnd) 1 2); simpl; auto.
Defined.

End GrouperFacts.

(** ** [build_eqs]: shared unknowns and distinct keys *)

Module EquationFacts.

Import Redcal.
Local Open Scope nat_scope.

(** *** Text of the keys *)

Lemma string_app_assoc (s t u : string) :
  ((s ++ t) ++ u)%string = (s ++ (t ++ u))%string.
Proof. induction s as [|c s IH]; simpl; [reflexivity | now rewrite IH]. Qed.

Lemma digits_no_underscore (d : Decimal.uint) :
  has_underscore (NilEmpty.string_of_uint d) = false.
Proof. induction d; simpl; auto. Qed.

Lemma dec_no_underscore (n : nat) : has_underscore (dec n) = false.
Proof. apply digits_no_underscore. Qed.

Lemma dec_inj (n m : nat) : dec n = dec m -> n = m.
Proof.
  unfold dec. intros H.
  apply (f_equal NilEmpty.uint_of_string) in H. rewrite !NilEmpty.usu in H.
  injection H as H. apply (f_equal Nat.of_uint) in H.
  now rewrite !Unsigned.of_to in H.
Qed.

(** A text without underscore followed by an underscore is cut off at that
    underscore in one way only. *)
Lemma split_at_underscore (s1 s2 r1 r2 : string) :
  has_underscore s1 = false -> has_underscore s2 = false ->
  (s1 ++ String "_" r1)%string = (s2 ++ String "_" r2)%string ->
  s1 = s2 /\ r1 = r2.
Proof.
  revert s2. induction s1 as [|c s1 IH]; intros [|c' s2] H1 H2 E; simpl in *.
  - injection E as E. auto.
  - injection E as <- _. simpl in H2. discriminate.
  - injection E as -> _. simpl in H1. discriminate.
  - injection E as -> E. apply orb_false_iff in H1, H2.
    destruct (IH s2) as [-> ->]; tauto.
Qed.

Lemma dec_prefix_inj (n m : nat) (r1 r2 : string) :
  (dec n ++ String "_" r1)%string = (dec m ++ String "_" r2)%string ->
  n = m /\ r1 = r2.
Proof.
  intros E. apply split_at_underscore in E; try apply dec_no_underscore.
  destruct E as [E ->]. split; [now apply dec_inj | reflexivity].
Qed.

Lemma pol_string_inj (p q : pol) : pol_string p = pol_string q -> p = q.
Proof.
  destruct p as [[] []], q as [[] []]; cbv; intros H;
    try reflexivity; discriminate H.
Qed.

Lemma eq_key_text (k : nat) (p0 : pol) (i j : nat) (f g : feed) :
  eq_key k p0 (i, j, (f, g)) = ("g_" ++ key_tail1 i f j g k p0)%string.
Proof.
  unfold eq_key, gain_factors, ubl_name, key_tail1, key_tail2, key_tail3.
  cbn [fst snd]. rewrite !string_app_assoc. reflexivity.
Qed.

(** The key names the baseline and the group: equal keys come from the
    same baseline, the same group index and the same representative
    polarization. *)
Lemma eq_key_inj (k k' : nat) (p0 p0' : pol) (bl bl' : baseline) :
  eq_key k p0 bl = eq_key k' p0' bl' -> k = k' /\ p0 = p0' /\ bl = bl'.
Proof.
  destruct bl as [[i j] [f g]], bl' as [[i' j'] [f' g']].
  rewrite !eq_key_text. intros E.
  assert (E1 : key_tail1 i f j g k p0 = key_tail1 i' f' j' g' k' p0').
  { cbn [String.append] in E. injection E as E. exact E. }
  clear E. unfold key_tail1 in E1. apply dec_prefix_inj in E1.
  destruct E1 as [<- E1].
  assert (Hf : f = f' /\ key_tail2 j g k p0 = key_tail2 j' g' k' p0').
  { destruct f, f'; cbn [jones_string String.append] in E1;
      try discriminate E1; injection E1 as E1; auto. }
  destruct Hf as [<- E2]. unfold key_tail2 in E2. apply dec_prefix_inj in E2.
  destruct E2 as [<- E2].
  assert (Hg : g = g' /\ key_tail3 k p0 = key_tail3 k' p0').
  { destruct g, g'; cbn [jones_string String.append] in E2;
      try discriminate E2; injection E2 as E2; auto. }
  destruct Hg as [<- E3]. unfold key_tail3 in E3. apply dec_prefix_inj in E3.
  destruct E3 as [<- E3]. apply pol_string_inj in E3. subst. auto.
Qed.

(** *** Groups with polarizations *)

Lemma feed_eqb_eq (f g : feed) : feed_eqb f g = true <-> f = g.
Proof. destruct f, g; simpl; split; congruence. Qed.

Lemma baseline_eqb_refl (bl : baseline) : baseline_eqb bl bl = true.
Proof.
  destruct bl as [[i j] [f g]]. simpl. rewrite !Nat.eqb_refl.
  destruct f, g; reflexivity.
Qed.

Lemma in_data (bl : baseline) (bls_in_data : list baseline) :
  In bl bls_in_data -> existsb (baseline_eqb bl) bls_in_data = true.
Proof.
  intros H. apply existsb_exists. exists bl. split; [exact H | apply baseline_eqb_refl].
Qed.

Lemma tag_in (ex_ants : list (nat * feed)) (p : pol) (bls : list antpair) (i j : nat) :
  In (i, j) bls -> excluded ex_ants (i, j) p = false -> In (i, j, p) (tag ex_ants p bls).
Proof.
  intros Hin Hex. unfold tag. apply in_map_iff. exists (i, j). split; [reflexivity|].
  apply filter_In. split; [exact Hin|]. now rewrite Hex.
Qed.

Lemma tag_pol (ex_ants : list (nat * feed)) (p : pol) (bls : list antpair) (bl : baseline) :
  In bl (tag ex_ants p bls) -> snd bl = p.
Proof.
  unfold tag. rewrite in_map_iff. intros [ab [<- _]]. reflexivity.
Qed.

Lemma tag_nodup (ex_ants : list (nat * feed)) (p : pol) (bls : list antpair) :
  NoDup bls -> NoDup (tag ex_ants p bls).
Proof.
  intros H. unfold tag. apply Finite.Injective_map_NoDup.
  - intros [a b] [a' b'] E. simpl in E. congruence.
  - apply NoDup_filter, H.
Qed.

Lemma merged_nodup (ex_ants : list (nat * feed)) (p : pol) (bls : list antpair) :
  feed_eqb (fst p) (snd p) = false -> NoDup bls ->
  NoDup (tag ex_ants p bls ++ tag ex_ants (conj_pol p) bls).
Proof.
  intros Hcross H. apply NoDup_app.
  - apply tag_nodup, H.
  - apply tag_nodup, H.
  - intros bl H1 H2. apply tag_pol in H1. apply tag_pol in H2.
    rewrite H1 in H2. unfold conj_pol in H2.
    destruct p as [[] []]; simpl in *; congruence.
Qed.

(** Every group of the expansion is free of repetitions when the position
    groups are. *)
Lemma add_pol_reds_from_nodup (reds : list (list antpair)) (minV : bool)
  (ex_ants : list (nat * feed)) (pols : list pol) :
  Forall (@NoDup antpair) reds ->
  forall did_cross,
    Forall (@NoDup baseline) (add_pol_reds_from did_cross reds pols minV ex_ants).
Proof.
  intros Hreds. induction pols as [|p rest IH]; intros did_cross; simpl.
  - constructor.
  - destruct (negb minV || feed_eqb (fst p) (snd p)) eqn:E.
    + apply Forall_app. split; [|apply IH].
      apply Forall_map. eapply Forall_impl; [|exact Hreds].
      intros bls. apply tag_nodup.
    + apply orb_false_iff in E. destruct E as [_ E].
      destruct did_cross; [apply IH|].
      apply Forall_app. split; [|apply IH].
      apply Forall_map. eapply Forall_impl; [|exact Hreds].
      intros bls. apply merged_nodup, E.
Qed.

(** In mode [4pol_minV], as soon as a cross-feed polarization is asked for,
    every position group has its merged group. *)
Lemma minV_merged_group (reds : list (list antpair)) (ex_ants : list (nat * feed))
  (pols : list pol) (p : pol) (bls : list antpair) :
  In p pols -> fst p <> snd p -> In bls reds ->
  exists q, fst q <> snd q /\
            In (tag ex_ants q bls ++ tag ex_ants (conj_pol q) bls)
               (add_pol_reds_from false reds pols true ex_ants).
Proof.
  intros Hp Hcross Hbls. induction pols as [|p' rest IH]; simpl; [contradiction|].
  destruct (feed_eqb (fst p') (snd p')) eqn:E.
  - destruct Hp as [->|Hp].
    + apply feed_eqb_eq in E. contradiction.
    + destruct (IH Hp) as [q [Hq Hin]]. exists q. split; [exact Hq|].
      apply in_app_iff. right. exact Hin.
  - exists p'. split.
    + intros Heq. apply feed_eqb_eq in Heq. congruence.
    + apply in_app_iff. left.
      apply (in_map (fun bls => tag ex_ants p' bls ++ tag ex_ants (conj_pol p') bls)).
      exact Hbls.
Qed.

(** *** The equations *)

Lemma group_eqs_keys (bls_in_data : list baseline) (k : nat) (blgrp : list baseline)
  (key : string) :
  In key (map fst (group_eqs bls_in_data k blgrp)) ->
  exists p0 bl, key = eq_key k p0 bl.
Proof.
  unfold group_eqs. destruct blgrp as [|[[i0 j0] p0] rest]; [contradiction|].
  rewrite map_map. cbn [fst]. rewrite in_map_iff. intros [bl [<- _]]. eauto.
Qed.

Lemma group_eqs_nodup (bls_in_data : list baseline) (k : nat) (blgrp : list baseline) :
  NoDup blgrp -> NoDup (map fst (group_eqs bls_in_data k blgrp)).
Proof.
  intros H. unfold group_eqs. destruct blgrp as [|[[i0 j0] p0] rest]; [constructor|].
  rewrite map_map. cbn [fst]. apply Finite.Injective_map_NoDup.
  - intros b b' E. apply eq_key_inj in E. tauto.
  - apply NoDup_filter, H.
Qed.

Lemma build_eqs_from_keys (bls_in_data : list baseline) (reds : list (list baseline)) :
  forall k key,
    In key (map fst (build_eqs_from k bls_in_data reds)) ->
    exists k' p0 bl, k <= k' /\ key = eq_key k' p0 bl.
Proof.
  induction reds as [|blgrp rest IH]; intros k key; simpl; [contradiction|].
  rewrite map_app, in_app_iff. intros [H|H].
  - apply group_eqs_keys in H. destruct H as [p0 [bl ->]]. exists k, p0, bl. auto.
  - apply IH in H. destruct H as (k' & p0 & bl & Hk & ->). exists k', p0, bl.
    split; [lia | reflexivity].
Qed.

Lemma build_eqs_from_nodup (bls_in_data : list baseline) (reds : list (list baseline)) :
  Forall (@NoDup baseline) reds ->
  forall k, NoDup (map fst (build_eqs_from k bls_in_data reds)).
Proof.
  induction 1 as [|blgrp rest Hgrp _ IH]; intros k; simpl; [constructor|].
  rewrite map_app. apply NoDup_app.
  - apply group_eqs_nodup, Hgrp.
  - apply IH.
  - intros key H1 H2.
    apply group_eqs_keys in H1. destruct H1 as [p0 [bl ->]].
    apply build_eqs_from_keys in H2. destruct H2 as (k' & p0' & bl' & Hk & E).
    apply eq_key_inj in E. lia.
Qed.

(** All baselines of one group get the unknown of that group. *)
Lemma build_eqs_from_group (bls_in_data : list baseline) (reds : list (list baseline))
  (blgrp : list baseline) :
  In blgrp reds -> blgrp <> [] ->
  forall k0, exists k p0,
    forall bl, In bl blgrp -> In bl bls_in_data ->
               In (eq_key k p0 bl, bl) (build_eqs_from k0 bls_in_data reds).
Proof.
  intros Hin Hne. induction reds as [|g rest IH]; [contradiction|].
  intros k0. simpl. destruct Hin as [->|Hin].
  - destruct blgrp as [|[[i0 j0] p0] more]; [congruence|].
    exists k0, p0. intros bl Hbl Hdata. apply in_app_iff. left.
    unfold group_eqs.
    apply (in_map (fun bl => (eq_key k0 p0 bl, bl))).
    apply filter_In. split; [exact Hbl | apply in_data, Hdata].
  - destruct (IH Hin (S k0)) as (k & p0 & H). exists k, p0.
    intros bl Hbl Hdata. apply in_app_iff. right. apply H; assumption.
Qed.

(** C6.  In mode [4pol_minV], for an antenna pair (i, j) of a position
    group whose two cross-feed baselines are in the data and touch no
    excluded antenna, the equations of (i, j, xy) and of (i, j, yx) carry
    one and the same unknown u_k; and when no position group repeats a
    pair, no two equations have the same key. *)
Theorem build_eqs_minV_shared_unknown
  (pos_reds : list (list antpair)) (pols : list pol) (ex_ants : list (nat * feed))
  (bls_in_data : list baseline) :
  let eqs := build_eqs (add_pol_reds pos_reds pols "4pol_minV" ex_ants) bls_in_data in
  (forall bls i j p,
      In bls pos_reds -> In (i, j) bls -> In p pols -> fst p <> snd p ->
      excluded ex_ants (i, j) (X, Y) = false ->
      excluded ex_ants (i, j) (Y, X) = false ->
      In (i, j, (X, Y)) bls_in_data -> In (i, j, (Y, X)) bls_in_data ->
      exists k p0,
        In ((gain_factors (i, j, (X, Y)) ++ ubl_name k p0)%string, (i, j, (X, Y))) eqs /\
        In ((gain_factors (i, j, (Y, X)) ++ ubl_name k p0)%string, (i, j, (Y, X))) eqs) /\
  (Forall (@NoDup antpair) pos_reds -> NoDup (map fst eqs)).
Proof.
  intros eqs. subst eqs. unfold build_eqs, add_pol_reds.
  change (String.eqb "4pol_minV" "4pol_minV") with true. split.
  - intros bls i j p Hbls Hij Hp Hcross Hxy Hyx Dxy Dyx.
    destruct (@minV_merged_group pos_reds ex_ants pols p bls Hp Hcross Hbls)
      as [q [Hq Hmerged]].
    assert (Hboth : In (i, j, (X, Y)) (tag ex_ants q bls ++ tag ex_ants (conj_pol q) bls) /\
                    In (i, j, (Y, X)) (tag ex_ants q bls ++ tag ex_ants (conj_pol q) bls)).
    { rewrite !in_app_iff.
      destruct q as [[] []]; simpl in Hq; try congruence; unfold conj_pol; simpl;
        split; auto using tag_in. }
    destruct Hboth as [Bxy Byx].
    assert (Hne : tag ex_ants q bls ++ tag ex_ants (conj_pol q) bls <> []).
    { intros E. rewrite E in Bxy. contradiction. }
    destruct (@build_eqs_from_group bls_in_data _ _ Hmerged Hne 0) as (k & p0 & H).
    exists k, p0. split; apply H; assumption.
  - intros Hnd. apply build_eqs_from_nodup, add_pol_reds_from_nodup, Hnd.
Qed.

(** [test_add_pol_reds] *)
Example add_pol_reds_4pol_minV :
  add_pol_reds [[(1, 2)]] [(X, X); (X, Y); (Y, X); (Y, Y)] "4pol_minV" []
  = [[(1, 2, (X, X))]; [(1, 2, (X, Y)); (1, 2, (Y, X))]; [(1, 2, (Y, Y))]].
Proof. reflexivity. Qed.

Example add_pol_reds_4pol_minV_excluding :
  add_pol_reds [[(1, 2)]] [(X, X); (X, Y); (Y, X); (Y, Y)] "4pol_minV" [(2, Y)]
  = [[(1, 2, (X, X))]; [(1, 2, (Y, X))]; []].
Proof. reflexivity. Qed.

Example add_pol_reds_4pol_excluding :
  add_pol_reds [[(1, 2)]] [(X, X); (X, Y); (Y, X); (Y, Y)] "4pol" [(2, Y)]
  = [[(1, 2, (X, X))]; []; [(1, 2, (Y, X))]; []].
Proof. reflexivity. Qed.

(** [test_build_eq], mode [4pol_minV]: the keys of the cross-feed
    equations. *)
Example build_eqs_4pol_minV :
  let reds := add_pol_reds [[(0, 1); (1, 2)]; [(0, 2)]]
                           [(X, X); (Y, Y); (X, Y); (Y, X)] "4pol_minV" [] in
  List.length (build_eqs reds (List.concat reds)) = 12 /\
  filter (fun e : string * baseline => negb (feed_eqb (fst (snd (snd e))) (snd (snd (snd e)))))
         (build_eqs reds (List.concat reds))
  = [("g_0_Jxx * g_1_Jyy_ * u_4_xy"%string, (0, 1, (X, Y)));
     ("g_1_Jxx * g_2_Jyy_ * u_4_xy"%string, (1, 2, (X, Y)));
     ("g_0_Jyy * g_1_Jxx_ * u_4_xy"%string, (0, 1, (Y, X)));
     ("g_1_Jyy * g_2_Jxx_ * u_4_xy"%string, (1, 2, (Y, X)));
     ("g_0_Jxx * g_2_Jyy_ * u_5_xy"%string, (0, 2, (X, Y)));
     ("g_0_Jyy * g_2_Jxx_ * u_5_xy"%string, (0, 2, (Y, X)))].
Proof. vm_compute. split; reflexivity. Qed.

(** The three-antenna line of [test_build_eq], antenna pair (0, 1). *)
Lemma build_eqs_minV_shared_unknown_witness :
  let pos_reds := [[(0, 1); (1, 2)]; [(0, 2)]] in
  let pols := [(X, X); (Y, Y); (X, Y); (Y, X)] in
  let reds := add_pol_reds pos_reds pols "4pol_minV" [] in
  let eqs := build_eqs reds (List.concat reds) in
  exists k p0,
    In ((gain_factors (0, 1, (X, Y)) ++ ubl_name k p0)%string, (0, 1, (X, Y))) eqs /\
    In ((gain_factors (0, 1, (Y, X)) ++ ubl_name k p0)%string, (0, 1, (Y, X))) eqs.
Proof.
  intros pos_reds pols reds eqs.
  apply (proj1 (build_eqs_minV_shared_unknown pos_reds pols [] (List.concat reds))
           [(0, 1); (1, 2)] 0 1 (X, Y)).
  - simpl. auto.
  - simpl. auto.
  - simpl. auto.
  - simpl. discriminate.
  - reflexivity.
  - reflexivity.
  - vm_compute. intuition.
  - vm_compute. intuition.
Defined.

End EquationFacts.

(** ** [adjust_lst_bin_edges] and [get_lst_bins] *)

Module LstBinEdgeFacts.

Import SimpleLstBin Binary64 Binary64Facts SimpleLstBinFacts LstBinViews.

Section Edges.

Context {A : Rounding}.

Lemma shift_up_in_range (fuel : nat) (edges : list Q) :
  0 <= hd 0 edges -> shift_up fuel edges = Some edges.
Proof.
  intros H. apply Qlt_bool_false in H. destruct fuel; simpl; now rewrite H.
Qed.

Lemma shift_down_in_range (fuel : nat) (edges : list Q) :
  hd 0 edges < two_pi -> shift_down fuel edges = Some edges.
Proof.
  intros H.
  assert (E : Qle_bool two_pi (hd 0 edges) = false).
  { destruct (Qle_bool two_pi (hd 0 edges)) eqn:E; [|reflexivity].
    apply Qle_bool_iff in E. lra. }
  destruct fuel; simpl; now rewrite E.
Qed.

(** A negative first edge that adding [2*pi] rounds back to itself keeps
    the first loop going. *)
Lemma shift_up_absorbed (fuel : nat) :
  forall e0 rest,
    e0 < 0 -> rnd (e0 + two_pi) = e0 -> shift_up fuel (e0 :: rest) = None.
Proof.
  induction fuel as [|fuel IH]; intros e0 rest Hneg Hsame; cbn [shift_up hd];
    rewrite (proj2 (Qlt_bool_iff e0 0) Hneg); [reflexivity|].
  cbn [map]. rewrite Hsame. now apply IH.
Qed.

Lemma shift_down_absorbed (fuel : nat) :
  forall e0 rest,
    two_pi <= e0 -> rnd (e0 - two_pi) = e0 -> shift_down fuel (e0 :: rest) = None.
Proof.
  induction fuel as [|fuel IH]; intros e0 rest Hbig Hsame; cbn [shift_down hd];
    rewrite (proj2 (Qle_bool_iff two_pi e0) Hbig); [reflexivity|].
  cbn [map]. rewrite Hsame. now apply IH.
Qed.

(** X2.  When adding [2*pi] to a negative first edge, or taking [2*pi]
    from a first edge of [2*pi] or more, is rounded back to that edge,
    [adjust_lst_bin_edges] does not return: after any number of rounds it
    is still in its loop. *)
Theorem adjust_lst_bin_edges_absorbed (e0 : Q) (rest : list Q) (fuel : nat) :
  (e0 < 0 /\ rnd (e0 + two_pi) = e0) \/ (two_pi <= e0 /\ rnd (e0 - two_pi) = e0) ->
  adjust_lst_bin_edges fuel (e0 :: rest) = None.
Proof.
  intros [[Hneg Hsame]|[Hbig Hsame]]; unfold adjust_lst_bin_edges.
  - now rewrite shift_up_absorbed.
  - rewrite shift_up_in_range by (cbn [hd]; unfold two_pi in Hbig; lra).
    now rewrite shift_down_absorbed.
Qed.

Context {L : RoundingLaws A}.

(** X1.  On a non-empty array of edges whose first edge is at most 2^52 in
    magnitude both loops of [adjust_lst_bin_edges] come to an end, within
    as many rounds as that magnitude and two more; the adjusted array has
    the length of the original and its first edge lies in [0, 2*pi). *)
Theorem adjust_lst_bin_edges_range (fuel : nat) (edges : list Q) :
  edges <> [] ->
  Qabs (hd 0 edges) <= max_exact ->
  Qabs (hd 0 edges) + 2 <= inject_Z (Z.of_nat fuel) ->
  exists adjusted,
    adjust_lst_bin_edges fuel edges = Some (Ok adjusted) /\
    List.length adjusted = List.length edges /\
    0 <= hd 0 adjusted /\ hd 0 adjusted < two_pi.
Proof.
  intros Hne Hmax Hfuel.
  apply Qabs_Qle_condition in Hmax. destruct Hmax as [Hlo Hhi].
  pose proof (Qle_Qabs (hd 0 edges)) as H1.
  pose proof (Qle_Qabs (- hd 0 edges)) as H2. rewrite Qabs_opp in H2.
  apply adjust_lst_bin_edges_exits; try assumption; lra.
Qed.

(** X3.  Edges that already start in [0, 2*pi) are left as they are, and so
    adjusting a second time changes nothing. *)
Theorem adjust_lst_bin_edges_idempotent (fuel fuel' : nat) (edges adjusted : list Q) :
  (edges <> [] -> 0 <= hd 0 edges -> hd 0 edges < two_pi ->
   adjust_lst_bin_edges fuel edges = Some (Ok edges)) /\
  (adjust_lst_bin_edges fuel edges = Some (Ok adjusted) ->
   adjust_lst_bin_edges fuel' adjusted = Some (Ok adjusted)).
Proof.
  assert (Hnoop : forall k l, l <> [] -> 0 <= hd 0 l -> hd 0 l < two_pi ->
                              adjust_lst_bin_edges k l = Some (Ok l)).
  { intros k l Hne Hlo Hhi. destruct l as [|e0 rest]; [congruence|].
    unfold adjust_lst_bin_edges.
    rewrite (shift_up_in_range _ (e0 :: rest) Hlo).
    rewrite (shift_down_in_range _ (e0 :: rest) Hhi). reflexivity. }
  split; [apply Hnoop|].
  intros H. apply adjust_lst_bin_edges_returned in H.
  destruct H as (Hne & Hlen & Hlo & Hhi).
  apply Hnoop; try assumption.
  destruct adjusted; [|congruence]. destruct edges; [congruence | discriminate].
Qed.

End Edges.

Lemma adjust_lst_bin_edges_range_witness :
  exists adjusted,
    adjust_lst_bin_edges (A := binary64) 9 [-7; 1; 2] = Some (Ok adjusted) /\
    List.length adjusted = 3%nat /\ 0 <= hd 0 adjusted /\ hd 0 adjusted < two_pi.
Proof.
  apply (@adjust_lst_bin_edges_range binary64 binary64_laws 9 [-7; 1; 2]).
  - discriminate.
  - vm_compute. discriminate.
  - vm_compute. discriminate.
Defined.

(** A first edge of 1e17: taking [2*pi] from it gives 1e17 again. *)
Lemma adjust_lst_bin_edges_absorbed_witness :
  adjust_lst_bin_edges (A := binary64) 1000
    [100000000000000000; 100000000000000016] = None.
Proof.
  apply (@adjust_lst_bin_edges_absorbed binary64 100000000000000000
           [100000000000000016] 1000).
  right. split; [vm_compute; discriminate | vm_compute; reflexivity].
Defined.

Lemma adjust_lst_bin_edges_idempotent_witness :
  adjust_lst_bin_edges (A := binary64) 0 [1; 2; 3] = Some (Ok [1; 2; 3]).
Proof.
  apply (proj1 (@adjust_lst_bin_edges_idempotent binary64 binary64_laws 0 0 [1; 2; 3] [])).
  - discriminate.
  - vm_compute. discriminate.
  - vm_compute. reflexivity.
Defined.

(** The edges -7, 1, 2 go up twice; every edge is rounded on the way. *)
Example adjust_lst_bin_edges_example :
  adjust_lst_bin_edges (A := binary64) 2 [-7; 1; 2]
  = Some (Ok [391698509759907 # 70368744177664;
              954648463181219 # 70368744177664;
              1025017207358883 # 70368744177664]).
Proof. vm_compute. reflexivity. Qed.

(** *** [get_lst_bins] *)

Section Bins.

Context {A : Rounding}.

(** On edges that do not decrease, [get_lst_bins] returns the places of
    [digitize_right] for the wrapped LSTs. *)
Lemma get_lst_bins_non_decreasing (lsts : list Q) (e0 : Q) (rest : list Q) :
  non_decreasing (e0 :: rest) = true ->
  get_lst_bins lsts (e0 :: rest) =
    let lsts2 := map (wrap e0) lsts in
    let bins := map (fun c => (Z.of_nat c - 1)%Z)
                    (map (fun x => digitize_right x (e0 :: rest)) lsts2) in
    Ok (bins, lsts2,
        map (fun b => (0 <=? b)%Z && (b <? Z.of_nat (List.length (e0 :: rest)) - 1)%Z)
            bins).
Proof. intros H. unfold get_lst_bins, digitize. rewrite H. reflexivity. Qed.

(** Whenever [get_lst_bins] returns, its three arrays have the length of
    [lsts] and the second one holds the wrapped LSTs. *)
Lemma get_lst_bins_returned (lsts edges : list Q) (found : list Z * list Q * list bool) :
  get_lst_bins lsts edges = Ok found ->
  found = (bins_of lsts edges, wrapped_of lsts edges, mask_of lsts edges) /\
  List.length (bins_of lsts edges) = List.length lsts /\
  List.length (wrapped_of lsts edges) = List.length lsts /\
  List.length (mask_of lsts edges) = List.length lsts /\
  wrapped_of lsts edges = map (wrap (hd 0 edges)) lsts.
Proof.
  unfold bins_of, wrapped_of, mask_of. intros H. rewrite H.
  destruct found as [[bins wrapped] mask]. split; [reflexivity|].
  unfold get_lst_bins in H. destruct edges as [|e0 rest]; [discriminate|].
  destruct (digitize (map (wrap e0) lsts) (e0 :: rest)) as [places|e] eqn:Ed;
    [|discriminate].
  injection H as <- <- <-.
  assert (Hp : List.length places = List.length lsts).
  { unfold digitize in Ed.
    destruct (non_decreasing (e0 :: rest));
      [|destruct (non_increasing (e0 :: rest)); [|discriminate]];
      injection Ed as <-; now rewrite !length_map. }
  rewrite !length_map. auto.
Qed.

Lemma get_lst_bins_monotonic (lsts edges : list Q) :
  edges <> [] -> non_decreasing edges = true \/ non_increasing edges = true ->
  exists found, get_lst_bins lsts edges = Ok found.
Proof.
  intros Hne Hmono. destruct edges as [|e0 rest]; [congruence|].
  unfold get_lst_bins, digitize.
  destruct (non_decreasing (e0 :: rest)); [now eexists|].
  destruct Hmono as [Hm|Hm]; [discriminate|]. rewrite Hm. now eexists.
Qed.


(** Strictly increasing edges lie above their first one. *)
Lemma increasing_above_head (a : Q) (rest : list Q) :
  diff_all_positive (a :: rest) = true -> Forall (fun e => a < e) rest.
Proof.
  revert a. induction rest as [|b rest IH]; intros a H; [constructor|].
  change (Qlt_bool 0 (b - a) && diff_all_positive (b :: rest) = true) in H.
  apply andb_true_iff in H. destruct H as [Hab Hrest].
  apply Qlt_bool_iff in Hab. constructor; [lra|].
  eapply Forall_impl; [|apply IH, Hrest]. intros e He. simpl in He. lra.
Qed.

Lemma increasing_tail (a : Q) (rest : list Q) :
  diff_all_positive (a :: rest) = true -> diff_all_positive rest = true.
Proof.
  destruct rest as [|b rest]; [reflexivity|].
  intros H. change (Qlt_bool 0 (b - a) && diff_all_positive (b :: rest) = true) in H.
  apply andb_true_iff in H. tauto.
Qed.

Lemma increasing_non_decreasing (edges : list Q) :
  diff_all_positive edges = true -> non_decreasing edges = true.
Proof.
  induction edges as [|a rest IH]; [reflexivity|].
  destruct rest as [|b rest]; [reflexivity|]. intros H.
  change (Qlt_bool 0 (b - a) && diff_all_positive (b :: rest) = true) in H.
  apply andb_true_iff in H. destruct H as [Hab Hrest].
  change (Qle_bool a b && non_decreasing (b :: rest) = true).
  rewrite (IH Hrest), andb_true_r. apply Qle_bool_iff.
  apply Qlt_bool_iff in Hab. lra.
Qed.

(** On strictly increasing edges [get_lst_bins] returns. *)
Lemma get_lst_bins_increasing (lsts edges : list Q) :
  diff_all_positive edges = true -> edges <> [] ->
  get_lst_bins lsts edges =
    Ok (bins_of lsts edges, wrapped_of lsts edges, mask_of lsts edges) /\
  List.length (bins_of lsts edges) = List.length lsts /\
  List.length (wrapped_of lsts edges) = List.length lsts /\
  List.length (mask_of lsts edges) = List.length lsts.
Proof.
  intros Hinc Hne.
  destruct (@get_lst_bins_monotonic lsts edges Hne) as [found Hfound].
  { left. now apply increasing_non_decreasing. }
  destruct (@get_lst_bins_returned lsts edges found Hfound) as (-> & H1 & H2 & H3 & _).
  auto.
Qed.

(** For increasing edges the count of [digitize_right] is the place where
    [x] belongs: the edges before it are below [x], the others are not. *)
Lemma digitize_right_spec (x : Q) (edges : list Q) :
  diff_all_positive edges = true ->
  (digitize_right x edges <= List.length edges)%nat /\
  (forall i, (i < digitize_right x edges)%nat -> nth i edges 0 < x) /\
  (forall i, (digitize_right x edges <= i < List.length edges)%nat ->
             x <= nth i edges 0).
Proof.
  unfold digitize_right. induction edges as [|a rest IH]; intros Hinc.
  - simpl. repeat split; intros; lia.
  - specialize (IH (@increasing_tail _ _ Hinc)). destruct IH as (IH0 & IH1 & IH2).
    simpl filter. destruct (Qlt_bool a x) eqn:E.
    + apply Qlt_bool_iff in E. simpl. repeat split.
      * lia.
      * intros [|i] Hi; [exact E | apply IH1; lia].
      * intros [|i] Hi; [lia | apply IH2; lia].
    + apply Qlt_bool_false in E.
      pose proof (@increasing_above_head _ _ Hinc) as Habove.
      assert (Hnone : filter (fun e => Qlt_bool e x) rest = []).
      { clear - E Habove. induction Habove as [|b rest Hb _ IH]; [reflexivity|].
        simpl. destruct (Qlt_bool b x) eqn:Eb; [|exact IH].
        apply Qlt_bool_iff in Eb. lra. }
      rewrite Hnone. simpl. repeat split.
      * lia.
      * intros i Hi. lia.
      * intros [|i] Hi; [exact E|].
        rewrite Forall_forall in Habove.
        assert (Hin : In (nth i rest 0) rest) by (apply nth_In; lia).
        specialize (Habove _ Hin). simpl in Habove. simpl. lra.
Qed.

Lemma get_lst_bins_nth (lsts edges : list Q) (t : nat) :
  diff_all_positive edges = true -> edges <> [] ->
  (t < List.length lsts)%nat ->
  nth t (bins_of lsts edges) 0%Z =
    (Z.of_nat (digitize_right (nth t (wrapped_of lsts edges) 0%Q) edges) - 1)%Z /\
  nth t (mask_of lsts edges) false =
    ((0 <=? nth t (bins_of lsts edges) 0%Z)%Z &&
     (nth t (bins_of lsts edges) 0%Z <? Z.of_nat (List.length edges) - 1)%Z).
Proof.
  intros Hinc Hne Ht. destruct edges as [|e0 rest]; [congruence|].
  pose proof (@get_lst_bins_non_decreasing lsts e0 rest
                (@increasing_non_decreasing (e0 :: rest) Hinc)) as Hg.
  cbv zeta in Hg.
  unfold bins_of, wrapped_of, mask_of. rewrite Hg.
  set (w := map (wrap e0) lsts).
  assert (Hw : List.length w = List.length lsts) by (unfold w; now rewrite !length_map).
  split.
  - rewrite map_map.
    rewrite (nth_indep _ 0%Z
               ((fun x => (Z.of_nat (digitize_right x (e0 :: rest)) - 1)%Z) 0%Q))
      by (rewrite length_map; lia).
    apply (map_nth (fun x => (Z.of_nat (digitize_right x (e0 :: rest)) - 1)%Z)).
  - set (bins := map _ (map _ w)).
    rewrite (nth_indep _ false
               ((fun b => (0 <=? b)%Z &&
                          (b <? Z.of_nat (List.length (e0 :: rest)) - 1)%Z) 0%Z))
      by (unfold bins; rewrite !length_map; lia).
    apply (map_nth (fun b => (0 <=? b)%Z &&
                             (b <? Z.of_nat (List.length (e0 :: rest)) - 1)%Z)).
Qed.

(** X5.  For strictly increasing edges [get_lst_bins] returns, and the bins
    are open on the left and closed on the right: an integration is kept
    exactly when its wrapped LST lies above the first edge and not above
    the last one, and a kept integration with bin index [b] has
    [edges[b] < lst <= edges[b+1]]. *)
Theorem get_lst_bins_membership (lsts edges : list Q) (t : nat) :
  diff_all_positive edges = true -> edges <> [] -> (t < List.length lsts)%nat ->
  let x := nth t (wrapped_of lsts edges) 0 in
  let b := nth t (bins_of lsts edges) 0%Z in
  get_lst_bins lsts edges =
    Ok (bins_of lsts edges, wrapped_of lsts edges, mask_of lsts edges) /\
  (nth t (mask_of lsts edges) false = true <->
   hd 0 edges < x /\ x <= last edges 0) /\
  (nth t (mask_of lsts edges) false = true ->
   (0 <= b)%Z /\ (Z.to_nat b + 1 < List.length edges)%nat /\
   nth (Z.to_nat b) edges 0 < x /\ x <= nth (Z.to_nat b + 1) edges 0).
Proof.
  intros Hinc Hne Ht x b.
  split; [apply (@get_lst_bins_increasing lsts edges Hinc Hne)|].
  destruct (@get_lst_bins_nth lsts edges t Hinc Hne Ht) as [Hb Hm].
  fold x in Hb. fold b in Hb, Hm.
  destruct (@digitize_right_spec x edges Hinc) as (Hc0 & Hc1 & Hc2).
  set (c := digitize_right x edges) in *.
  assert (Hlen : (0 < List.length edges)%nat) by (destruct edges; [congruence | simpl; lia]).
  assert (Hmask : nth t (mask_of lsts edges) false = true <->
                  (1 <= c)%nat /\ (c < List.length edges)%nat).
  { rewrite Hm, andb_true_iff, Z.leb_le, Z.ltb_lt. lia. }
  assert (Hhd : hd 0 edges = nth 0 edges 0) by (destruct edges; reflexivity).
  assert (Hlast : last edges 0 = nth (List.length edges - 1) edges 0).
  { clear - Hne. induction edges as [|a [|a' rest] IH]; [congruence | reflexivity |].
    change (last (a :: a' :: rest) 0) with (last (a' :: rest) 0).
    rewrite IH by discriminate. simpl. now rewrite Nat.sub_0_r. }
  split.
  - rewrite Hmask, Hhd, Hlast. split.
    + intros [H1 H2]. split; [apply Hc1; lia | apply Hc2; lia].
    + intros [H1 H2]. split.
      * destruct (Nat.le_gt_cases 1 c) as [|Hlt]; [assumption|].
        assert (x <= nth 0 edges 0) by (apply Hc2; lia). lra.
      * destruct (Nat.lt_ge_cases c (List.length edges)) as [|Hge]; [assumption|].
        assert (nth (List.length edges - 1) edges 0 < x) by (apply Hc1; lia). lra.
  - intros Hk. apply Hmask in Hk. destruct Hk as [H1 H2].
    assert (Hbz : Z.to_nat b = (c - 1)%nat) by lia.
    rewrite Hbz. repeat split; try lia.
    + apply Hc1. lia.
    + apply Hc2. lia.
Qed.

End Bins.


(** An LST exactly on the first edge is not binned, one exactly on the last
    edge is. *)
Lemma get_lst_bins_membership_witness :
  nth 0 (mask_of (A := binary64) [1; 3] [1; 2; 3]) false = true <->
  hd 0 [1; 2; 3] < nth 0 (wrapped_of (A := binary64) [1; 3] [1; 2; 3]) 0 /\
  nth 0 (wrapped_of (A := binary64) [1; 3] [1; 2; 3]) 0 <= last [1; 2; 3] 0.
Proof.
  apply (@get_lst_bins_membership binary64 [1; 3] [1; 2; 3] 0).
  - reflexivity.
  - discriminate.
  - simpl. lia.
Defined.

(** The LSTs -1 and 7 against the edges 0, 1, 2: -1 is wrapped to the
    double next to -1 + 2*pi and falls outside, 7 is wrapped into the
    first bin. *)
Example get_lst_bins_edges_example :
  bins_of (A := binary64) [1 # 2; 3 # 2; 5 # 2; -1; 7] [0; 1; 2] = [0; 1; 2; 2; 0]%Z /\
  mask_of (A := binary64) [1 # 2; 3 # 2; 5 # 2; -1; 7] [0; 1; 2]
  = [true; true; false; false; true].
Proof. vm_compute. split; reflexivity. Qed.

(** The remainder of -1e-17 is rounded up to [2*pi] itself. *)
Example np_mod_rounds_up :
  Qred (np_mod (A := binary64)
          (-6490371073168535 # 649037107316853453566312041152512) two_pi)
  = two_pi.
Proof. vm_compute. reflexivity. Qed.

Example get_lst_bins_no_edges :
  get_lst_bins (A := binary64) [1; 2] [] = Raise IndexError.
Proof. reflexivity. Qed.

End LstBinEdgeFacts.

(** ** [simple_lst_bin]: what a successful call returns *)

Module LstBinOutputFacts.

Import SimpleLstBin Binary64 SimpleLstBinFacts LstBinEdgeFacts LstBinViews LstBinFiles.
Local Open Scope nat_scope.

Lemma select_map_filter (X : Type) (keep : X -> bool) (l : list X) :
  select (map keep l) l = filter keep l.
Proof.
  induction l as [|x l IH]; simpl; [reflexivity|].
  destruct (keep x); now rewrite IH.
Qed.

Lemma select_length (X : Type) (mask : list bool) (l : list X) :
  List.length mask = List.length l ->
  List.length (select mask l) = count_occ bool_dec mask true.
Proof.
  revert l. induction mask as [|b mask IH]; intros [|x l] H; simpl in *;
    try reflexivity; try discriminate.
  injection H as H. destruct b; simpl; rewrite IH by exact H.
  - destruct (bool_dec true true); [reflexivity | congruence].
  - destruct (bool_dec false true); [discriminate | reflexivity].
Qed.

Lemma rows_in_bin_cons (b : Z) (bins : list Z) (i : nat) :
  rows_in_bin (b :: bins) i =
  (if (b =? Z.of_nat i)%Z then 1 else 0) + rows_in_bin bins i.
Proof.
  unfold rows_in_bin. simpl. destruct (b =? Z.of_nat i)%Z.
  - destruct (bool_dec true true); [reflexivity | congruence].
  - destruct (bool_dec false true); [discriminate | reflexivity].
Qed.

(** Dropping the integrations outside the grid does not change the count
    of any bin of the grid. *)
Lemma rows_in_bin_filter (nbins : Z) (bins : list Z) (i : nat) :
  (Z.of_nat i < nbins)%Z ->
  rows_in_bin (filter (in_grid nbins) bins) i = rows_in_bin bins i.
Proof.
  intros Hi. induction bins as [|b bins IH]; [reflexivity|].
  simpl filter. rewrite rows_in_bin_cons. unfold in_grid at 1.
  destruct ((0 <=? b)%Z && (b <? nbins)%Z) eqn:E.
  - rewrite rows_in_bin_cons, IH. reflexivity.
  - rewrite IH. destruct (b =? Z.of_nat i)%Z eqn:Eb; [|reflexivity].
    apply Z.eqb_eq in Eb. apply andb_false_iff in E.
    rewrite Z.leb_gt, Z.ltb_ge in E. lia.
Qed.

Lemma one_bin_each (nbins : nat) (b : Z) (start : nat) :
  list_sum (map (fun i => if (b =? Z.of_nat i)%Z then 1 else 0) (seq start nbins)) =
  if (Z.of_nat start <=? b)%Z && (b <? Z.of_nat (start + nbins))%Z then 1 else 0.
Proof.
  revert start. induction nbins as [|n IH]; intros start; simpl.
  - destruct (Z.of_nat start <=? b)%Z eqn:E1, (b <? Z.of_nat (start + 0))%Z eqn:E2;
      try reflexivity.
    apply Z.leb_le in E1. apply Z.ltb_lt in E2. lia.
  - rewrite IH.
    destruct (b =? Z.of_nat start)%Z eqn:E0;
    destruct (Z.of_nat (S start) <=? b)%Z eqn:E1;
    destruct (b <? Z.of_nat (S start + n))%Z eqn:E2;
    destruct (Z.of_nat start <=? b)%Z eqn:E3;
    destruct (b <? Z.of_nat (start + S n))%Z eqn:E4; simpl; try reflexivity;
    rewrite ?Z.eqb_eq, ?Z.eqb_neq, ?Z.leb_le, ?Z.leb_gt, ?Z.ltb_lt, ?Z.ltb_ge in *;
    lia.
Qed.

(** The bins of the grid share out the integrations inside the grid. *)
Lemma rows_in_bin_total (nbins : nat) (bins : list Z) :
  list_sum (map (rows_in_bin bins) (seq 0 nbins)) =
  List.length (filter (in_grid (Z.of_nat nbins)) bins).
Proof.
  induction bins as [|b bins IH].
  - simpl. generalize (seq 0 nbins). intros l.
    induction l as [|i l IHl]; [reflexivity|].
    simpl. unfold rows_in_bin at 1. simpl. exact IHl.
  - assert (E : forall l,
                list_sum (map (rows_in_bin (b :: bins)) l) =
                list_sum (map (fun i => if (b =? Z.of_nat i)%Z then 1 else 0) l) +
                list_sum (map (rows_in_bin bins) l)).
    { intros l. induction l as [|i l IHl]; simpl; [reflexivity|].
      rewrite rows_in_bin_cons, IHl. lia. }
    rewrite E, IH, one_bin_each. simpl filter. unfold in_grid at 2.
    change (Z.of_nat 0) with 0%Z. simpl (0 + nbins).
    destruct ((0 <=? b)%Z && (b <? Z.of_nat nbins)%Z); reflexivity.
Qed.

Lemma bin_centres_length {A : Rounding} (edges : list Q) :
  List.length (bin_centres edges) = List.length edges - 1.
Proof.
  induction edges as [|a [|b rest] IH]; try reflexivity.
  change (S (List.length (bin_centres (b :: rest))) = List.length (a :: b :: rest) - 1).
  rewrite IH. simpl. lia.
Qed.

Lemma select_cells_length (X : Type) (stride : nat) (mask : list bool) :
  forall buf : list X,
    List.length buf = List.length mask * stride ->
    List.length (select_cells stride mask buf) = count_occ bool_dec mask true * stride.
Proof.
  induction mask as [|b mask IH]; intros buf H; [reflexivity|].
  simpl in H. simpl select_cells. rewrite length_app, IH.
  - destruct b; simpl.
    + destruct (bool_dec true true); [|congruence].
      rewrite length_firstn. simpl. lia.
    + destruct (bool_dec false true); [discriminate | reflexivity].
  - rewrite length_skipn. lia.
Qed.

(** Selecting rows of a well-formed array by a mask over its first axis
    gives a well-formed array. *)
Lemma select_rows_well_formed (X : Type) (mask : list bool) (a : ndarray X)
  (n0 : nat) (rest : list nat) :
  shape a = n0 :: rest -> List.length mask = n0 -> well_formed a ->
  well_formed (select_rows mask a).
Proof.
  unfold well_formed, select_rows. intros Hs Hm Hwf. cbn [shape cells].
  rewrite Hs in *. cbn [tl]. simpl size in *.
  rewrite select_cells_length by (rewrite Hwf, Hm; reflexivity). reflexivity.
Qed.

Lemma in_grid_mask {A : Rounding} (lsts edges : list Q) :
  mask_of lsts edges =
  map (in_grid (Z.of_nat (List.length edges) - 1)) (bins_of lsts edges).
Proof.
  unfold mask_of, bins_of, get_lst_bins. destruct edges as [|e0 rest]; [reflexivity|].
  destruct (digitize (map (wrap e0) lsts) (e0 :: rest)); reflexivity.
Qed.

Lemma last_axis_of_required (X : Type) (a : ndarray X) (n1 n2 n3 n4 : nat) :
  shape a = [n1; n2; n3; n4] -> last_axis a = Ok n4.
Proof. intros H. unfold last_axis. rewrite H. reflexivity. Qed.

Lemma shape_eqb_refl (shp : list nat) : shape_eqb shp shp = true.
Proof. unfold shape_eqb. destruct (list_eq_dec Nat.eq_dec shp shp); congruence. Qed.

Lemma nth_map_seq0 (X : Type) (f : nat -> X) (n i : nat) (d : X) :
  i < n -> nth i (map f (seq 0 n)) d = f i.
Proof.
  intros Hi. rewrite (nth_indep _ d (f 0)) by (rewrite length_map, length_seq; exact Hi).
  rewrite (map_nth f (seq 0 n) 0 i). rewrite seq_nth by exact Hi. reflexivity.
Qed.

Section Output.

Context {A : Rounding}.

(** [fuel] is the number of rounds the loops of [adjust_lst_bin_edges] are
    followed for. *)
Variable fuel : nat.

Variables (C N : Type) (one : N).
Variable lst_rephase_vectorized :
  ndarray C -> list vec3 -> list Q -> list Q -> Q -> ndarray C.

(** Rephasing works in place: it leaves the shape of the data alone. *)
Hypothesis rephase_keeps_shape :
  forall d bls freqs shift lat,
    shape (lst_rephase_vectorized d bls freqs shift lat) = shape d.

Variables (data : ndarray C) (data_lsts : list Q) (baselines : list (nat * nat)).
Variables (freq_array : list Q).
Variables (flags : option (ndarray bool)) (nsamples : option (ndarray N)).
Variables (rephase : bool) (antpos : option (list vec3)) (lat : Q) (w : world).
Variables (npols : nat) (adjusted : list Q).

Hypothesis data_shape :
  shape data = [List.length data_lsts; List.length baselines;
                List.length freq_array; npols].
Hypothesis few_pols : npols <= 4.
Hypothesis flags_shape : forall f, flags = Some f -> shape f = shape data.
Hypothesis nsamples_shape : forall n, nsamples = Some n -> shape n = shape data.
Hypothesis two_edges : 2 <= List.length (lst_bin_edges w).
Hypothesis edges_adjusted :
  adjust_lst_bin_edges fuel (lst_bin_edges w) = Some (Ok adjusted).
Hypothesis edges_increase : diff_all_positive adjusted = true.
Hypothesis positions_known :
  rephase = true ->
  exists pos bls, antpos = Some pos /\ baseline_vectors pos baselines = Ok bls.

Let nbins := List.length adjusted - 1.
Let bins := bins_of data_lsts adjusted.
Let trailing := [List.length baselines; List.length freq_array; npols].

Let flags0 : ndarray bool :=
  match flags with Some f => f | None => full (shape data) false end.
Let nsamples0 : ndarray N :=
  match nsamples with Some n => n | None => full (shape data) one end.

Lemma adjusted_length : List.length adjusted = List.length (lst_bin_edges w).
Proof. exact (@adjust_lst_bin_edges_length A fuel _ _ edges_adjusted). Qed.

(** [get_lst_bins] returns on the adjusted edges. *)
Lemma adjusted_bins :
  get_lst_bins data_lsts adjusted =
    Ok (bins_of data_lsts adjusted, wrapped_of data_lsts adjusted,
        mask_of data_lsts adjusted) /\
  List.length (bins_of data_lsts adjusted) = List.length data_lsts /\
  List.length (wrapped_of data_lsts adjusted) = List.length data_lsts /\
  List.length (mask_of data_lsts adjusted) = List.length data_lsts.
Proof.
  apply get_lst_bins_increasing; [exact edges_increase|].
  intros E. pose proof adjusted_length as Hlen. rewrite E in Hlen. simpl in Hlen. lia.
Qed.

Lemma flags0_shape : shape flags0 = shape data.
Proof. unfold flags0. destruct flags; [now apply flags_shape | reflexivity]. Qed.

Lemma nsamples0_shape : shape nsamples0 = shape data.
Proof. unfold nsamples0. destruct nsamples; [now apply nsamples_shape | reflexivity]. Qed.

(** The shapes of the arrays [split_bins] makes out of an array whose
    trailing axes are [trailing]. *)
Lemma split_bins_shapes (X : Type) (a : ndarray X) (grid : list Z) (n : nat) :
  tl (shape a) = trailing ->
  map (@shape X)
      (map (fun lstbin =>
              let mask := map (fun g => (g =? Z.of_nat lstbin)%Z) grid in
              if existsb (fun b => b) mask
              then select_rows mask a
              else {| shape := 0 :: trailing; cells := [] |}) (seq 0 n))
  = map (fun i => rows_in_bin grid i :: trailing) (seq 0 n).
Proof.
  intros Htl. rewrite map_map. apply map_ext. intros i. cbv zeta.
  destruct (existsb (fun b => b) (map (fun g => (g =? Z.of_nat i)%Z) grid)) eqn:E.
  - unfold select_rows. cbn [shape]. rewrite Htl. reflexivity.
  - cbn [shape]. f_equal. unfold rows_in_bin. symmetry.
    apply count_occ_not_In. intros Hin.
    assert (Hex : existsb (fun b => b) (map (fun g => (g =? Z.of_nat i)%Z) grid) = true).
    { apply existsb_exists. exists true. auto. }
    congruence.
Qed.

Lemma rows_in_bin_ext (grid : list Z) (n : nat) :
  n <= nbins ->
  map (fun i => rows_in_bin (select (mask_of data_lsts adjusted) bins) i :: trailing)
      (seq 0 n)
  = map (fun i => rows_in_bin bins i :: trailing) (seq 0 n).
Proof.
  intros Hn. apply map_ext_in. intros i Hi. apply in_seq in Hi. f_equal.
  unfold bins. rewrite in_grid_mask, select_map_filter.
  apply rows_in_bin_filter. unfold nbins in Hn. lia.
Qed.

Lemma full_well_formed (X : Type) (shp : list nat) (x : X) : well_formed (full shp x).
Proof. unfold well_formed, full. cbn [cells shape]. apply repeat_length. Qed.

Lemma split_bins_well_formed (X : Type) (a : ndarray X) (grid : list Z) (n : nat) :
  shape a = List.length grid :: trailing -> well_formed a ->
  Forall (@well_formed X)
      (map (fun lstbin =>
              let mask := map (fun g => (g =? Z.of_nat lstbin)%Z) grid in
              if existsb (fun b => b) mask
              then select_rows mask a
              else {| shape := 0 :: trailing; cells := [] |}) (seq 0 n)).
Proof.
  intros Hs Hwf. apply Forall_map, Forall_forall. intros i _. cbv zeta.
  destruct (existsb _ _).
  - eapply select_rows_well_formed; [exact Hs | apply length_map | exact Hwf].
  - reflexivity.
Qed.

Lemma kept_rows (X : Type) (a : ndarray X) :
  shape a = shape data -> well_formed a ->
  shape (select_rows (mask_of data_lsts adjusted) a) =
    List.length (select (mask_of data_lsts adjusted) bins) :: trailing /\
  well_formed (select_rows (mask_of data_lsts adjusted) a).
Proof.
  intros Ha Hwf.
  destruct adjusted_bins as (_ & Hb & _ & Hm). fold bins in Hb.
  split.
  - unfold select_rows. cbn [shape]. rewrite Ha, data_shape. cbn [tl].
    rewrite select_length by congruence. reflexivity.
  - eapply select_rows_well_formed; [rewrite Ha; exact data_shape | exact Hm | exact Hwf].
Qed.

(** When the adjustment of the caller's edges comes to an end with edges
    that increase, the call returns.  The edges have been adjusted in
    place, the result has one entry per bin, the arrays of bin [i] hold
    one row for every integration whose bin index is [i], and arrays made
    from well-formed arrays are well-formed. *)
Lemma simple_lst_bin_returns :
  exists d f n,
    simple_lst_bin one lst_rephase_vectorized fuel data data_lsts baselines freq_array
                   flags nsamples rephase antpos lat w
    = Some ({| lst_bin_edges := adjusted;
               entered := (entered w ++ [Binning]) ++
                          (if rephase then [Rephasing] else []) |},
            Ok (bin_centres adjusted, d, f, n)) /\
    (map (@shape C) d = map (fun i => rows_in_bin bins i :: trailing) (seq 0 nbins) /\
     map (@shape bool) f = map (fun i => rows_in_bin bins i :: trailing) (seq 0 nbins) /\
     map (@shape N) n = map (fun i => rows_in_bin bins i :: trailing) (seq 0 nbins)) /\
    ((well_formed data ->
      (forall a bls freqs shift lt,
          well_formed a -> well_formed (lst_rephase_vectorized a bls freqs shift lt)) ->
      Forall (@well_formed C) d) /\
     (well_formed flags0 -> Forall (@well_formed bool) f) /\
     (well_formed nsamples0 -> Forall (@well_formed N) n)).
Proof.
  unfold simple_lst_bin.
  unfold bind at 1. unfold lift at 1. rewrite (last_axis_of_required data data_shape).
  rewrite bind_raise_if.
  replace (4 <? npols) with false by (symmetry; apply Nat.ltb_ge; exact few_pols).
  rewrite bind_raise_if. rewrite <- data_shape, shape_eqb_refl. cbn [negb].
  rewrite bind_raise_if. fold flags0. rewrite flags0_shape, shape_eqb_refl. cbn [negb].
  rewrite bind_raise_if. fold nsamples0. rewrite nsamples0_shape, shape_eqb_refl.
  cbn [negb].
  unfold bind at 1. unfold read_edges at 1.
  rewrite bind_raise_if.
  replace (List.length (lst_bin_edges w) <? 2) with false
    by (symmetry; apply Nat.ltb_ge; exact two_edges).
  unfold bind at 1. unfold run at 1. rewrite edges_adjusted.
  unfold bind at 1. unfold write_edges at 1.
  rewrite bind_raise_if. rewrite edges_increase. cbn [negb].
  unfold bind at 1. unfold enter at 1. cbn [lst_bin_edges entered].
  unfold bind at 1. unfold lift at 1. rewrite (proj1 adjusted_bins).
  cbv iota beta. fold bins.
  set (mask := mask_of data_lsts adjusted).
  set (grid := select mask bins).
  assert (Htl : forall X (a : ndarray X), shape a = shape data ->
                  tl (shape (select_rows mask a)) = trailing).
  { intros X a Ha. unfold select_rows. cbn [shape tl]. rewrite Ha, data_shape.
    reflexivity. }
  rewrite bin_centres_length. fold nbins.
  destruct rephase eqn:Hre.
  - destruct (positions_known eq_refl) as (pos & bls & -> & Hbls).
    unfold bind at 1. unfold bind at 1. unfold enter at 1.
    cbn [lst_bin_edges entered].
    unfold bind at 1. unfold lift at 1. rewrite Hbls. unfold ret at 1.
    unfold split_bins.
    eexists _, _, _. split; [reflexivity|]. split; [split; [|split] | split; [|split]].
    + rewrite split_bins_shapes by (rewrite rephase_keeps_shape; now apply Htl).
      now apply rows_in_bin_ext.
    + rewrite split_bins_shapes by (apply Htl, flags0_shape).
      now apply rows_in_bin_ext.
    + rewrite split_bins_shapes by (apply Htl, nsamples0_shape).
      now apply rows_in_bin_ext.
    + intros Hwf Hkeep. apply split_bins_well_formed.
      * rewrite rephase_keeps_shape. now apply kept_rows.
      * apply Hkeep. now apply kept_rows.
    + intros Hwf. apply split_bins_well_formed; apply kept_rows;
        auto using flags0_shape.
    + intros Hwf. apply split_bins_well_formed; apply kept_rows;
        auto using nsamples0_shape.
  - unfold bind at 1. unfold ret at 1. unfold split_bins.
    rewrite app_nil_r.
    eexists _, _, _. split; [reflexivity|]. split; [split; [|split] | split; [|split]].
    + rewrite split_bins_shapes by (now apply Htl).
      now apply rows_in_bin_ext.
    + rewrite split_bins_shapes by (apply Htl, flags0_shape).
      now apply rows_in_bin_ext.
    + rewrite split_bins_shapes by (apply Htl, nsamples0_shape).
      now apply rows_in_bin_ext.
    + intros Hwf _. apply split_bins_well_formed; now apply kept_rows.
    + intros Hwf. apply split_bins_well_formed; apply kept_rows;
        auto using flags0_shape.
    + intros Hwf. apply split_bins_well_formed; apply kept_rows;
        auto using nsamples0_shape.
Qed.

Lemma count_true_map (X : Type) (keep : X -> bool) (l : list X) :
  count_occ bool_dec (map keep l) true = List.length (filter keep l).
Proof.
  induction l as [|x l IH]; simpl; [reflexivity|].
  destruct (keep x); simpl.
  - destruct (bool_dec true true); [now rewrite IH | congruence].
  - destruct (bool_dec false true); [discriminate | exact IH].
Qed.

(** X6.  When the arguments pass the checks and the adjustment of the
    caller's edges comes to an end with edges that increase, the call
    returns, with the adjusted edges in the caller's array.  It returns
    one bin centre and one array of data,
    flags and samples per bin; the arrays of bin [i] have the shape (rows,
    nbl, nfreq, npol) with one row for every integration whose bin index is
    [i]; and the rows of all bins together are the integrations that
    [get_lst_bins] keeps, no more and no less. *)
Theorem simple_lst_bin_bins :
  exists d f n,
    simple_lst_bin one lst_rephase_vectorized fuel data data_lsts baselines freq_array
                   flags nsamples rephase antpos lat w
    = Some ({| lst_bin_edges := adjusted;
               entered := (entered w ++ [Binning]) ++
                          (if rephase then [Rephasing] else []) |},
            Ok (bin_centres adjusted, d, f, n)) /\
    List.length (bin_centres adjusted) = List.length adjusted - 1 /\
    map (@shape C) d =
      map (fun i => rows_in_bin (bins_of data_lsts adjusted) i ::
                    [List.length baselines; List.length freq_array; npols])
          (seq 0 (List.length adjusted - 1)) /\
    map (@shape bool) f =
      map (fun i => rows_in_bin (bins_of data_lsts adjusted) i ::
                    [List.length baselines; List.length freq_array; npols])
          (seq 0 (List.length adjusted - 1)) /\
    map (@shape N) n =
      map (fun i => rows_in_bin (bins_of data_lsts adjusted) i ::
                    [List.length baselines; List.length freq_array; npols])
          (seq 0 (List.length adjusted - 1)) /\
    list_sum (map (rows_in_bin (bins_of data_lsts adjusted))
                  (seq 0 (List.length adjusted - 1)))
    = count_occ bool_dec (mask_of data_lsts adjusted) true.
Proof.
  destruct simple_lst_bin_returns as (d & f & n & Hcall & (Hd & Hf & Hn) & _).
  exists d, f, n. split; [exact Hcall|]. split; [apply bin_centres_length|].
  split; [exact Hd|]. split; [exact Hf|]. split; [exact Hn|].
  rewrite rows_in_bin_total, in_grid_mask, count_true_map.
  pose proof adjusted_length as Hlen.
  replace (Z.of_nat (List.length adjusted - 1)) with (Z.of_nat (List.length adjusted) - 1)%Z
    by lia.
  reflexivity.
Qed.

(** X7.  When the data and the given flags and sample counts hold as many
    cells as their shapes ask for, and rephasing keeps it so, every array
    the call returns does. *)
Theorem simple_lst_bin_well_formed :
  well_formed data ->
  (forall f, flags = Some f -> well_formed f) ->
  (forall n, nsamples = Some n -> well_formed n) ->
  (forall a bls freqs shift lt,
      well_formed a -> well_formed (lst_rephase_vectorized a bls freqs shift lt)) ->
  exists w' centres d f n,
    simple_lst_bin one lst_rephase_vectorized fuel data data_lsts baselines freq_array
                   flags nsamples rephase antpos lat w
    = Some (w', Ok (centres, d, f, n)) /\
    Forall (@well_formed C) d /\ Forall (@well_formed bool) f /\
    Forall (@well_formed N) n.
Proof.
  intros Hdata Hflags Hns Hkeep.
  destruct simple_lst_bin_returns as (d & f & n & Hcall & _ & (Hd & Hf & Hn)).
  eexists _, _, d, f, n. split; [exact Hcall|]. split; [|split].
  - apply Hd; assumption.
  - apply Hf. unfold flags0. destruct flags; [now apply Hflags | apply full_well_formed].
  - apply Hn. unfold nsamples0.
    destruct nsamples; [now apply Hns | apply full_well_formed].
Qed.

(** X8.  The times that [lst_bin_files_for_baselines] sorts into the bins
    after the call line up with the rows of the binned arrays: bin [i] gets
    as many times as its arrays have rows. *)
Theorem times_in_bins_match_rows (T : Type) (times : list T) :
  List.length times = List.length data_lsts ->
  exists w' centres d f n tb,
    simple_lst_bin one lst_rephase_vectorized fuel data data_lsts baselines freq_array
                   flags nsamples rephase antpos lat w
    = Some (w', Ok (centres, d, f, n)) /\
    times_in_bins data_lsts (lst_bin_edges w') times (List.length centres) = Ok tb /\
    map (@List.length T) tb = map (fun a => hd 0 (shape a)) d /\
    map (@List.length T) tb = map (fun a => hd 0 (shape a)) f /\
    map (@List.length T) tb = map (fun a => hd 0 (shape a)) n.
Proof.
  intros Htimes.
  destruct simple_lst_bin_returns as (d & f & n & Hcall & (Hd & Hf & Hn) & _).
  assert (Hrows : forall X (l : list (ndarray X)),
             map (@shape X) l = map (fun i => rows_in_bin bins i :: trailing) (seq 0 nbins) ->
             map (fun a => hd 0 (shape a)) l = map (rows_in_bin bins) (seq 0 nbins)).
  { intros X l Hl. rewrite <- (map_map (@shape X) (hd 0)), Hl, map_map. reflexivity. }
  destruct adjusted_bins as (Hget & Hb & _). fold bins in Hb, Hget.
  assert (Htb : exists tb,
             times_in_bins data_lsts adjusted times nbins = Ok tb /\
             map (@List.length T) tb = map (rows_in_bin bins) (seq 0 nbins)).
  { unfold times_in_bins. rewrite Hget.
    destruct nbins as [|k] eqn:Ek.
    - exists []. split; reflexivity.
    - rewrite Hb, Htimes, Nat.eqb_refl. eexists. split; [reflexivity|].
      rewrite map_map. apply map_ext. intros i.
      rewrite select_length by (rewrite length_map; congruence). reflexivity. }
  destruct Htb as (tb & Htb & Hlen).
  eexists _, _, d, f, n, tb. split; [exact Hcall|]. cbn [lst_bin_edges].
  rewrite bin_centres_length. fold nbins.
  split; [exact Htb|].
  rewrite Hlen, (Hrows _ _ Hd), (Hrows _ _ Hf), (Hrows _ _ Hn). auto.
Qed.

End Output.

(** Three integrations over the edges 0, 1, 2, with rephasing towards the
    bin centres. *)
Lemma simple_lst_bin_bins_witness :
  exists w' r,
    simple_lst_bin (A := binary64) (C := Z) (N := Z) 1%Z (fun d _ _ _ _ => d) 0
      {| shape := [3; 1; 1; 2]; cells := [1; 2; 3; 4; 5; 6]%Z |}
      [1 # 2; 3 # 2; 5 # 2]%Q [(0, 1)] [100%Q] None None true
      (Some [(0, 0, 0); (1, 0, 0)]%Q) 0%Q
      {| lst_bin_edges := [0; 1; 2]%Q; entered := [] |} = Some (w', Ok r).
Proof.
  destruct (@simple_lst_bin_bins binary64 0 Z Z 1%Z (fun d _ _ _ _ => d)
              (fun _ _ _ _ _ => eq_refl)
              {| shape := [3; 1; 1; 2]; cells := [1; 2; 3; 4; 5; 6]%Z |}
              [1 # 2; 3 # 2; 5 # 2]%Q [(0, 1)] [100%Q] None None true
              (Some [(0, 0, 0); (1, 0, 0)]%Q) 0%Q
              {| lst_bin_edges := [0; 1; 2]%Q; entered := [] |} 2 [0; 1; 2]%Q)
    as (d & f & n & Hcall & _).
  - reflexivity.
  - lia.
  - discriminate.
  - discriminate.
  - simpl. lia.
  - vm_compute. reflexivity.
  - reflexivity.
  - intros _. eexists _, _. split; reflexivity.
  - rewrite Hcall. now eexists _, _.
Defined.

Lemma simple_lst_bin_well_formed_witness :
  exists w' r,
    simple_lst_bin (A := binary64) (C := Z) (N := Z) 1%Z (fun d _ _ _ _ => d) 0
      {| shape := [3; 1; 1; 2]; cells := [1; 2; 3; 4; 5; 6]%Z |}
      [1 # 2; 3 # 2; 5 # 2]%Q [(0, 1)] [100%Q] None None false None 0%Q
      {| lst_bin_edges := [0; 1; 2]%Q; entered := [] |} = Some (w', Ok r).
Proof.
  destruct (@simple_lst_bin_well_formed binary64 0 Z Z 1%Z (fun d _ _ _ _ => d)
              (fun _ _ _ _ _ => eq_refl)
              {| shape := [3; 1; 1; 2]; cells := [1; 2; 3; 4; 5; 6]%Z |}
              [1 # 2; 3 # 2; 5 # 2]%Q [(0, 1)] [100%Q] None None false None 0%Q
              {| lst_bin_edges := [0; 1; 2]%Q; entered := [] |} 2 [0; 1; 2]%Q)
    as (w' & centres & d & f & n & Hcall & _).
  - reflexivity.
  - lia.
  - discriminate.
  - discriminate.
  - simpl. lia.
  - vm_compute. reflexivity.
  - reflexivity.
  - discriminate.
  - reflexivity.
  - discriminate.
  - discriminate.
  - intros a _ _ _ _ H. exact H.
  - rewrite Hcall. now eexists _, _.
Defined.

Lemma times_in_bins_match_rows_witness :
  exists w' r,
    simple_lst_bin (A := binary64) (C := Z) (N := Z) 1%Z (fun d _ _ _ _ => d) 0
      {| shape := [3; 1; 1; 2]; cells := [1; 2; 3; 4; 5; 6]%Z |}
      [1 # 2; 3 # 2; 5 # 2]%Q [(0, 1)] [100%Q] None None false None 0%Q
      {| lst_bin_edges := [0; 1; 2]%Q; entered := [] |} = Some (w', Ok r).
Proof.
  destruct (@times_in_bins_match_rows binary64 0 Z Z 1%Z (fun d _ _ _ _ => d)
              (fun _ _ _ _ _ => eq_refl)
              {| shape := [3; 1; 1; 2]; cells := [1; 2; 3; 4; 5; 6]%Z |}
              [1 # 2; 3 # 2; 5 # 2]%Q [(0, 1)] [100%Q] None None false None 0%Q
              {| lst_bin_edges := [0; 1; 2]%Q; entered := [] |} 2 [0; 1; 2]%Q)
    with (T := nat) (times := [10; 11; 12])
    as (w' & centres & d & f & n & tb & Hcall & _).
  - reflexivity.
  - lia.
  - discriminate.
  - discriminate.
  - simpl. lia.
  - vm_compute. reflexivity.
  - reflexivity.
  - discriminate.
  - reflexivity.
  - rewrite Hcall. now eexists _, _.
Defined.

(** The times of the example: one in each bin, none for the integration
    that falls outside. *)
Example times_in_bins_example :
  times_in_bins (A := binary64) [1 # 2; 3 # 2; 5 # 2]%Q [0; 1; 2]%Q [10; 11; 12] 2
  = Ok [[10]; [11]].
Proof. vm_compute. reflexivity. Qed.

End LstBinOutputFacts.

(** ** The file-level driver: calibration files, frequencies, chunks *)

Module LstBinFilesFacts.

Import SimpleLstBin LstBinFiles.
Local Open Scope nat_scope.

(** *** [apply_calfile_rules] *)

Section Calfiles.

Variable path_exists : string -> bool.
Variables (calfile_rules : list (string * string)) (ignore_missing : bool).

Local Abbreviation rules := (apply_rules calfile_rules).
Local Abbreviation has_cal := (fun df => path_exists (apply_rules calfile_rules df)).
Local Abbreviation night_loop := (calfile_night_loop path_exists calfile_rules ignore_missing).
Local Abbreviation nights_loop := (calfile_nights_loop path_exists calfile_rules ignore_missing).

Lemma night_loop_returned (dflist : list string) :
  forall this missing this' missing',
    night_loop dflist this missing = Returned (this', missing') ->
    this' = this ++ map rules (filter has_cal dflist) /\
    missing' = missing ++ filter (fun df => negb (has_cal df)) dflist /\
    (ignore_missing = false -> filter has_cal dflist = dflist).
Proof.
  induction dflist as [|df rest IH]; intros this missing this' missing' H; simpl in H.
  - injection H as <- <-. rewrite !app_nil_r. auto.
  - simpl. destruct (path_exists (apply_rules calfile_rules df)) eqn:E; simpl.
    + apply IH in H. destruct H as (-> & -> & Hall). rewrite <- app_assoc.
      repeat split; try reflexivity. intros Hi. now rewrite Hall.
    + destruct ignore_missing eqn:Ei; [|discriminate].
      apply IH in H. destruct H as (-> & -> & Hall). rewrite <- app_assoc.
      repeat split; try reflexivity. discriminate.
Qed.

Lemma night_loop_raised (dflist : list string) :
  forall this missing e,
    night_loop dflist this missing = Raised e ->
    ignore_missing = false /\
    exists df, In df dflist /\ has_cal df = false /\ e = IOError (rules df).
Proof.
  induction dflist as [|df rest IH]; intros this missing e H; simpl in H; [discriminate|].
  destruct (path_exists (apply_rules calfile_rules df)) eqn:E.
  - apply IH in H. destruct H as (Hi & df' & Hin & Hno & He).
    split; [exact Hi|]. exists df'. simpl. auto.
  - destruct ignore_missing eqn:Ei.
    + apply IH in H. destruct H as (Hi & _). discriminate.
    + injection H as <-. split; [reflexivity|]. exists df. simpl. auto.
Qed.

Lemma night_loop_all_present (dflist : list string) :
  forall this missing,
    Forall (fun df => has_cal df = true) dflist ->
    exists this', night_loop dflist this missing = Returned (this', missing).
Proof.
  induction dflist as [|df rest IH]; intros this missing Hall; simpl.
  - eauto.
  - inversion Hall as [|? ? Hdf Hrest]; subst. rewrite Hdf. apply IH, Hrest.
Qed.

Lemma night_loop_ignoring (dflist : list string) :
  forall this missing,
    exists this' missing',
      calfile_night_loop path_exists calfile_rules true dflist this missing
      = Returned (this', missing').
Proof.
  induction dflist as [|df rest IH]; intros this missing; simpl.
  - eauto.
  - destruct (path_exists _); apply IH.
Qed.

(** Dropping the data files recorded as missing keeps the ones that have a
    calibration file. *)
Lemma filter_not_missing (dflist : list string) :
  filter (not_in (filter (fun df => negb (has_cal df)) dflist)) dflist
  = filter has_cal dflist.
Proof.
  apply filter_ext_in. intros df Hin. unfold not_in.
  destruct (path_exists (apply_rules calfile_rules df)) eqn:E.
  - apply negb_true_iff. destruct (existsb _ _) eqn:Ex; [|reflexivity].
    apply existsb_exists in Ex. destruct Ex as [x [Hx Heq]].
    apply String.eqb_eq in Heq. subst x. apply filter_In in Hx.
    destruct Hx as [_ Hx]. rewrite E in Hx. discriminate.
  - apply negb_false_iff. apply existsb_exists. exists df. split.
    + apply filter_In. split; [exact Hin | now rewrite E].
    + apply String.eqb_refl.
Qed.

Lemma nights_loop_returned (todo : list (list string)) :
  forall done cals after dfs cs,
    nights_loop done todo cals = (after, Returned (dfs, cs)) ->
    after = dfs /\
    dfs = done ++ map (filter has_cal) todo /\
    cs = cals ++ map (fun dflist => map rules (filter has_cal dflist)) todo /\
    (ignore_missing = false -> map (filter has_cal) todo = todo).
Proof.
  induction todo as [|dflist rest IH]; intros done cals after dfs cs H; simpl in H.
  - injection H as <- <- <-. rewrite !app_nil_r. auto.
  - destruct (calfile_night_loop path_exists calfile_rules ignore_missing dflist [] [])
      as [[this missing]|e] eqn:En; [|discriminate].
    apply night_loop_returned in En. destruct En as (-> & -> & Hall).
    apply IH in H. destruct H as (-> & -> & -> & Hrest).
    simpl. rewrite filter_not_missing, <- !app_assoc. simpl.
    repeat split; try reflexivity.
    intros Hi. rewrite (Hall Hi), (Hrest Hi). reflexivity.
Qed.

Lemma nights_loop_raised (todo : list (list string)) :
  forall done cals after e,
    nights_loop done todo cals = (after, Raised e) ->
    ignore_missing = false /\
    after = done ++ todo /\
    exists dflist df, In dflist todo /\ In df dflist /\ has_cal df = false /\
                      e = IOError (rules df).
Proof.
  induction todo as [|dflist rest IH]; intros done cals after e H; simpl in H;
    [discriminate|].
  destruct (calfile_night_loop path_exists calfile_rules ignore_missing dflist [] [])
    as [[this missing]|e'] eqn:En.
  - pose proof (night_loop_returned _ _ _ En) as (_ & -> & Hall).
    apply IH in H. destruct H as (Hi & -> & dfl & df & H1 & H2 & H3 & H4).
    split; [exact Hi|]. split.
    + simpl. rewrite filter_not_missing, (Hall Hi), <- app_assoc. reflexivity.
    + exists dfl, df. simpl. auto.
  - injection H as <- <-. apply night_loop_raised in En.
    destruct En as (Hi & df & Hin & Hno & He).
    split; [exact Hi|]. split; [reflexivity|].
    exists dflist, df. simpl. auto.
Qed.

Lemma nights_loop_all_present (todo : list (list string)) :
  forall done cals,
    Forall (Forall (fun df => has_cal df = true)) todo ->
    exists r, nights_loop done todo cals = (fst r, Returned r).
Proof.
  induction todo as [|dflist rest IH]; intros done cals Hall; simpl.
  - exists (done, cals). reflexivity.
  - inversion Hall as [|? ? Hn Hrest]; subst.
    destruct (night_loop_all_present [] [] Hn) as [this ->]. apply IH, Hrest.
Qed.

Lemma nights_loop_ignoring (todo : list (list string)) :
  forall done cals,
    exists r,
      calfile_nights_loop path_exists calfile_rules true done todo cals
      = (fst r, Returned r).
Proof.
  induction todo as [|dflist rest IH]; intros done cals; simpl.
  - exists (done, cals). reflexivity.
  - destruct (night_loop_ignoring dflist [] []) as (this & missing & ->).
    apply IH.
Qed.

Lemma prune_empty_map (f : string -> string) (nights : list (list string)) :
  prune_empty (map (map f) nights) = map (map f) (prune_empty nights).
Proof.
  induction nights as [|[|df night] rest IH]; simpl; [reflexivity | exact IH |].
  now rewrite IH.
Qed.

(** X9.  What [apply_calfile_rules] returns pairs up: the data files of
    every night are those of the input whose calibration file exists, in
    their order; the calibration files are their images under the rules,
    night by night and file by file, and all of them exist; the caller's
    list has become the returned one; and pruning the empty nights from
    both lists, as [lst_bin_files] does next, keeps them paired. *)
Theorem apply_calfile_rules_paired (data_files after dfs cals : list (list string)) :
  apply_calfile_rules path_exists calfile_rules ignore_missing data_files
    = (after, Returned (dfs, cals)) ->
  after = dfs /\
  dfs = map (filter has_cal) data_files /\
  cals = map (map rules) dfs /\
  Forall (Forall (fun cf => path_exists cf = true)) cals /\
  prune_empty cals = map (map rules) (prune_empty dfs).
Proof.
  unfold apply_calfile_rules. intros H. apply nights_loop_returned in H.
  destruct H as (-> & -> & -> & _). simpl.
  assert (Hc : map (fun dflist => map rules (filter has_cal dflist)) data_files
               = map (map rules) (map (filter has_cal) data_files)).
  { now rewrite map_map. }
  rewrite Hc. repeat split.
  - rewrite map_map. apply Forall_map, Forall_forall. intros dflist _.
    apply Forall_map, Forall_forall. intros df Hdf. apply filter_In in Hdf. tauto.
  - apply prune_empty_map.
Qed.

(** X10.  With [ignore_missing] off the call raises IOError exactly when
    the calibration file of some data file is missing; the error names such
    a file, and the caller's list is as it was.  When every calibration file
    exists the list comes back unchanged.  With [ignore_missing] on the
    call never raises. *)
Theorem apply_calfile_rules_missing (data_files : list (list string)) :
  (forall after e,
      apply_calfile_rules path_exists calfile_rules ignore_missing data_files
        = (after, Raised e) ->
      ignore_missing = false /\ after = data_files /\
      exists dflist df, In dflist data_files /\ In df dflist /\
                        path_exists (rules df) = false /\ e = IOError (rules df)) /\
  (Forall (Forall (fun df => path_exists (rules df) = true)) data_files ->
   exists cals,
     apply_calfile_rules path_exists calfile_rules ignore_missing data_files
       = (data_files, Returned (data_files, cals))) /\
  (ignore_missing = false ->
   forall dflist df, In dflist data_files -> In df dflist ->
                     path_exists (rules df) = false ->
   exists e,
     apply_calfile_rules path_exists calfile_rules ignore_missing data_files
       = (data_files, Raised e)) /\
  (ignore_missing = true ->
   exists r,
     apply_calfile_rules path_exists calfile_rules ignore_missing data_files
       = (fst r, Returned r)).
Proof.
  unfold apply_calfile_rules. split; [|split; [|split]].
  - intros after e H. apply nights_loop_raised in H. simpl in H. exact H.
  - intros Hall. destruct (nights_loop_all_present [] [] Hall) as [[dfs cs] Hr].
    pose proof (nights_loop_returned _ _ _ Hr) as (_ & Hd & _ & _).
    simpl in Hd, Hr. exists cs. rewrite Hr. subst dfs.
    assert (Hid : map (filter has_cal) data_files = data_files).
    { clear Hr. induction Hall as [|dflist rest Hn _ IH]; simpl; [reflexivity|].
      rewrite IH. f_equal. apply forallb_filter_id. apply forallb_forall.
      rewrite Forall_forall in Hn. exact Hn. }
    rewrite Hid. reflexivity.
  - intros Hi dflist df H1 H2 H3.
    destruct (calfile_nights_loop path_exists calfile_rules ignore_missing [] data_files [])
      as [after [[dfs cs]|e]] eqn:Hr.
    + exfalso. apply nights_loop_returned in Hr. destruct Hr as (_ & _ & _ & Hall).
      specialize (Hall Hi).
      assert (Hf : In (filter has_cal dflist) (map (filter has_cal) data_files))
        by (apply in_map, H1).
      assert (Hsame : filter has_cal dflist = dflist).
      { clear - Hall H1. induction data_files as [|l rest IH]; [contradiction|].
        simpl in Hall. injection Hall as Hl Hrest. destruct H1 as [->|H1]; auto. }
      assert (Hin : In df (filter has_cal dflist)) by (rewrite Hsame; exact H2).
      apply filter_In in Hin. destruct Hin as [_ Hin]. congruence.
    + exists e. pose proof (nights_loop_raised _ _ _ Hr) as (_ & -> & _). reflexivity.
  - intros Hi. rewrite Hi. apply nights_loop_ignoring.
Qed.

End Calfiles.

Lemma apply_calfile_rules_paired_witness :
  [["a.cal"]; []]%string = map (map (apply_rules [(".uvh5", ".cal")]%string))
                               [["a.uvh5"]; []]%string.
Proof.
  apply (@apply_calfile_rules_paired
           (fun s => negb (String.eqb s "b.cal")) [(".uvh5", ".cal")]%string true
           [["a.uvh5"; "b.uvh5"]; ["b.uvh5"]]%string
           [["a.uvh5"]; []]%string [["a.uvh5"]; []]%string [["a.cal"]; []]%string).
  vm_compute. reflexivity.
Defined.

Lemma apply_calfile_rules_missing_witness :
  exists e,
    apply_calfile_rules (fun s => negb (String.eqb s "b.cal")) [(".uvh5", ".cal")]%string
                        false [["a.uvh5"; "b.uvh5"]; ["b.uvh5"]]%string
    = ([["a.uvh5"; "b.uvh5"]; ["b.uvh5"]]%string, Raised e).
Proof.
  apply (proj1 (proj2 (proj2 (@apply_calfile_rules_missing
           (fun s => negb (String.eqb s "b.cal")) [(".uvh5", ".cal")]%string false
           [["a.uvh5"; "b.uvh5"]; ["b.uvh5"]]%string))) eq_refl
           ["b.uvh5"]%string "b.uvh5"%string).
  - simpl. auto.
  - simpl. auto.
  - vm_compute. reflexivity.
Defined.

(** [str.replace] on the cases that differ between implementations. *)
Example py_replace_examples :
  py_replace "ab" "X" "zababab.abc" = "zXXX.Xc"%string /\
  py_replace "aa" "b" "aaaaa" = "bba"%string /\
  py_replace "" "-" "abc" = "-a-b-c-"%string /\
  py_replace ".uvh5" ".calfits" "zen.2458.uvh5" = "zen.2458.calfits"%string.
Proof. repeat split. Qed.

(** *** The frequency cut of [lst_bin_files_for_baselines] *)

Section Frequencies.

Variables (F : Type) (leb : F -> F -> bool).
Variable freqs : list F.

Lemma select_forall2 (X Y : Type) (R : X -> Y -> Prop) (mask : list bool) :
  forall (xs : list X) (ys : list Y),
    Forall2 R xs ys -> Forall2 R (select mask xs) (select mask ys).
Proof.
  induction mask as [|b mask IH]; intros xs ys H.
  - destruct xs, ys; constructor.
  - destruct H as [|x y xs ys Hxy Hrest]; simpl; [constructor|].
    destruct b; [constructor; [exact Hxy|] |]; apply IH, Hrest.
Qed.

Lemma select_sorted (mask : list bool) :
  forall cs : list nat,
    StronglySorted lt cs -> StronglySorted lt (select mask cs).
Proof.
  induction mask as [|b mask IH]; intros cs H.
  - destruct cs; constructor.
  - destruct H as [|c cs Hrest Hc]; simpl; [constructor|].
    destruct b; [|apply IH, Hrest].
    constructor; [apply IH, Hrest|].
    clear - Hc. revert cs Hc. induction mask as [|b' mask IH']; intros cs Hc.
    + destruct cs; constructor.
    + destruct Hc as [|c' cs Hc' Hrest']; simpl; [constructor|].
      destruct b'; [constructor; [exact Hc'|] |]; apply IH', Hrest'.
Qed.

Lemma cut_filter (keep : F -> bool) (fc : list F * list nat) :
  fst (cut keep fc) = filter keep (fst fc).
Proof.
  unfold cut. cbn [fst snd]. generalize (fst fc). intros fs.
  induction fs as [|f fs IH]; simpl; [reflexivity|].
  destruct (keep f); now rewrite IH.
Qed.

Lemma cut_keeps (keep : F -> bool) (fc : list F * list nat) :
  Forall2 (channel_of freqs) (fst fc) (snd fc) -> StronglySorted lt (snd fc) ->
  Forall2 (channel_of freqs) (fst (cut keep fc)) (snd (cut keep fc)) /\
  StronglySorted lt (snd (cut keep fc)).
Proof.
  intros H1 H2. unfold cut. cbn [fst snd]. split.
  - apply select_forall2, H1.
  - apply select_sorted, H2.
Qed.

Lemma channels_start (start : nat) (l : list F) :
  Forall2 (fun f c => nth_error l (c - start) = Some f /\ start <= c) l
          (seq start (List.length l)).
Proof.
  revert start. induction l as [|f l IH]; intros start; simpl; constructor.
  - rewrite Nat.sub_diag. auto.
  - eapply Forall2_impl; [|apply (IH (S start))].
    intros f' c [H Hc]. split; [|lia].
    replace (c - start) with (S (c - S start)) by lia. exact H.
Qed.

Lemma seq_sorted (start len : nat) : StronglySorted lt (seq start len).
Proof.
  revert start. induction len as [|len IH]; intros start; simpl; constructor.
  - apply IH.
  - apply Forall_forall. intros c Hc. apply in_seq in Hc. lia.
Qed.

Lemma filter_filter (keep1 keep2 : F -> bool) (l : list F) :
  filter keep2 (filter keep1 l) = filter (fun f => keep1 f && keep2 f) l.
Proof.
  induction l as [|f l IH]; simpl; [reflexivity|].
  destruct (keep1 f); simpl; [destruct (keep2 f)|]; now rewrite IH.
Qed.

(** X11.  When a frequency bound is given, the frequencies kept are those
    of the input that pass the bounds, in their order; the channel numbers
    are strictly increasing and each one is the place of its frequency in
    the input.  Without any bound the frequencies are returned as they are
    and there are no channel numbers. *)
Theorem select_frequencies_channels (freq_min freq_max : option F) :
  fst (select_frequencies leb freqs freq_min freq_max)
    = filter (in_band leb freq_min freq_max) freqs /\
  match snd (select_frequencies leb freqs freq_min freq_max) with
  | None => freq_min = None /\ freq_max = None
  | Some chans =>
      (freq_min <> None \/ freq_max <> None) /\
      Forall2 (channel_of freqs) (fst (select_frequencies leb freqs freq_min freq_max)) chans /\
      StronglySorted lt chans
  end.
Proof.
  assert (H0 : Forall2 (channel_of freqs) freqs (seq 0 (List.length freqs))).
  { eapply Forall2_impl; [|apply (channels_start 0 freqs)].
    intros f c [H _]. unfold channel_of. now rewrite Nat.sub_0_r in H. }
  pose proof (seq_sorted 0 (List.length freqs)) as S0.
  unfold select_frequencies, in_band.
  set (fc0 := (freqs, seq 0 (List.length freqs))).
  assert (K0 : Forall2 (channel_of freqs) (fst fc0) (snd fc0) /\ StronglySorted lt (snd fc0))
    by (split; assumption).
  destruct freq_min as [lo|], freq_max as [hi|]; cbn [fst snd].
  - destruct K0 as [K0 K0'].
    destruct (cut_keeps (fun f => leb lo f) fc0 K0 K0') as [H1 S1].
    destruct (cut_keeps (fun f => leb f hi) _ H1 S1) as [H2 S2].
    split.
    + rewrite !cut_filter. apply filter_filter.
    + split; [left; discriminate|]. split; assumption.
  - destruct K0 as [K0 K0']. split.
    + rewrite cut_filter. apply filter_ext. intros f. now rewrite andb_true_r.
    + split; [left; discriminate|]. apply cut_keeps; assumption.
  - destruct K0 as [K0 K0']. split; [rewrite cut_filter; reflexivity|].
    split; [right; discriminate|]. apply cut_keeps; assumption.
  - split; [|auto]. symmetry. apply forallb_filter_id. apply forallb_forall. auto.
Qed.

End Frequencies.

Example select_frequencies_example :
  select_frequencies Nat.leb [100; 110; 120; 130; 140] (Some 110) (Some 130)
  = ([110; 120; 130], Some [1; 2; 3]).
Proof. reflexivity. Qed.

(** *** The frequencies of the output file *)

(** X12.  As [lst_bin_files] calls it (without [channels]),
    [create_lstbin_output_file] gives the file the frequencies that
    [lst_bin_files_for_baselines] keeps for the data, except that it takes
    a bound that is zero for no bound: the frequencies of the file are
    those kept for the bounds that are given and not zero.  So the file and
    the data have the same frequencies whenever no bound is zero. *)
Theorem create_lstbin_output_file_freqs_match (F : Type) (leb : F -> F -> bool)
  (truthy : F -> bool) (freqs : list F) (freq_min freq_max : option F) :
  create_lstbin_output_file_freqs leb truthy freqs freq_min freq_max NoChannels
  = Ok (fst (select_frequencies leb freqs (bound_given truthy freq_min)
                                (bound_given truthy freq_max))) /\
  ((forall f, freq_min = Some f -> truthy f = true) ->
   (forall f, freq_max = Some f -> truthy f = true) ->
   create_lstbin_output_file_freqs leb truthy freqs freq_min freq_max NoChannels
   = Ok (fst (select_frequencies leb freqs freq_min freq_max))).
Proof.
  assert (A : create_lstbin_output_file_freqs leb truthy freqs freq_min freq_max NoChannels
              = Ok (fst (select_frequencies leb freqs (bound_given truthy freq_min)
                                            (bound_given truthy freq_max)))).
  { unfold create_lstbin_output_file_freqs, select_frequencies, cut.
    cbn [channels_given].
    destruct (bound_given truthy freq_min) as [lo|],
             (bound_given truthy freq_max) as [hi|]; reflexivity. }
  split; [exact A|]. intros Hmin Hmax. rewrite A.
  assert (Emin : bound_given truthy freq_min = freq_min).
  { destruct freq_min as [f|]; [|reflexivity]. cbn. now rewrite (Hmin f eq_refl). }
  assert (Emax : bound_given truthy freq_max = freq_max).
  { destruct freq_max as [f|]; [|reflexivity]. cbn. now rewrite (Hmax f eq_refl). }
  now rewrite Emin, Emax.
Qed.

(** With the bounds 0 and 150 on the channels 100, 150 and 200 the file and
    the data keep 100 and 150; with only an upper bound of 0 the data keeps
    nothing and the file keeps every channel.  The channel list [-1, 0]
    takes the last and the first frequency, and the index 3 is out of
    bounds. *)
Example create_lstbin_output_file_freqs_example :
  create_lstbin_output_file_freqs Z.leb (fun f => negb (f =? 0)%Z)
    [100; 150; 200]%Z (Some 0%Z) (Some 150%Z) NoChannels = Ok [100; 150]%Z /\
  fst (select_frequencies Z.leb [100; 150; 200]%Z (Some 0%Z) (Some 150%Z))
    = [100; 150]%Z /\
  create_lstbin_output_file_freqs Z.leb (fun f => negb (f =? 0)%Z)
    [100; 150; 200]%Z None (Some 0%Z) NoChannels = Ok [100; 150; 200]%Z /\
  fst (select_frequencies Z.leb [100; 150; 200]%Z None (Some 0%Z)) = [] /\
  create_lstbin_output_file_freqs Z.leb (fun f => negb (f =? 0)%Z)
    [100; 150; 200]%Z None None (ChannelList [-1; 0]%Z) = Ok [200; 100]%Z /\
  create_lstbin_output_file_freqs Z.leb (fun f => negb (f =? 0)%Z)
    [100; 150; 200]%Z None None (ChannelList [3]%Z) = Raise IndexError.
Proof. repeat split. Qed.

Lemma create_lstbin_output_file_freqs_match_witness :
  create_lstbin_output_file_freqs Z.leb (fun f => negb (f =? 0)%Z)
    [100; 150; 200]%Z (Some 120%Z) (Some 150%Z) NoChannels
  = Ok (fst (select_frequencies Z.leb [100; 150; 200]%Z (Some 120%Z) (Some 150%Z))).
Proof.
  apply (proj2 (create_lstbin_output_file_freqs_match Z.leb (fun f => negb (f =? 0)%Z)
                  [100; 150; 200]%Z (Some 120%Z) (Some 150%Z))).
  - intros f H. injection H as <-. reflexivity.
  - intros f H. injection H as <-. reflexivity.
Defined.

(** *** The baseline chunks of [lst_bin_files] *)

Lemma firstn_plus (X : Type) (a b : nat) (l : list X) :
  firstn (a + b) l = firstn a l ++ firstn b (skipn a l).
Proof.
  revert l. induction a as [|a IH]; intros l; [reflexivity|].
  destruct l as [|x l]; simpl.
  - now rewrite firstn_nil.
  - now rewrite IH.
Qed.

Lemma firstn_min_length (X : Type) (k : nat) (l : list X) :
  firstn (Nat.min k (List.length l)) l = firstn k l.
Proof.
  destruct (Nat.le_ge_cases k (List.length l)) as [H|H].
  - now rewrite Nat.min_l.
  - rewrite Nat.min_r by exact H. now rewrite !firstn_all2 by lia.
Qed.

(** For a positive chunk size the slice of chunk [i] is the next [n]
    baselines after the first [i * n]. *)
Lemma py_slice_chunk (X : Type) (l : list X) (n i : nat) :
  py_slice l (Z.of_nat i * Z.of_nat n) ((Z.of_nat i + 1) * Z.of_nat n)
  = firstn n (skipn (i * n) l).
Proof.
  unfold py_slice, slice_bound.
  replace (Z.of_nat i * Z.of_nat n <? 0)%Z with false by (symmetry; apply Z.ltb_ge; lia).
  replace ((Z.of_nat i + 1) * Z.of_nat n <? 0)%Z with false
    by (symmetry; apply Z.ltb_ge; lia).
  replace (Z.to_nat (Z.of_nat i * Z.of_nat n)) with (i * n) by lia.
  replace (Z.to_nat ((Z.of_nat i + 1) * Z.of_nat n)) with (i * n + n) by lia.
  destruct (Nat.le_gt_cases (i * n) (List.length l)) as [H|H].
  - rewrite (Nat.min_l (i * n)) by exact H.
    replace (Nat.min (i * n + n) (List.length l) - i * n)
      with (Nat.min n (List.length (skipn (i * n) l)))
      by (rewrite length_skipn; lia).
    apply firstn_min_length.
  - rewrite (Nat.min_r (i * n)) by lia.
    rewrite !skipn_all2 by lia. now rewrite !firstn_nil.
Qed.

Lemma concat_chunks (X : Type) (l : list X) (n k : nat) :
  List.concat (map (fun i => firstn n (skipn (i * n) l)) (seq 0 k)) = firstn (k * n) l.
Proof.
  induction k as [|k IH]; [reflexivity|].
  rewrite seq_S, map_app, concat_app, IH. simpl.
  rewrite app_nil_r. symmetry. rewrite Nat.add_comm. apply firstn_plus.
Qed.

Lemma concat_nonempty (X : Type) (ls : list (list X)) :
  List.concat (filter (fun blg => 0 <? List.length blg) ls) = List.concat ls.
Proof.
  induction ls as [|[|x l] ls IH]; simpl; [reflexivity | exact IH | now rewrite IH].
Qed.

Lemma py_range_nat (k : nat) : py_range (Z.of_nat k) = map Z.of_nat (seq 0 k).
Proof. unfold py_range. now rewrite Nat2Z.id. Qed.

Lemma bl_chunks_some_nat (X : Type) (all_baselines : list X) (n : nat) :
  n <> 0 ->
  bl_chunks all_baselines (Some (Z.of_nat n))
  = Returned (filter (fun blg => 0 <? List.length blg)
               (map (fun i => firstn n (skipn (i * n) all_baselines))
                    (seq 0 (List.length all_baselines / n + 1)))).
Proof.
  intros Hn. unfold bl_chunks.
  replace (Z.of_nat n =? 0)%Z with false by (symmetry; apply Z.eqb_neq; lia).
  set (L := List.length all_baselines).
  assert (Ek : (Z.of_nat L / Z.of_nat n + 1)%Z = Z.of_nat (L / n + 1)).
  { rewrite Nat2Z.inj_add, Nat2Z.inj_div. reflexivity. }
  rewrite Ek, py_range_nat, map_map. do 2 f_equal.
  apply map_ext. intros i. apply py_slice_chunk.
Qed.

Lemma bl_chunks_none (X : Type) (all_baselines : list X) :
  bl_chunks all_baselines None
  = bl_chunks all_baselines (Some (Z.of_nat (S (List.length all_baselines)))).
Proof. unfold bl_chunks. rewrite Nat2Z.inj_succ. reflexivity. Qed.

(** X13.  With a positive [Nbls_to_load] the chunks are the baselines cut
    into consecutive pieces: put together again they give back the list of
    all baselines, and every chunk holds at least one and at most
    [Nbls_to_load] of them.  Without [Nbls_to_load] there is one chunk with
    all baselines, or none when there is no baseline. *)
Theorem bl_chunks_cover (X : Type) (all_baselines : list X) (N : Z) :
  (0 < N)%Z ->
  (exists chunks,
      bl_chunks all_baselines (Some N) = Returned chunks /\
      List.concat chunks = all_baselines /\
      Forall (fun c => 0 < List.length c <= Z.to_nat N) chunks) /\
  bl_chunks all_baselines None
    = Returned (match all_baselines with [] => [] | _ :: _ => [all_baselines] end).
Proof.
  intros HN. split.
  - set (n := Z.to_nat N). assert (En : N = Z.of_nat n) by lia.
    assert (Hn : n <> 0) by lia.
    rewrite En, bl_chunks_some_nat by exact Hn.
    eexists. split; [reflexivity|]. split.
    + rewrite concat_nonempty, concat_chunks. apply firstn_all2.
      set (L := List.length all_baselines).
      pose proof (Nat.div_mod_eq L n) as Hd.
      pose proof (Nat.mod_upper_bound L n Hn). nia.
    + apply Forall_forall. intros c Hc. apply filter_In in Hc. destruct Hc as [Hc Hpos].
      apply Nat.ltb_lt in Hpos. split; [exact Hpos|].
      apply in_map_iff in Hc. destruct Hc as [i [<- _]]. apply firstn_le_length.
  - rewrite bl_chunks_none, bl_chunks_some_nat by discriminate.
    rewrite Nat.div_small by lia.
    cbn [Nat.add seq map Nat.mul skipn].
    rewrite firstn_all2 by lia.
    destruct all_baselines; reflexivity.
Qed.

Lemma bl_chunks_cover_witness :
  exists chunks,
    bl_chunks [1; 2; 3; 4; 5] (Some 2%Z) = Returned chunks /\
    List.concat chunks = [1; 2; 3; 4; 5] /\
    Forall (fun c => 0 < List.length c <= Z.to_nat 2) chunks.
Proof.
  apply (proj1 (@bl_chunks_cover nat [1; 2; 3; 4; 5] 2%Z (eq_refl : (0 < 2)%Z))).
Defined.

Lemma py_slice_nil (X : Type) (a b : Z) : py_slice (@nil X) a b = [].
Proof. unfold py_slice. now rewrite skipn_nil, firstn_nil. Qed.

(** X14.  [Nbls_to_load = 0] raises ZeroDivisionError.  A negative
    [Nbls_to_load] raises nothing and gives no chunk at all, whatever the
    baselines are. *)
Theorem bl_chunks_nonpositive (X : Type) (all_baselines : list X) (N : Z) :
  bl_chunks all_baselines (Some 0%Z) = Raised ZeroDivisionError /\
  ((N < 0)%Z -> bl_chunks all_baselines (Some N) = Returned []).
Proof.
  split; [reflexivity|]. intros HN. unfold bl_chunks.
  replace (N =? 0)%Z with false by (symmetry; apply Z.eqb_neq; lia).
  f_equal. destruct all_baselines as [|x l].
  - induction (py_range (Z.of_nat (List.length (@nil X)) / N + 1)) as [|i r IH];
      [reflexivity|].
    cbn [map filter]. rewrite py_slice_nil. exact IH.
  - set (L := Z.of_nat (List.length (x :: l))).
    assert (HL : (0 < L)%Z) by (unfold L; cbn [List.length]; lia).
    assert (Hq : (L / N + 1 <= 0)%Z).
    { pose proof (Z.div_mod L N ltac:(lia)) as Hd.
      pose proof (Z.mod_neg_bound L N HN). nia. }
    unfold py_range. replace (Z.to_nat (L / N + 1)) with 0 by lia. reflexivity.
Qed.

Lemma bl_chunks_nonpositive_witness :
  bl_chunks [1; 2; 3; 4; 5] (Some (-2)%Z) = Returned [].
Proof.
  apply (proj2 (@bl_chunks_nonpositive nat [1; 2; 3; 4; 5] (-2)%Z)). reflexivity.
Defined.

(** *** The baselines of [get_all_unflagged_baselines] *)

Lemma bl_eqb_eq (p q : nat * nat) : bl_eqb p q = true <-> p = q.
Proof.
  destruct p as [a b], q as [c d]. unfold bl_eqb. simpl.
  rewrite andb_true_iff, !Nat.eqb_eq. split.
  - intros [-> ->]. reflexivity.
  - intros H. injection H as -> ->. split; reflexivity.
Qed.

Lemma mem_bl_In (p : nat * nat) (bls : list (nat * nat)) :
  mem_bl p bls = true <-> In p bls.
Proof.
  unfold mem_bl. rewrite existsb_exists. split.
  - intros [q [Hq He]]. apply bl_eqb_eq in He. now subst q.
  - intros H. exists p. split; [exact H | now apply bl_eqb_eq].
Qed.

Lemma mem_bl_not_In (p : nat * nat) (bls : list (nat * nat)) :
  mem_bl p bls = false <-> ~ In p bls.
Proof.
  rewrite <- mem_bl_In. destruct (mem_bl p bls); split; congruence.
Qed.

Lemma mem_ant_In (a : nat) (ants : list nat) : mem_ant a ants = true <-> In a ants.
Proof.
  unfold mem_ant. rewrite existsb_exists. split.
  - intros [b [Hb He]]. apply Nat.eqb_eq in He. now subst b.
  - intros H. exists a. split; [exact H | apply Nat.eqb_refl].
Qed.

Lemma mem_ant_not_In (a : nat) (ants : list nat) : mem_ant a ants = false <-> ~ In a ants.
Proof.
  rewrite <- mem_ant_In. destruct (mem_ant a ants); split; congruence.
Qed.

(** [s.update(items)]: the elements of both, none twice. *)
Lemma set_update_In (items s : list string) (q : string) :
  In q (set_update s items) <-> In q s \/ In q items.
Proof.
  unfold set_update. revert s. induction items as [|x items IH]; intros s; simpl.
  - tauto.
  - rewrite IH. destruct (existsb (String.eqb x) s) eqn:E.
    + apply existsb_exists in E. destruct E as [y [Hy He]].
      apply String.eqb_eq in He. subst y.
      split; [tauto|]. intros [H|[H|H]]; subst; tauto.
    + rewrite in_app_iff. simpl. tauto.
Qed.

Lemma set_update_NoDup (items s : list string) :
  NoDup s -> NoDup (set_update s items).
Proof.
  unfold set_update. revert s. induction items as [|x items IH]; intros s H; simpl.
  - exact H.
  - apply IH. destruct (existsb (String.eqb x) s) eqn:E; [exact H|].
    apply NoDup_app; [exact H | constructor; [intros []|constructor] |].
    intros y Hy [Hx|[]]. subst y.
    assert (Ex : existsb (String.eqb x) s = true).
    { apply existsb_exists. exists x. split; [exact Hy | apply String.eqb_refl]. }
    congruence.
Qed.

Lemma set_update_app (a b s : list string) :
  set_update (set_update s a) b = set_update s (a ++ b).
Proof. unfold set_update. now rewrite fold_left_app. Qed.

Lemma fold_left_over_map (A B C : Type) (f : A -> B -> A) (g : C -> B) (l : list C) :
  forall a, fold_left f (map g l) a = fold_left (fun a x => f a (g x)) l a.
Proof. induction l as [|x l IH]; intros a; simpl; [reflexivity | apply IH]. Qed.

Section Unflagged.

Variable Y : Type.
Variable read_a_priori_ant_flags : Y -> list nat.
Variable get_ubl_key : nat * nat -> nat * nat.
Variables (include_autos : bool) (ignore_ants : list nat).

Local Abbreviation add := (add_antpair get_ubl_key include_autos ignore_ants).
Local Abbreviation files_loop :=
  (baseline_files_loop get_ubl_key include_autos ignore_ants).
Local Abbreviation nights_loop :=
  (baseline_nights_loop read_a_priori_ant_flags get_ubl_key include_autos ignore_ants).
Local Abbreviation flags_of := (a_priori_antenna_flags read_a_priori_ant_flags).
Local Abbreviation ok := (admissible include_autos ignore_ants).

(** What one pass of the innermost loop does. *)
Lemma add_antpair_cases (ra : bool) (flagged : list nat) (bls : list (nat * nat))
  (ap : nat * nat) :
  let p := if ra then get_ubl_key ap else ap in
  (add ra flagged bls ap = bls ++ [p] /\
   ~ In p bls /\ ~ In (snd p, fst p) bls /\ ok flagged p) \/
  (add ra flagged bls ap = bls /\ (found bls p \/ ~ ok flagged p)).
Proof.
  intros p. unfold add_antpair. fold p. destruct p as [a1 a2]. cbn [fst snd].
  destruct (mem_bl (a1, a2) bls) eqn:E1; cbn [negb andb].
  { right. split; [reflexivity|]. left. left. now apply mem_bl_In. }
  destruct (mem_bl (a2, a1) bls) eqn:E2; cbn [negb andb].
  { right. split; [reflexivity|]. left. right. now apply mem_bl_In. }
  destruct (mem_ant a1 ignore_ants) eqn:E3; cbn [negb andb].
  { right. split; [reflexivity|]. right. intros [H _]. apply H. now apply mem_ant_In. }
  destruct (mem_ant a2 ignore_ants) eqn:E4; cbn [negb andb].
  { right. split; [reflexivity|]. right. intros [_ [H _]]. apply H. now apply mem_ant_In. }
  destruct (include_autos || negb (a1 =? a2)) eqn:E5; cbn [negb andb].
  2:{ right. split; [reflexivity|]. right. intros [_ [_ [H _]]].
      apply orb_false_iff in E5. destruct E5 as [Hi He].
      apply negb_false_iff, Nat.eqb_eq in He. now apply H. }
  destruct (mem_ant a1 flagged) eqn:E6; cbn [negb andb].
  { right. split; [reflexivity|]. right. intros [_ [_ [_ [H _]]]]. apply H.
    now apply mem_ant_In. }
  destruct (mem_ant a2 flagged) eqn:E7; cbn [negb andb].
  { right. split; [reflexivity|]. right. intros [_ [_ [_ [_ H]]]]. apply H.
    now apply mem_ant_In. }
  left. split; [reflexivity|].
  split; [now apply mem_bl_not_In|]. split; [now apply mem_bl_not_In|].
  unfold admissible. cbn [fst snd].
  split; [now apply mem_ant_not_In|]. split; [now apply mem_ant_not_In|].
  split; [|split; now apply mem_ant_not_In].
  intros Hi He. rewrite Hi in E5. cbn [orb] in E5.
  apply negb_true_iff, Nat.eqb_neq in E5. contradiction.
Qed.

(** The set of baselines only grows. *)
Lemma add_antpair_grows (ra : bool) (flagged : list nat) (bls : list (nat * nat))
  (ap p : nat * nat) :
  In p bls -> In p (add ra flagged bls ap).
Proof.
  intros H. destruct (add_antpair_cases ra flagged bls ap) as [[-> _]|[-> _]];
    [apply in_or_app; now left | exact H].
Qed.

Lemma steps_grow (ra : bool) (steps : list (list nat * (nat * nat))) :
  forall (bls : list (nat * nat)) (p : nat * nat),
    In p bls ->
    In p (fold_left (fun bls s => add ra (fst s) bls (snd s)) steps bls).
Proof.
  induction steps as [|s steps IH]; intros bls p H; simpl; [exact H|].
  apply IH, add_antpair_grows, H.
Qed.

(** No baseline twice, none with its conjugate, none with an ignored
    antenna, no auto-correlation unless asked for: kept by every pass. *)
Lemma steps_invariant (ra : bool) (steps : list (list nat * (nat * nat))) :
  forall bls : list (nat * nat),
    NoDup bls /\
    (forall a b, In (a, b) bls -> In (b, a) bls -> a = b) /\
    Forall (ok []) bls ->
    let bls' := fold_left (fun bls s => add ra (fst s) bls (snd s)) steps bls in
    NoDup bls' /\
    (forall a b, In (a, b) bls' -> In (b, a) bls' -> a = b) /\
    Forall (ok []) bls'.
Proof.
  induction steps as [|s steps IH]; intros bls H; [exact H|].
  cbn [fold_left]. apply IH. destruct H as [Hn [Hc Hk]].
  destruct (add_antpair_cases ra (fst s) bls (snd s)) as [[-> [H1 [H2 H3]]]|[-> _]];
    [|now repeat split].
  remember (if ra then get_ubl_key (snd s) else snd s) as p eqn:Ep. clear Ep.
  split; [|split].
  - apply NoDup_app; [exact Hn | constructor; [intros []|constructor] |].
    intros q Hq [Hp|[]]. subst q. contradiction.
  - intros a b Ha Hb. apply in_app_or in Ha. apply in_app_or in Hb.
    destruct Ha as [Ha|[Ha|[]]], Hb as [Hb|[Hb|[]]].
    + now apply Hc.
    + subst p. cbn [fst snd] in H2. contradiction.
    + subst p. cbn [fst snd] in H2. contradiction.
    + subst p. now injection Hb.
  - apply Forall_app. split; [exact Hk|]. constructor; [|constructor].
    destruct H3 as [K1 [K2 [K3 _]]]. unfold admissible. repeat split; auto.
Qed.

(** Every baseline of the set was put there by a pass that let it in. *)
Lemma steps_sound (ra : bool) (steps : list (list nat * (nat * nat))) :
  forall (bls : list (nat * nat)) (p : nat * nat),
    In p (fold_left (fun bls s => add ra (fst s) bls (snd s)) steps bls) ->
    In p bls \/
    exists s, In s steps /\ p = (if ra then get_ubl_key (snd s) else snd s) /\
              ok (fst s) p.
Proof.
  induction steps as [|s steps IH]; intros bls p H; [now left|].
  cbn [fold_left] in H. apply IH in H. destruct H as [H|[s' [Hs' H]]].
  - destruct (add_antpair_cases ra (fst s) bls (snd s)) as [[E [_ [_ H3]]]|[E _]];
      rewrite E in H; [|now left].
    apply in_app_or in H. destruct H as [H|[H|[]]]; [now left|].
    right. exists s. split; [now left|]. rewrite <- H. split; [reflexivity | exact H3].
  - right. exists s'. split; [now right | exact H].
Qed.

(** Every pair that passes the tests is in the set afterwards, as it is or
    conjugated. *)
Lemma steps_complete (ra : bool) (steps : list (list nat * (nat * nat))) :
  forall (bls : list (nat * nat)) (s : list nat * (nat * nat)),
    In s steps ->
    ok (fst s) (if ra then get_ubl_key (snd s) else snd s) ->
    found (fold_left (fun bls s => add ra (fst s) bls (snd s)) steps bls)
          (if ra then get_ubl_key (snd s) else snd s).
Proof.
  induction steps as [|s0 steps IH]; intros bls s Hin Hok; [destruct Hin|].
  destruct Hin as [<-|Hs]; cbn [fold_left].
  - assert (K : found (add ra (fst s0) bls (snd s0))
                      (if ra then get_ubl_key (snd s0) else snd s0)).
    { destruct (add_antpair_cases ra (fst s0) bls (snd s0)) as [[-> _]|[-> [H|H]]].
      + left. apply in_or_app. right. now left.
      + exact H.
      + contradiction. }
    destruct K as [K|K]; [left|right]; apply steps_grow, K.
  - now apply IH.
Qed.

(** The loop over the files of a night: the passes it makes when it
    returns. *)
Lemma baseline_files_loop_returned (xo : string) (ra : bool) (flagged : list nat)
  (files : list file_meta) :
  forall acc acc',
    files_loop xo ra flagged files acc = Ok acc' ->
    Forall (fun m => x_orientation m = xo) files /\
    fst acc' = fold_left (add ra flagged) (flat_map antpairs files) (fst acc) /\
    snd acc' = set_update (snd acc) (flat_map pols files).
Proof.
  induction files as [|m files IH]; intros acc acc' H; cbn [baseline_files_loop] in H.
  - injection H as <-. repeat split. constructor.
  - destruct (String.eqb (x_orientation m) xo) eqn:E; [|discriminate H].
    apply String.eqb_eq in E. apply IH in H. cbn [fst snd] in H.
    destruct H as [H1 [H2 H3]]. split; [now constructor|].
    cbn [flat_map]. rewrite fold_left_app, <- set_update_app. now split.
Qed.

(** The same loop never raises anything but the ValueError of a file whose
    x_orientation differs, and raises it whenever there is such a file. *)
Lemma baseline_files_loop_raises (xo : string) (ra : bool) (flagged : list nat)
  (files : list file_meta) :
  forall acc,
    (Forall (fun m => x_orientation m = xo) files ->
     exists acc', files_loop xo ra flagged files acc = Ok acc') /\
    (~ Forall (fun m => x_orientation m = xo) files ->
     exists msg, files_loop xo ra flagged files acc = Raise (ValueError msg)).
Proof.
  induction files as [|m files IH]; intros acc; cbn [baseline_files_loop].
  - split; [now eexists|]. intros H. exfalso. apply H. constructor.
  - destruct (String.eqb (x_orientation m) xo) eqn:E.
    + apply String.eqb_eq in E. split.
      * intros H. apply IH. now inversion H.
      * intros H. apply IH. intros K. apply H. now constructor.
    + apply String.eqb_neq in E. split.
      * intros H. inversion H. contradiction.
      * intros _. now eexists.
Qed.

Lemma last_In (X : Type) (l : list X) (d : X) : l <> [] -> In (last l d) l.
Proof.
  intros H. destruct (exists_last H) as [l' [z E]].
  rewrite E, last_last. apply in_or_app. right. now left.
Qed.

Lemma files_read_incl (ol : bool) (fl_list files : list file_meta) :
  files_read ol fl_list = Ok files ->
  incl files fl_list /\ (ol = false -> files = fl_list).
Proof.
  unfold files_read. destruct ol.
  - destruct fl_list as [|first rest]; [discriminate|].
    intros H. injection H as <-. split; [|discriminate].
    intros m [<-|[<-|[]]]; [now left|].
    change (In (last (first :: rest) first) (first :: rest)).
    apply last_In. discriminate.
  - intros H. injection H as <-. split; [apply incl_refl | reflexivity].
Qed.

(** The loop over the nights, when it returns: the baselines are those of
    a sequence of passes of the innermost loop, each for an antenna pair of
    a file of a night with the flags of that night; the polarizations are
    taken from the files.  When every file is read, every antenna pair of
    every file has its pass. *)
Lemma baseline_nights_loop_returned (xo : string) (ra : bool) (ex : list Y) (ol : bool)
  (data : list (list file_meta)) :
  forall night acc acc',
    nights_loop xo ra ex ol night data acc = Ok acc' ->
    exists (steps : list (list nat * (nat * nat))) (items : list string),
      fst acc' = fold_left (fun bls s => add ra (fst s) bls (snd s)) steps (fst acc) /\
      snd acc' = set_update (snd acc) items /\
      (forall s, In s steps ->
         exists k fl_list m,
           nth_error data k = Some fl_list /\ In m fl_list /\
           In (snd s) (antpairs m) /\ flags_of ex (night + k) = Ok (fst s)) /\
      (forall q, In q items ->
         exists fl_list m, In fl_list data /\ In m fl_list /\ In q (pols m)) /\
      (ol = false ->
         (forall k fl_list m ap flagged,
            nth_error data k = Some fl_list -> In m fl_list ->
            In ap (antpairs m) -> flags_of ex (night + k) = Ok flagged ->
            In (flagged, ap) steps) /\
         (forall fl_list m q,
            In fl_list data -> In m fl_list -> In q (pols m) -> In q items) /\
         Forall (Forall (fun m => x_orientation m = xo)) data).
Proof.
  induction data as [|fl_list data IH]; intros night acc acc' H;
    cbn [baseline_nights_loop] in H.
  - injection H as <-. exists [], []. repeat split; try reflexivity.
    + intros s [].
    + intros q [].
    + intros k fl m ap flagged Hk. destruct k; discriminate Hk.
    + intros fl m q [].
    + constructor.
  - destruct (flags_of ex night) as [flagged|e] eqn:Ef; [|discriminate H].
    destruct (files_read ol fl_list) as [files|e] eqn:Er; [|discriminate H].
    destruct (files_loop xo ra flagged files acc) as [acc1|e] eqn:El; [|discriminate H].
    apply baseline_files_loop_returned in El. destruct El as [Hxo [Hb Hp]].
    apply files_read_incl in Er. destruct Er as [Hincl Hall].
    apply IH in H. destruct H as [steps [items [H1 [H2 [H3 [H4 H5]]]]]].
    exists (map (pair flagged) (flat_map antpairs files) ++ steps),
           (flat_map pols files ++ items).
    split; [|split; [|split; [|split]]].
    + rewrite H1, Hb, fold_left_app, fold_left_over_map. reflexivity.
    + now rewrite H2, Hp, set_update_app.
    + intros s Hs. apply in_app_or in Hs. destruct Hs as [Hs|Hs].
      * apply in_map_iff in Hs. destruct Hs as [ap [<- Hap]].
        apply in_flat_map in Hap. destruct Hap as [m [Hm Hap]].
        exists 0, fl_list, m. cbn [nth_error fst snd]. rewrite Nat.add_0_r.
        repeat split; auto.
      * destruct (H3 s Hs) as [k [fl [m [K1 [K2 [K3 K4]]]]]].
        exists (S k), fl, m. cbn [nth_error]. rewrite Nat.add_succ_r. now repeat split.
    + intros q Hq. apply in_app_or in Hq. destruct Hq as [Hq|Hq].
      * apply in_flat_map in Hq. destruct Hq as [m [Hm Hq]].
        exists fl_list, m. repeat split; [now left | auto | exact Hq].
      * destruct (H4 q Hq) as [fl [m [K1 [K2 K3]]]].
        exists fl, m. repeat split; [now right | exact K2 | exact K3].
    + intros Hol. destruct (H5 Hol) as [K1 [K2 K3]]. rewrite (Hall Hol) in *.
      split; [|split].
      * intros k fl m ap fg Hk Hm Hap Hfg. apply in_or_app. destruct k as [|k].
        -- left. cbn [nth_error] in Hk. injection Hk as <-.
           rewrite Nat.add_0_r, Ef in Hfg. injection Hfg as <-.
           apply in_map, in_flat_map. now exists m.
        -- right. cbn [nth_error] in Hk. rewrite Nat.add_succ_r in Hfg.
           now apply (K1 k fl m).
      * intros fl m q [<-|Hfl] Hm Hq; apply in_or_app.
        -- left. apply in_flat_map. now exists m.
        -- right. now apply (K2 fl m).
      * now constructor.
Qed.

Lemma baseline_files_loop_error (xo : string) (ra : bool) (flagged : list nat)
  (files : list file_meta) :
  forall acc e,
    files_loop xo ra flagged files acc = Raise e -> exists msg, e = ValueError msg.
Proof.
  induction files as [|m files IH]; intros acc e H; cbn [baseline_files_loop] in H.
  - discriminate H.
  - destruct (String.eqb (x_orientation m) xo); [now apply IH in H|].
    injection H as <-. now eexists.
Qed.

(** Without flag files and with every file read, the loop over the nights
    raises nothing but that ValueError. *)
Lemma baseline_nights_loop_error (xo : string) (ra : bool)
  (data : list (list file_meta)) :
  forall night acc e,
    nights_loop xo ra [] false night data acc = Raise e -> exists msg, e = ValueError msg.
Proof.
  induction data as [|fl_list data IH]; intros night acc e H;
    cbn [baseline_nights_loop a_priori_antenna_flags files_read] in H.
  - discriminate H.
  - destruct (files_loop xo ra [] fl_list acc) as [acc1|e1] eqn:El.
    + now apply IH in H.
    + injection H as <-. now apply baseline_files_loop_error in El.
Qed.

(** What a returning call went through. *)
Lemma get_all_unflagged_baselines_returned (data_files : list (list file_meta))
  (ex : list Y) (ol : bool) (ora : option bool) (acc : list (nat * nat) * list string) :
  get_all_unflagged_baselines read_a_priori_ant_flags get_ubl_key include_autos
    ignore_ants data_files ex ol ora = Ok acc ->
  exists meta0 r rest ra,
    data_files = (meta0 :: r) :: rest /\
    redundantly_averaged_of get_ubl_key ora data_files = Ok ra /\
    (ra = true -> ignore_ants = [] /\ ex = []) /\
    nights_loop (x_orientation meta0) ra ex ol 0 data_files ([], []) = Ok acc.
Proof.
  unfold get_all_unflagged_baselines. intros H.
  destruct data_files as [|[|meta0 r] rest]; try discriminate H.
  destruct (redundantly_averaged_of get_ubl_key ora ((meta0 :: r) :: rest))
    as [ra|e] eqn:Er; [|discriminate H].
  exists meta0, r, rest, ra. split; [reflexivity|]. split; [reflexivity|].
  destruct ra; cbn [andb] in H.
  - destruct ignore_ants; [|discriminate H]. destruct ex; [|discriminate H].
    split; [now split | exact H].
  - split; [discriminate | exact H].
Qed.

(** X15.  Whenever [get_all_unflagged_baselines] returns, its set of
    baselines holds no baseline twice and no baseline together with its
    conjugate, no baseline with an antenna of [ignore_ants], and no
    auto-correlation unless [include_autos]; the polarizations hold no
    polarization twice. *)
Theorem get_all_unflagged_baselines_invariants (data_files : list (list file_meta))
  (ex_ant_yaml_files : list Y) (only_last_file_per_night : bool)
  (redundantly_averaged : option bool)
  (all_baselines : list (nat * nat)) (all_pols : list string) :
  get_all_unflagged_baselines read_a_priori_ant_flags get_ubl_key include_autos
    ignore_ants data_files ex_ant_yaml_files only_last_file_per_night
    redundantly_averaged = Ok (all_baselines, all_pols) ->
  NoDup all_baselines /\
  (forall a1 a2, In (a1, a2) all_baselines -> In (a2, a1) all_baselines -> a1 = a2) /\
  (forall a1 a2, In (a1, a2) all_baselines ->
     ~ In a1 ignore_ants /\ ~ In a2 ignore_ants /\ (include_autos = false -> a1 <> a2)) /\
  NoDup all_pols.
Proof.
  intros H. apply get_all_unflagged_baselines_returned in H.
  destruct H as [meta0 [r [rest [ra [_ [_ [_ H]]]]]]].
  apply baseline_nights_loop_returned in H.
  destruct H as [steps [items [H1 [H2 _]]]]. cbn [fst snd] in H1, H2.
  assert (K : NoDup (@nil (nat * nat)) /\
              (forall a b, In (a, b) (@nil (nat * nat)) -> In (b, a) [] -> a = b) /\
              Forall (ok []) (@nil (nat * nat))).
  { split; [constructor|]. split; [intros a b []|constructor]. }
  apply (steps_invariant ra steps) in K. cbv zeta in K. rewrite <- H1 in K.
  destruct K as [K1 [K2 K3]]. split; [exact K1|]. split; [exact K2|]. split.
  - intros a1 a2 Hin. rewrite Forall_forall in K3.
    destruct (K3 _ Hin) as [Q1 [Q2 [Q3 _]]]. now repeat split.
  - rewrite H2. apply set_update_NoDup. constructor.
Qed.

(** X16.  Whenever [get_all_unflagged_baselines] returns, every baseline of
    its set comes from an antenna pair of a file of some night: it is that
    pair, or the pair's key when the files are redundantly averaged, and
    neither of its antennas is in the flags of that night.  Every returned
    polarization is a polarization of some file. *)
Theorem get_all_unflagged_baselines_sound (data_files : list (list file_meta))
  (ex_ant_yaml_files : list Y) (only_last_file_per_night : bool)
  (redundantly_averaged : option bool)
  (all_baselines : list (nat * nat)) (all_pols : list string) :
  get_all_unflagged_baselines read_a_priori_ant_flags get_ubl_key include_autos
    ignore_ants data_files ex_ant_yaml_files only_last_file_per_night
    redundantly_averaged = Ok (all_baselines, all_pols) ->
  exists ra,
    redundantly_averaged_of get_ubl_key redundantly_averaged data_files = Ok ra /\
    (forall p, In p all_baselines ->
       exists night fl_list meta ap flagged,
         nth_error data_files night = Some fl_list /\ In meta fl_list /\
         In ap (antpairs meta) /\
         p = (if ra then get_ubl_key ap else ap) /\
         flags_of ex_ant_yaml_files night = Ok flagged /\
         ~ In (fst p) flagged /\ ~ In (snd p) flagged) /\
    (forall q, In q all_pols ->
       exists fl_list meta, In fl_list data_files /\ In meta fl_list /\ In q (pols meta)).
Proof.
  intros H. apply get_all_unflagged_baselines_returned in H.
  destruct H as [meta0 [r [rest [ra [_ [Hra [_ H]]]]]]].
  exists ra. split; [exact Hra|].
  apply baseline_nights_loop_returned in H.
  destruct H as [steps [items [H1 [H2 [H3 [H4 _]]]]]]. cbn [fst snd] in H1, H2.
  split.
  - intros p Hp. rewrite H1 in Hp. apply steps_sound in Hp.
    destruct Hp as [[]|[s [Hs [Ep Hok]]]].
    destruct (H3 s Hs) as [k [fl [m [K1 [K2 [K3 K4]]]]]].
    exists k, fl, m, (snd s), (fst s). cbn [Nat.add] in K4.
    destruct Hok as [_ [_ [_ [Q1 Q2]]]]. now repeat split.
  - intros q Hq. rewrite H2 in Hq. apply set_update_In in Hq.
    destruct Hq as [[]|Hq]. now apply H4.
Qed.

(** X17.  When every file is read ([only_last_file_per_night] is false) and
    the function returns, no antenna pair is lost: for every antenna pair
    of every file of every night, the pair (or its key when the files are
    redundantly averaged) is in the returned set, as it is or conjugated,
    provided it passes the tests on its antennas with the flags of its
    night; and every polarization of every file is returned. *)
Theorem get_all_unflagged_baselines_complete (data_files : list (list file_meta))
  (ex_ant_yaml_files : list Y) (redundantly_averaged : option bool)
  (all_baselines : list (nat * nat)) (all_pols : list string) :
  get_all_unflagged_baselines read_a_priori_ant_flags get_ubl_key include_autos
    ignore_ants data_files ex_ant_yaml_files false
    redundantly_averaged = Ok (all_baselines, all_pols) ->
  exists ra,
    redundantly_averaged_of get_ubl_key redundantly_averaged data_files = Ok ra /\
    (forall night fl_list meta ap flagged,
       nth_error data_files night = Some fl_list -> In meta fl_list ->
       In ap (antpairs meta) ->
       flags_of ex_ant_yaml_files night = Ok flagged ->
       ok flagged (if ra then get_ubl_key ap else ap) ->
       found all_baselines (if ra then get_ubl_key ap else ap)) /\
    (forall fl_list meta q,
       In fl_list data_files -> In meta fl_list -> In q (pols meta) -> In q all_pols).
Proof.
  intros H. apply get_all_unflagged_baselines_returned in H.
  destruct H as [meta0 [r [rest [ra [_ [Hra [_ H]]]]]]].
  exists ra. split; [exact Hra|].
  apply baseline_nights_loop_returned in H.
  destruct H as [steps [items [H1 [H2 [_ [_ H5]]]]]]. cbn [fst snd] in H1, H2.
  destruct (H5 eq_refl) as [K1 [K2 _]]. split.
  - intros night fl m ap flagged Hn Hm Hap Hf Hok. rewrite H1.
    apply (steps_complete ra steps [] (flagged, ap)); [|exact Hok].
    now apply (K1 night fl m).
  - intros fl m q Hfl Hm Hq. rewrite H2. apply set_update_In. right.
    now apply (K2 fl m).
Qed.

(** X18.  With every file read, a file whose x_orientation differs from
    that of the first file of the first night makes the call fail,
    whatever the flag files and [redundantly_averaged] are; without flag
    files and with [redundantly_averaged] given, what it raises is a
    ValueError. *)
Theorem get_all_unflagged_baselines_x_orientation (meta0 : file_meta)
  (r : list file_meta) (rest : list (list file_meta))
  (fl_list : list file_meta) (meta : file_meta) :
  In fl_list ((meta0 :: r) :: rest) -> In meta fl_list ->
  x_orientation meta <> x_orientation meta0 ->
  (forall ex_ant_yaml_files redundantly_averaged,
     returns (get_all_unflagged_baselines read_a_priori_ant_flags get_ubl_key
                include_autos ignore_ants ((meta0 :: r) :: rest) ex_ant_yaml_files
                false redundantly_averaged) = false) /\
  (forall ra,
     is_value_error (get_all_unflagged_baselines read_a_priori_ant_flags get_ubl_key
                       include_autos ignore_ants ((meta0 :: r) :: rest) [] false
                       (Some ra)) = true).
Proof.
  intros Hfl Hm Hx.
  assert (A : forall ex ora,
             returns (get_all_unflagged_baselines read_a_priori_ant_flags get_ubl_key
                        include_autos ignore_ants ((meta0 :: r) :: rest) ex
                        false ora) = false).
  { intros ex ora.
    destruct (get_all_unflagged_baselines read_a_priori_ant_flags get_ubl_key
                include_autos ignore_ants ((meta0 :: r) :: rest) ex false ora)
      as [acc|e] eqn:E; [|reflexivity].
    exfalso. apply get_all_unflagged_baselines_returned in E.
    destruct E as [m0 [r0 [rest0 [ra [Ed [_ [_ E]]]]]]].
    injection Ed as <- <- <-.
    apply baseline_nights_loop_returned in E.
    destruct E as [steps [items [_ [_ [_ [_ E]]]]]].
    destruct (E eq_refl) as [_ [_ K]].
    rewrite Forall_forall in K. specialize (K fl_list Hfl).
    rewrite Forall_forall in K. exact (Hx (K meta Hm)). }
  split; [exact A|].
  intros ra. specialize (A [] (Some ra)). revert A.
  unfold get_all_unflagged_baselines. cbn [redundantly_averaged_of].
  destruct (ra && match ignore_ants with [] => false | _ :: _ => true end);
    [reflexivity|].
  rewrite andb_false_r.
  destruct (nights_loop (x_orientation meta0) ra [] false 0 ((meta0 :: r) :: rest) ([], []))
    as [acc|e] eqn:E; [discriminate|].
  intros _. apply baseline_nights_loop_error in E. destruct E as [msg ->]. reflexivity.
Qed.

Lemma distinct_length (keys : list (nat * nat)) :
  List.length (distinct keys) <= List.length keys.
Proof.
  induction keys as [|k keys IH]; [apply le_n|].
  cbn [distinct]. destruct (mem_bl k keys); cbn [List.length]; lia.
Qed.

(** [len(set(keys)) == len(keys)] says that no key comes twice. *)
Lemma distinct_NoDup (keys : list (nat * nat)) :
  List.length (distinct keys) = List.length keys <-> NoDup keys.
Proof.
  induction keys as [|k keys IH]; [split; [constructor | reflexivity]|].
  cbn [distinct]. destruct (mem_bl k keys) eqn:E.
  - split.
    + intros H. pose proof (distinct_length keys). cbn [List.length] in H. lia.
    + intros H. inversion H as [|? ? Hn _]. apply mem_bl_In in E. contradiction.
  - apply mem_bl_not_In in E. cbn [List.length]. split.
    + intros H. constructor; [exact E|]. apply IH. lia.
    + intros H. inversion H as [|? ? _ Hd]. apply IH in Hd. lia.
Qed.

(** X19.  The files are inferred to be redundantly averaged exactly when
    every night has a middle file and in each of these no two antenna
    pairs have the same key, that is, fall in the same redundant group. *)
Theorem infer_redundantly_averaged_true (data_files : list (list file_meta)) :
  infer_redundantly_averaged get_ubl_key data_files = Ok true <->
  Forall (fun fl_list =>
            exists meta,
              nth_error fl_list (List.length fl_list / 2) = Some meta /\
              NoDup (map get_ubl_key (antpairs meta)))
         data_files.
Proof.
  induction data_files as [|fl_list data IH]; cbn [infer_redundantly_averaged].
  - split; [constructor | reflexivity].
  - destruct (nth_error fl_list (List.length fl_list / 2)) as [m|] eqn:E.
    + destruct (List.length (distinct (map get_ubl_key (antpairs m))) =?
                List.length (antpairs m)) eqn:El.
      * apply Nat.eqb_eq in El.
        rewrite <- (length_map get_ubl_key (antpairs m)) in El.
        apply distinct_NoDup in El. rewrite IH. split.
        -- intros H. constructor; [now exists m | exact H].
        -- intros H. now inversion H.
      * apply Nat.eqb_neq in El. split; [discriminate|].
        intros H. inversion H as [|? ? [m' [Em Hn]] _]. exfalso. apply El.
        rewrite E in Em. injection Em as <-.
        apply distinct_NoDup in Hn. now rewrite Hn, length_map.
    + split; [discriminate|]. intros H. inversion H as [|? ? [m' [Em _]] _].
      rewrite E in Em. discriminate Em.
Qed.

End Unflagged.

Lemma get_all_unflagged_baselines_sound_witness :
  exists ra,
    redundantly_averaged_of (fun ap => ap) (Some false) ex_data_files = Ok ra /\
    (forall p, In p [(0, 1); (0, 3)] ->
       exists night fl_list meta ap flagged,
         nth_error ex_data_files night = Some fl_list /\ In meta fl_list /\
         In ap (antpairs meta) /\
         p = (if ra then ap else ap) /\
         a_priori_antenna_flags (fun _ : nat => []) [] night = Ok flagged /\
         ~ In (fst p) flagged /\ ~ In (snd p) flagged) /\
    (forall q, In q ["ee"%string; "nn"%string; "en"%string] ->
       exists fl_list meta, In fl_list ex_data_files /\ In meta fl_list /\ In q (pols meta)).
Proof.
  apply (@get_all_unflagged_baselines_sound nat (fun _ => []) (fun ap => ap)
           false [2] ex_data_files [] false (Some false)).
  reflexivity.
Defined.

Lemma get_all_unflagged_baselines_complete_witness :
  exists ra,
    redundantly_averaged_of (fun ap => ap) (Some false) ex_data_files = Ok ra /\
    (forall night fl_list meta ap flagged,
       nth_error ex_data_files night = Some fl_list -> In meta fl_list ->
       In ap (antpairs meta) ->
       a_priori_antenna_flags (fun _ : nat => []) [] night = Ok flagged ->
       admissible false [2] flagged (if ra then ap else ap) ->
       found [(0, 1); (0, 3)] (if ra then ap else ap)) /\
    (forall fl_list meta q,
       In fl_list ex_data_files -> In meta fl_list -> In q (pols meta) ->
       In q ["ee"%string; "nn"%string; "en"%string]).
Proof.
  apply (@get_all_unflagged_baselines_complete nat (fun _ => []) (fun ap => ap)
           false [2] ex_data_files [] (Some false)).
  reflexivity.
Defined.

Lemma get_all_unflagged_baselines_x_orientation_witness :
  (forall ex_ant_yaml_files redundantly_averaged,
     returns (get_all_unflagged_baselines (fun _ : nat => []) (fun ap => ap)
                false [2] ([ex_night1] :: [[ex_night2]; [ex_north]]) ex_ant_yaml_files
                false redundantly_averaged) = false) /\
  (forall ra,
     is_value_error (get_all_unflagged_baselines (fun _ : nat => []) (fun ap => ap)
                       false [2] ([ex_night1] :: [[ex_night2]; [ex_north]]) [] false
                       (Some ra)) = true).
Proof.
  apply (@get_all_unflagged_baselines_x_orientation nat (fun _ => []) (fun ap => ap)
           false [2] ex_night1 [] [[ex_night2]; [ex_north]] [ex_north] ex_north).
  - right. right. now left.
  - now left.
  - discriminate.
Defined.

Lemma get_all_unflagged_baselines_invariants_witness :
  NoDup [(0, 1); (0, 3)] /\
  (forall a1 a2, In (a1, a2) [(0, 1); (0, 3)] -> In (a2, a1) [(0, 1); (0, 3)] -> a1 = a2) /\
  (forall a1 a2, In (a1, a2) [(0, 1); (0, 3)] ->
     ~ In a1 [2] /\ ~ In a2 [2] /\ (false = false -> a1 <> a2)) /\
  NoDup ["ee"%string; "nn"%string; "en"%string].
Proof.
  apply (@get_all_unflagged_baselines_invariants nat (fun _ => []) (fun ap => ap)
           false [2] ex_data_files [] false (Some false)).
  reflexivity.
Defined.

End LstBinFilesFacts.

(** ** [reduce_lst_bins] *)

Module ReduceLstBinsFacts.

Import LstAverage LstAverageFacts ReduceLstBins.

Local Open Scope nat_scope.

Lemma shape4_eqb_eq (s1 s2 : nat * nat * nat * nat) :
  shape4_eqb s1 s2 = true <-> s1 = s2.
Proof.
  destruct s1 as [[[a1 b1] c1] d1], s2 as [[[a2 b2] c2] d2]. unfold shape4_eqb.
  rewrite !andb_true_iff, !Nat.eqb_eq. split.
  - intros [[[-> ->] ->] ->]. reflexivity.
  - intros H. injection H as -> -> -> ->. now repeat split.
Qed.

(** What an assignment to a bin leaves: the shape, the other bins, and in
    the bin the value, stretched along its axes of length one. *)
Lemma set_bin_cells (X : Type) (out out' : array4 X) (lstbin : nat)
  (v1 v2 v3 : nat) (value : nat -> nat -> nat -> X) :
  set_bin out lstbin (v1, v2, v3) value = Ok out' ->
  shape4 out' = shape4 out /\
  forall b i f p,
    cell out' b i f p
    = if i =? lstbin then value (stretch v1 b) (stretch v2 f) (stretch v3 p)
      else cell out b i f p.
Proof.
  unfold set_bin. destruct (shape4 out) as [[[nbl nl] nfreq] npol] eqn:E.
  destruct (broadcasts (v1, v2, v3) (nbl, nfreq, npol)); [|discriminate].
  intros H. injection H as <-. split; reflexivity.
Qed.

Lemma set_bin_returns (X : Type) (out : array4 X) (lstbin : nat)
  (nl nbl nfreq npol : nat) (value : nat -> nat -> nat -> X) :
  shape4 out = (nbl, nl, nfreq, npol) ->
  exists out', set_bin out lstbin (nbl, nfreq, npol) value = Ok out'.
Proof.
  intros E. unfold set_bin. rewrite E. unfold broadcasts.
  rewrite !Nat.eqb_refl. cbn [orb andb]. now eexists.
Qed.

Lemma flatten_shape (A B : Type) (a : array4 A) (b : array4 B) :
  shape4 a = shape4 b -> shape (flatten a) = shape (flatten b).
Proof.
  unfold flatten. intros E. rewrite E.
  destruct (shape4 b) as [[[nt nbl] nfreq] npol]. reflexivity.
Qed.

Lemma column_ext (X : Type) (n : nat) (f g : nat -> nat -> X) (j j' : nat) :
  (forall t, t < n -> f t j = g t j') -> column n f j = column n g j'.
Proof.
  intros H. unfold column. apply map_ext_in. intros t Ht. apply in_seq in Ht.
  apply H. lia.
Qed.

Section Positionwise.

Context {R C : Type} {F : FloatOps R C}.

Variable sigma_clip : ndarray C -> R -> nat -> ndarray bool.
Variables (data data' : ndarray C) (nsamples nsamples' : ndarray R)
          (flags flags' : ndarray bool).
Variables (flag_thresh sigma_clip_thresh : R) (sigma_clip_min_N : nat).
Variables (j j' : nat).

Hypothesis same_nights : ntimes data = ntimes data'.
Hypothesis same_cells :
  forall t, t < ntimes data ->
    item data t j = item data' t j' /\
    item nsamples t j = item nsamples' t j' /\
    item flags t j = item flags' t j'.
Hypothesis no_clipping : r_gt0 sigma_clip_thresh = false.

Local Abbreviation stage g :=
  (g R C F sigma_clip data nsamples flags flag_thresh sigma_clip_thresh sigma_clip_min_N).
Local Abbreviation stage' g :=
  (g R C F sigma_clip data' nsamples' flags' flag_thresh sigma_clip_thresh
     sigma_clip_min_N).

Lemma flags1_same (t : nat) :
  t < ntimes data -> flags1 data nsamples flags t j = flags1 data' nsamples' flags' t j'.
Proof.
  intros Ht. destruct (same_cells Ht) as [Hd [Hn Hf]]. unfold flags1.
  now rewrite Hd, Hn, Hf.
Qed.

Lemma flags2_same (t : nat) :
  t < ntimes data ->
  flags2 data nsamples flags flag_thresh t j
  = flags2 data' nsamples' flags' flag_thresh t j'.
Proof.
  intros Ht. unfold flags2, flag_frac_exceeds.
  rewrite (flags1_same Ht), <- same_nights.
  now rewrite (@column_ext _ (ntimes data) _ _ j j' flags1_same).
Qed.

Lemma data1_same (t : nat) :
  t < ntimes data ->
  data1 data nsamples flags flag_thresh t j
  = data1 data' nsamples' flags' flag_thresh t j'.
Proof.
  intros Ht. unfold data1. rewrite (flags2_same Ht).
  destruct (same_cells Ht) as [-> _]. reflexivity.
Qed.

Lemma flags3_same (t : nat) :
  t < ntimes data -> stage (@flags3) t j = stage' (@flags3) t j'.
Proof. intros Ht. unfold flags3. rewrite no_clipping. apply flags2_same, Ht. Qed.

Lemma data2_same (t : nat) :
  t < ntimes data -> stage (@data2) t j = stage' (@data2) t j'.
Proof. intros Ht. unfold data2. rewrite no_clipping. apply data1_same, Ht. Qed.

Lemma nsamples1_same (t : nat) :
  t < ntimes data -> stage (@nsamples1) t j = stage' (@nsamples1) t j'.
Proof.
  intros Ht. unfold nsamples1. rewrite (flags3_same Ht).
  destruct (same_cells Ht) as [_ [-> _]]. reflexivity.
Qed.

Lemma norm0_same : stage (@norm0) j = stage' (@norm0) j'.
Proof.
  unfold norm0. rewrite <- same_nights.
  now rewrite (@column_ext _ (ntimes data) _ _ j j' nsamples1_same).
Qed.

Lemma f_min_same : stage (@f_min) j = stage' (@f_min) j'.
Proof.
  unfold f_min. rewrite <- same_nights.
  now rewrite (@column_ext _ (ntimes data) _ _ j j' flags3_same).
Qed.

Lemma std0_same : stage (@std0) j = stage' (@std0) j'.
Proof.
  unfold std0. rewrite <- same_nights.
  now rewrite (@column_ext _ (ntimes data) _ _ j j' data2_same).
Qed.

Lemma wsum_same : stage (@wsum) j = stage' (@wsum) j'.
Proof.
  unfold wsum. rewrite <- same_nights. f_equal.
  apply column_ext. intros t Ht. now rewrite (data2_same Ht), (nsamples1_same Ht).
Qed.

(** X20.  Without sigma clipping, what [lst_average] returns at a position
    (a baseline, frequency and polarization) is computed from the cells of
    that position alone: two calls whose inputs agree on the nights of one
    position return the same mean, flag, standard deviation and sample
    count there, whatever the other positions hold. *)
Theorem lst_average_positionwise (mean mean' : list C) (fm fm' : list bool)
  (std std' : list C) (norm norm' : list R) :
  lst_average sigma_clip data nsamples flags flag_thresh sigma_clip_thresh
              sigma_clip_min_N = Ok (mean, fm, std, norm) ->
  lst_average sigma_clip data' nsamples' flags' flag_thresh sigma_clip_thresh
              sigma_clip_min_N = Ok (mean', fm', std', norm') ->
  j < npos data -> j' < npos data' ->
  nth j mean c_one = nth j' mean' c_one /\
  nth j fm false = nth j' fm' false /\
  nth j std c_one = nth j' std' c_one /\
  nth j norm r_zero = nth j' norm' r_zero.
Proof.
  unfold lst_average.
  destruct (LstAverage.shape_eqb _ _ && LstAverage.shape_eqb _ _); [|discriminate].
  destruct (LstAverage.shape_eqb _ _ && LstAverage.shape_eqb _ _); [|discriminate].
  intros H H' Hj Hj'. injection H as <- <- <- <-. injection H' as <- <- <- <-.
  rewrite !(nth_map_seq _ _ Hj), !(nth_map_seq _ _ Hj').
  split; [|split; [|split]].
  - unfold mean1, mean0. now rewrite norm0_same, wsum_same.
  - apply f_min_same.
  - unfold std1. now rewrite f_min_same, std0_same.
  - unfold norm1. now rewrite f_min_same, norm0_same.
Qed.

End Positionwise.

Section Reduce.

Context {R C : Type} {F : FloatOps R C} {L : FloatLaws F}.

Variable c_zero : C.
Variable flag_thresh : R.
Variable sigma_clip : ndarray C -> R -> nat -> ndarray bool.
Variables (sigma_clip_thresh : R) (sigma_clip_min_N : nat).

Local Abbreviation average d n f :=
  (lst_average sigma_clip d n f flag_thresh sigma_clip_thresh sigma_clip_min_N).
Local Abbreviation bin :=
  (reduce_bin flag_thresh sigma_clip sigma_clip_thresh sigma_clip_min_N).
Local Abbreviation loop :=
  (bins_loop flag_thresh sigma_clip sigma_clip_thresh sigma_clip_min_N).
Local Abbreviation reduce :=
  (reduce_lst_bins c_zero flag_thresh sigma_clip sigma_clip_thresh sigma_clip_min_N).

(** The invariant of the output: a flagged cell has data 1, standard
    deviation 1 and no samples. *)
Local Abbreviation flagged_cells_blank out :=
  (forall b i f p,
     cell (out_flags out) b i f p = true ->
     cell (out_data out) b i f p = c_one /\
     cell (out_std out) b i f p = c_one /\
     cell (out_nsamples out) b i f p = r_zero).

(** [lst_average] returns such cells, at every index of its lists. *)
Lemma lst_average_flagged_cell (data : ndarray C) (nsamples : ndarray R)
  (flags : ndarray bool) (mean : list C) (fm : list bool) (std : list C) (norm : list R) :
  average data nsamples flags = Ok (mean, fm, std, norm) ->
  forall j, nth j fm false = true ->
    nth j mean c_one = c_one /\ nth j std c_one = c_one /\ nth j norm r_zero = r_zero.
Proof.
  unfold lst_average.
  destruct (LstAverage.shape_eqb _ _ && LstAverage.shape_eqb _ _); [|discriminate].
  intros H. injection H as <- <- <- <-. intros j Hf.
  assert (Hj : j < npos data).
  { destruct (Nat.lt_ge_cases j (npos data)) as [Hj|Hj]; [exact Hj|].
    rewrite nth_overflow in Hf by (rewrite length_map, length_seq; exact Hj).
    discriminate Hf. }
  rewrite nth_map_seq in Hf by exact Hj. rewrite !nth_map_seq by exact Hj.
  split; [|split].
  - apply mean1_zero_norm, norm0_fully_flagged. exact Hf.
  - unfold std1. now rewrite Hf.
  - unfold norm1. now rewrite Hf.
Qed.

(** One pass of the loop: it keeps the shapes and the other bins, and an
    empty bin is filled with the blank cells. *)
Lemma reduce_bin_cells (lstbin : nat) (d : array4 C) (n : array4 R) (f : array4 bool)
  (out out' : @reduced R C) :
  bin lstbin d n f out = Ok out' ->
  (shape4 (out_data out') = shape4 (out_data out) /\
   shape4 (out_flags out') = shape4 (out_flags out) /\
   shape4 (out_std out') = shape4 (out_std out) /\
   shape4 (out_nsamples out') = shape4 (out_nsamples out)) /\
  (forall b i f' p, i <> lstbin -> cells out' b i f' p = cells out b i f' p) /\
  (size4 d = 0 -> forall b f' p, cells out' b lstbin f' p = (c_one, true, c_one, r_zero)).
Proof.
  unfold reduce_bin. destruct (size4 d =? 0) eqn:Es.
  - intros H. injection H as <-. cbn [out_data out_flags out_std out_nsamples].
    unfold cells, set_bin_scalar.
    cbn [out_data out_flags out_std out_nsamples cell shape4].
    split; [now repeat split|]. split.
    + intros b i f' p Hi. apply Nat.eqb_neq in Hi. now rewrite Hi.
    + intros _ b f' p. now rewrite Nat.eqb_refl.
  - destruct (average (flatten d) (flatten n) (flatten f))
      as [[[[mean fm] std] norm]|e] eqn:Ea; [|discriminate].
    destruct (shape4 d) as [[[vt vb] vf] vp] eqn:Ed.
    destruct (set_bin (out_data out) lstbin (vb, vf, vp) (unflatten vf vp mean c_one))
      as [od|e] eqn:E1; [|discriminate].
    destruct (set_bin (out_flags out) lstbin (vb, vf, vp) (unflatten vf vp fm false))
      as [ofl|e] eqn:E2; [|discriminate].
    destruct (set_bin (out_std out) lstbin (vb, vf, vp) (unflatten vf vp std c_one))
      as [os|e] eqn:E3; [|discriminate].
    destruct (set_bin (out_nsamples out) lstbin (vb, vf, vp) (unflatten vf vp norm r_zero))
      as [on|e] eqn:E4; [|discriminate].
    intros H. injection H as <-.
    apply set_bin_cells in E1, E2, E3, E4.
    destruct E1 as [S1 C1], E2 as [S2 C2], E3 as [S3 C3], E4 as [S4 C4].
    unfold cells. cbn [out_data out_flags out_std out_nsamples].
    split; [now repeat split|]. split.
    + intros b i f' p Hi. apply Nat.eqb_neq in Hi. now rewrite C1, C2, C3, C4, Hi.
    + intros Hz. apply Nat.eqb_neq in Es. contradiction.
Qed.

(** If the flagged cells were blank before a pass they are blank after. *)
Lemma reduce_bin_blank (lstbin : nat) (d : array4 C) (n : array4 R) (f : array4 bool)
  (out out' : @reduced R C) :
  bin lstbin d n f out = Ok out' ->
  flagged_cells_blank out -> flagged_cells_blank out'.
Proof.
  unfold reduce_bin. destruct (size4 d =? 0) eqn:Es.
  - intros H. injection H as <-. unfold set_bin_scalar.
    cbn [out_data out_flags out_std out_nsamples cell].
    intros Hinv b i f' p. destruct (i =? lstbin); [now repeat split | apply Hinv].
  - destruct (average (flatten d) (flatten n) (flatten f))
      as [[[[mean fm] std] norm]|e] eqn:Ea; [|discriminate].
    destruct (shape4 d) as [[[vt vb] vf] vp] eqn:Ed.
    destruct (set_bin (out_data out) lstbin (vb, vf, vp) (unflatten vf vp mean c_one))
      as [od|e] eqn:E1; [|discriminate].
    destruct (set_bin (out_flags out) lstbin (vb, vf, vp) (unflatten vf vp fm false))
      as [ofl|e] eqn:E2; [|discriminate].
    destruct (set_bin (out_std out) lstbin (vb, vf, vp) (unflatten vf vp std c_one))
      as [os|e] eqn:E3; [|discriminate].
    destruct (set_bin (out_nsamples out) lstbin (vb, vf, vp) (unflatten vf vp norm r_zero))
      as [on|e] eqn:E4; [|discriminate].
    intros H. injection H as <-.
    apply set_bin_cells in E1, E2, E3, E4.
    destruct E1 as [S1 C1], E2 as [S2 C2], E3 as [S3 C3], E4 as [S4 C4].
    cbn [out_data out_flags out_std out_nsamples].
    intros Hinv b i f' p. rewrite C1, C2, C3, C4.
    destruct (i =? lstbin); [|apply Hinv].
    unfold unflatten. apply (lst_average_flagged_cell _ _ _ Ea).
Qed.

(** The loop keeps the shapes, and leaves alone every bin before its first
    and after its last. *)
Lemma bins_loop_cells (data : list (array4 C)) :
  forall (nsamples : list (array4 R)) (flags : list (array4 bool)) (lstbin : nat)
         (out out' : @reduced R C),
    loop lstbin data nsamples flags out = Ok out' ->
    (shape4 (out_data out') = shape4 (out_data out) /\
     shape4 (out_flags out') = shape4 (out_flags out) /\
     shape4 (out_std out') = shape4 (out_std out) /\
     shape4 (out_nsamples out') = shape4 (out_nsamples out)) /\
    (forall b i f p,
       i < lstbin \/
       lstbin + Nat.min (List.length data)
                        (Nat.min (List.length nsamples) (List.length flags)) <= i ->
       cells out' b i f p = cells out b i f p).
Proof.
  induction data as [|d data IH]; intros nsamples flags lstbin out out' H.
  - cbn [bins_loop] in H. injection H as <-. now repeat split.
  - cbn [bins_loop] in H.
    destruct nsamples as [|n nsamples].
    { injection H as <-. now repeat split. }
    destruct flags as [|f flags].
    { injection H as <-. now repeat split. }
    destruct (bin lstbin d n f out) as [out1|e] eqn:Eb; [|discriminate H].
    apply reduce_bin_cells in Eb. destruct Eb as [[B1 [B2 [B3 B4]]] [Bo _]].
    apply IH in H. destruct H as [[H1 [H2 [H3 H4]]] Ho].
    split.
    + repeat split; congruence.
    + intros b i f' p Hcase. cbn [List.length] in Hcase.
      rewrite Ho by lia. apply Bo. lia.
Qed.

(** The loop keeps the flagged cells blank. *)
Lemma bins_loop_blank (data : list (array4 C)) :
  forall (nsamples : list (array4 R)) (flags : list (array4 bool)) (lstbin : nat)
         (out out' : @reduced R C),
    loop lstbin data nsamples flags out = Ok out' ->
    flagged_cells_blank out -> flagged_cells_blank out'.
Proof.
  induction data as [|d data IH]; intros nsamples flags lstbin out out' H.
  - cbn [bins_loop] in H. injection H as <-. trivial.
  - cbn [bins_loop] in H.
    destruct nsamples as [|n nsamples].
    { injection H as <-. trivial. }
    destruct flags as [|f flags].
    { injection H as <-. trivial. }
    destruct (bin lstbin d n f out) as [out1|e] eqn:Eb; [|discriminate H].
    intros Hinv. apply (IH _ _ _ _ _ H). apply (reduce_bin_blank _ _ _ _ _ Eb Hinv).
Qed.

(** A bin that is empty is filled with the blank cells. *)
Lemma bins_loop_empty_bin (data : list (array4 C)) :
  forall (nsamples : list (array4 R)) (flags : list (array4 bool)) (lstbin : nat)
         (out out' : @reduced R C) (j : nat) (d : array4 C),
    loop lstbin data nsamples flags out = Ok out' ->
    nth_error data j = Some d -> size4 d = 0 ->
    j < List.length nsamples -> j < List.length flags ->
    forall b f p, cells out' b (lstbin + j) f p = (c_one, true, c_one, r_zero).
Proof.
  induction data as [|d0 data IH]; intros nsamples flags lstbin out out' j d H Hj Hz Hn Hf.
  - destruct j; discriminate Hj.
  - cbn [bins_loop] in H.
    destruct nsamples as [|n nsamples]; [cbn [List.length] in Hn; lia|].
    destruct flags as [|f flags]; [cbn [List.length] in Hf; lia|].
    destruct (bin lstbin d0 n f out) as [out1|e] eqn:Eb; [|discriminate H].
    destruct j as [|j].
    + cbn [nth_error] in Hj. injection Hj as ->.
      apply reduce_bin_cells in Eb. destruct Eb as [_ [_ Be]].
      apply bins_loop_cells in H. destruct H as [_ Ho].
      intros b f' p. rewrite Nat.add_0_r, Ho by lia. now apply Be.
    + cbn [nth_error] in Hj. cbn [List.length] in Hn, Hf.
      intros b f' p. rewrite Nat.add_succ_r, <- Nat.add_succ_l.
      apply (IH nsamples flags (S lstbin) out1 out' j d); auto; lia.
Qed.

(** What a returning call went through when no output array is passed. *)
Lemma reduce_lst_bins_returned (data : list (array4 C)) (flags : list (array4 bool))
  (nsamples : list (array4 R)) (out : @reduced R C) :
  reduce data flags nsamples None None None None = Ok out ->
  exists d0 rest s,
    data = d0 :: rest /\
    s = (snd (fst (fst (shape4 d0))), List.length data,
         snd (fst (shape4 d0)), snd (shape4 d0)) /\
    same_shapes data flags nsamples = true /\
    loop 0 data nsamples flags
      {| out_data := full4 s c_zero; out_flags := full4 s false;
         out_std := full4 s c_one; out_nsamples := full4 s r_zero |} = Ok out.
Proof.
  unfold reduce_lst_bins. destruct data as [|d0 rest]; [discriminate|].
  destruct (shape4 d0) as [[[vt nbl] nfreq] npol] eqn:Ed.
  destruct (same_shapes (d0 :: rest) flags nsamples); [|discriminate].
  cbn [negb full4 shape4].
  destruct (negb _); [discriminate|]. destruct (negb _); [discriminate|].
  intros H. exists d0, rest, (nbl, List.length (d0 :: rest), nfreq, npol).
  split; [reflexivity|]. split; [now rewrite Ed|]. split; [reflexivity | exact H].
Qed.

(** X21.  When no output array is passed and [reduce_lst_bins] returns,
    every flagged cell of its output has data 1, standard deviation 1 and
    zero samples, whether its bin was empty or averaged. *)
Theorem reduce_lst_bins_flagged_cells (data : list (array4 C))
  (flags : list (array4 bool)) (nsamples : list (array4 R)) (out : @reduced R C) :
  reduce data flags nsamples None None None None = Ok out ->
  forall b i f p,
    cell (out_flags out) b i f p = true ->
    cell (out_data out) b i f p = c_one /\
    cell (out_std out) b i f p = c_one /\
    cell (out_nsamples out) b i f p = r_zero.
Proof.
  intros H. apply reduce_lst_bins_returned in H.
  destruct H as [d0 [rest [s [_ [_ [_ H]]]]]].
  apply (bins_loop_blank _ _ _ _ _ H).
  intros b i f p Hf. discriminate Hf.
Qed.

(** X22.  A bin whose data array is empty comes out flagged in every cell,
    with data 1, standard deviation 1 and zero samples, also when output
    arrays are passed. *)
Theorem reduce_lst_bins_empty_bin (data : list (array4 C))
  (flags : list (array4 bool)) (nsamples : list (array4 R))
  (out_data0 : option (array4 C)) (out_flags0 : option (array4 bool))
  (out_std0 : option (array4 C)) (out_nsamples0 : option (array4 R))
  (out : @reduced R C) (lstbin : nat) (d : array4 C) :
  reduce data flags nsamples out_data0 out_flags0 out_std0 out_nsamples0 = Ok out ->
  nth_error data lstbin = Some d -> size4 d = 0 ->
  lstbin < List.length flags -> lstbin < List.length nsamples ->
  forall b f p, cells out b lstbin f p = (c_one, true, c_one, r_zero).
Proof.
  unfold reduce_lst_bins.
  destruct data as [|d0 rest]; [discriminate|].
  destruct (shape4 d0) as [[[vt nbl] nfreq] npol].
  destruct (negb (same_shapes _ _ _)); [discriminate|].
  destruct (negb _); [discriminate|]. destruct (negb _); [discriminate|].
  intros H Hd Hz Hf Hn b f p.
  exact (@bins_loop_empty_bin _ _ _ 0 _ _ lstbin d H Hd Hz Hn Hf b f p).
Qed.

(** X23.  The bins are taken from the three lists in step, up to the end
    of the shortest: when [flags] or [nsamples] has fewer arrays than
    [data] and the call returns, the bins beyond come out as they were
    allocated: unflagged, with data 0, standard deviation 1 and zero
    samples. *)
Theorem reduce_lst_bins_short_lists (data : list (array4 C))
  (flags : list (array4 bool)) (nsamples : list (array4 R)) (out : @reduced R C)
  (lstbin : nat) :
  reduce data flags nsamples None None None None = Ok out ->
  Nat.min (List.length flags) (List.length nsamples) <= lstbin ->
  forall b f p, cells out b lstbin f p = (c_zero, false, c_one, r_zero).
Proof.
  intros H Hi. apply reduce_lst_bins_returned in H.
  destruct H as [d0 [rest [s [_ [_ [_ H]]]]]].
  apply bins_loop_cells in H. destruct H as [_ H].
  intros b f p. rewrite H by lia. reflexivity.
Qed.

(** The loop returns when in every bin the three arrays have one shape and
    the trailing axes are those of the output. *)
Lemma bins_loop_returns (nbl nfreq npol : nat) (data : list (array4 C)) :
  forall (nsamples : list (array4 R)) (flags : list (array4 bool)) (lstbin nl : nat)
         (out : @reduced R C),
    same_shapes data flags nsamples = true ->
    Forall (fun d => exists vt, shape4 d = (vt, nbl, nfreq, npol)) data ->
    shape4 (out_data out) = (nbl, nl, nfreq, npol) ->
    shape4 (out_flags out) = (nbl, nl, nfreq, npol) ->
    shape4 (out_std out) = (nbl, nl, nfreq, npol) ->
    shape4 (out_nsamples out) = (nbl, nl, nfreq, npol) ->
    exists out', loop lstbin data nsamples flags out = Ok out'.
Proof.
  induction data as [|d data IH]; intros nsamples flags lstbin nl out Hs Hd S1 S2 S3 S4.
  - now eexists.
  - cbn [bins_loop].
    destruct nsamples as [|n nsamples]; [now eexists|].
    destruct flags as [|f flags]; [now eexists|].
    cbn [same_shapes] in Hs. apply andb_true_iff in Hs. destruct Hs as [Hs Hrest].
    apply andb_true_iff in Hs. destruct Hs as [Hdf Hfn].
    apply shape4_eqb_eq in Hdf, Hfn.
    inversion Hd as [|? ? [vt Ed] Hd']. subst.
    assert (Eb : exists out1, bin lstbin d n f out = Ok out1).
    { unfold reduce_bin. destruct (size4 d =? 0); [now eexists|].
      unfold lst_average.
      rewrite (flatten_shape d n) by congruence.
      rewrite (flatten_shape n f) by congruence.
      unfold LstAverage.shape_eqb. rewrite !Nat.eqb_refl. cbn [andb]. rewrite Ed.
      destruct (set_bin_returns (out_data out) lstbin
                  (unflatten nfreq npol
                     (map (mean1 sigma_clip (flatten d) (flatten n) (flatten f) flag_thresh
                                 sigma_clip_thresh sigma_clip_min_N)
                          (seq 0 (npos (flatten d)))) c_one) S1) as [od ->].
      destruct (set_bin_returns (out_flags out) lstbin
                  (unflatten nfreq npol
                     (map (f_min sigma_clip (flatten d) (flatten n) (flatten f) flag_thresh
                                 sigma_clip_thresh sigma_clip_min_N)
                          (seq 0 (npos (flatten d)))) false) S2) as [ofl ->].
      destruct (set_bin_returns (out_std out) lstbin
                  (unflatten nfreq npol
                     (map (std1 sigma_clip (flatten d) (flatten n) (flatten f) flag_thresh
                                sigma_clip_thresh sigma_clip_min_N)
                          (seq 0 (npos (flatten d)))) c_one) S3) as [os ->].
      destruct (set_bin_returns (out_nsamples out) lstbin
                  (unflatten nfreq npol
                     (map (norm1 sigma_clip (flatten d) (flatten n) (flatten f) flag_thresh
                                 sigma_clip_thresh sigma_clip_min_N)
                          (seq 0 (npos (flatten d)))) r_zero) S4) as [on ->].
      now eexists. }
    destruct Eb as [out1 Eb]. rewrite Eb.
    apply reduce_bin_cells in Eb. destruct Eb as [[B1 [B2 [B3 B4]]] _].
    apply (IH nsamples flags (S lstbin) nl out1); auto; congruence.
Qed.

(** X24.  With no output array passed, [reduce_lst_bins] returns whenever
    [data] is not empty, the three arrays of every bin have one shape and
    all bins have the trailing axes of the first; the four arrays it
    returns have shape [(nbl, nlst_bins, nfreq, npol)].  An empty [data]
    raises IndexError, and a bin whose three arrays differ in shape raises
    AssertionError. *)
Theorem reduce_lst_bins_returns (data : list (array4 C)) (flags : list (array4 bool))
  (nsamples : list (array4 R)) (nbl nfreq npol : nat) :
  reduce [] flags nsamples None None None None = Raise IndexError /\
  (data <> [] -> same_shapes data flags nsamples = false ->
   reduce data flags nsamples None None None None = Raise AssertionError) /\
  (data <> [] -> same_shapes data flags nsamples = true ->
   Forall (fun d => exists vt, shape4 d = (vt, nbl, nfreq, npol)) data ->
   exists out,
     reduce data flags nsamples None None None None = Ok out /\
     shape4 (out_data out) = (nbl, List.length data, nfreq, npol) /\
     shape4 (out_flags out) = (nbl, List.length data, nfreq, npol) /\
     shape4 (out_std out) = (nbl, List.length data, nfreq, npol) /\
     shape4 (out_nsamples out) = (nbl, List.length data, nfreq, npol)).
Proof.
  split; [reflexivity|]. split.
  - intros Hne Hs. unfold reduce_lst_bins. destruct data as [|d0 rest]; [contradiction|].
    destruct (shape4 d0) as [[[vt b0] f0] p0]. now rewrite Hs.
  - intros Hne Hs Hd. unfold reduce_lst_bins.
    destruct data as [|d0 rest]; [contradiction|].
    inversion Hd as [|? ? [vt Ed] _]. subst. rewrite Ed, Hs.
    cbn [negb full4 shape4].
    assert (Er : shape4_eqb (nbl, List.length (d0 :: rest), nfreq, npol)
                            (nbl, List.length (d0 :: rest), nfreq, npol) = true)
      by now apply shape4_eqb_eq.
    rewrite Er. cbn [andb negb].
    set (s := (nbl, List.length (d0 :: rest), nfreq, npol)).
    destruct (@bins_loop_returns nbl nfreq npol (d0 :: rest) nsamples flags 0
                (List.length (d0 :: rest))
                {| out_data := full4 s c_zero; out_flags := full4 s false;
                   out_std := full4 s c_one; out_nsamples := full4 s r_zero |}
                Hs Hd eq_refl eq_refl eq_refl eq_refl) as [out Eo].
    exists out. split; [exact Eo|].
    apply bins_loop_cells in Eo. destruct Eo as [[H1 [H2 [H3 H4]]] _].
    now repeat split.
Qed.

End Reduce.

Lemma lst_average_positionwise_witness :
  match lst_average (F := RefFloat.ref_ops) RefFloat.no_clip RefFloat.ex_data RefFloat.ex_nsamples
                    RefFloat.ex_flags (Some (7 # 10))%Q (Some 0)%Q 4,
        lst_average (F := RefFloat.ref_ops) RefFloat.no_clip ex_data_other RefFloat.ex_nsamples
                    ex_flags_none (Some (7 # 10))%Q (Some 0)%Q 4 with
  | Ok (mean, fm, std, norm), Ok (mean', fm', std', norm') =>
      nth 1 mean (Some 1, Some 0)%Q = nth 1 mean' (Some 1, Some 0)%Q /\
      nth 1 fm false = nth 1 fm' false /\
      nth 1 std (Some 1, Some 0)%Q = nth 1 std' (Some 1, Some 0)%Q /\
      nth 1 norm (Some 0)%Q = nth 1 norm' (Some 0)%Q
  | _, _ => False
  end.
Proof.
  destruct (lst_average (F := RefFloat.ref_ops) RefFloat.no_clip RefFloat.ex_data RefFloat.ex_nsamples
              RefFloat.ex_flags (Some (7 # 10))%Q (Some 0)%Q 4)
    as [[[[mean fm] std] norm]|e] eqn:E; [|vm_compute in E; discriminate E].
  destruct (lst_average (F := RefFloat.ref_ops) RefFloat.no_clip ex_data_other RefFloat.ex_nsamples
              ex_flags_none (Some (7 # 10))%Q (Some 0)%Q 4)
    as [[[[mean' fm'] std'] norm']|e] eqn:E'; [|vm_compute in E'; discriminate E'].
  apply (@lst_average_positionwise _ _ RefFloat.ref_ops RefFloat.no_clip
           RefFloat.ex_data ex_data_other RefFloat.ex_nsamples RefFloat.ex_nsamples
           RefFloat.ex_flags ex_flags_none (Some (7 # 10))%Q (Some 0)%Q 4 1 1
           eq_refl
           (fun t _ => conj eq_refl (conj eq_refl eq_refl))
           eq_refl mean mean' fm fm' std std' norm norm' E E').
  - cbn. lia.
  - cbn. lia.
Defined.

(** The laws hold in the reference arithmetic. *)
Lemma ref_laws : FloatLaws RefFloat.ref_ops.
Proof. constructor; reflexivity. Defined.

(** The two example bins: in the first, channel 0 is flagged on every
    night and channel 1 averages to 4 over 4 samples; the second is empty.
    With the flags of the second bin missing, that bin stays as it was
    allocated. *)
Example reduce_lst_bins_example :
  match ex_reduce ex_bins_data ex_bins_flags ex_bins_nsamples,
        ex_reduce ex_bins_data [ex_bin RefFloat.ex_flags] ex_bins_nsamples with
  | Ok out, Ok short =>
      shape4 (out_data out) = (1, 2, 2, 1) /\
      cells out 0 0 0 0 = ((Some 1, Some 0), true, (Some 1, Some 0), Some 0)%Q /\
      fst (fst (cells out 0 0 1 0)) = ((Some 4, Some 0), false)%Q /\
      snd (cells out 0 0 1 0) = Some 4%Q /\
      cells out 0 1 1 0 = ((Some 1, Some 0), true, (Some 1, Some 0), Some 0)%Q /\
      cells short 0 1 1 0 = ((Some 0, Some 0), false, (Some 1, Some 0), Some 0)%Q
  | _, _ => False
  end.
Proof. vm_compute. repeat split. Qed.

Lemma reduce_lst_bins_flagged_cells_witness :
  exists out,
    ex_reduce ex_bins_data ex_bins_flags ex_bins_nsamples = Ok out /\
    forall b i f p,
      cell (out_flags out) b i f p = true ->
      cell (out_data out) b i f p = (Some 1, Some 0)%Q /\
      cell (out_std out) b i f p = (Some 1, Some 0)%Q /\
      cell (out_nsamples out) b i f p = Some 0%Q.
Proof.
  destruct (ex_reduce ex_bins_data ex_bins_flags ex_bins_nsamples) as [out|e] eqn:E.
  - exists out. split; [reflexivity|].
    eapply (reduce_lst_bins_flagged_cells (L := ref_laws)). exact E.
  - vm_compute in E. discriminate E.
Defined.

Lemma reduce_lst_bins_empty_bin_witness :
  exists out,
    ex_reduce ex_bins_data ex_bins_flags ex_bins_nsamples = Ok out /\
    forall b f p, cells out b 1 f p = ((Some 1, Some 0), true, (Some 1, Some 0), Some 0)%Q.
Proof.
  destruct (ex_reduce ex_bins_data ex_bins_flags ex_bins_nsamples) as [out|e] eqn:E.
  - exists out. split; [reflexivity|].
    eapply (reduce_lst_bins_empty_bin (F := RefFloat.ref_ops))
      with (d := ex_empty (Some 0, Some 0)%Q).
    + exact E.
    + reflexivity.
    + reflexivity.
    + cbn. lia.
    + cbn. lia.
  - vm_compute in E. discriminate E.
Defined.

Lemma reduce_lst_bins_short_lists_witness :
  exists out,
    ex_reduce ex_bins_data [ex_bin RefFloat.ex_flags] ex_bins_nsamples = Ok out /\
    forall b f p, cells out b 1 f p = ((Some 0, Some 0), false, (Some 1, Some 0), Some 0)%Q.
Proof.
  destruct (ex_reduce ex_bins_data [ex_bin RefFloat.ex_flags] ex_bins_nsamples)
    as [out|e] eqn:E.
  - exists out. split; [reflexivity|].
    eapply (reduce_lst_bins_short_lists (F := RefFloat.ref_ops)).
    + exact E.
    + cbn. lia.
  - vm_compute in E. discriminate E.
Defined.

Lemma reduce_lst_bins_returns_witness :
  exists out,
    ex_reduce ex_bins_data ex_bins_flags ex_bins_nsamples = Ok out /\
    shape4 (out_data out) = (1, 2, 2, 1) /\
    shape4 (out_flags out) = (1, 2, 2, 1) /\
    shape4 (out_std out) = (1, 2, 2, 1) /\
    shape4 (out_nsamples out) = (1, 2, 2, 1).
Proof.
  apply (proj2 (proj2 (reduce_lst_bins_returns (F := RefFloat.ref_ops) (Some 0, Some 0)%Q
                         (Some (7 # 10))%Q RefFloat.no_clip (Some 0)%Q 4
                         ex_bins_data ex_bins_flags ex_bins_nsamples 1 2 1))).
  - discriminate.
  - reflexivity.
  - repeat constructor; eexists; reflexivity.
Defined.

End ReduceLstBinsFacts.
